(* ===== verification/_CoqProject ===== *)
-Q . S2P
Prelude.v
GoStrings.v
GoStrconv.v
GoJson.v
JsonUtf8.v
GoFmt.v
FeatureQuery.v
FeatureCounts.v
Comparator.v
PhonemeCount.v
QueryEval.v
Programs.v
