(* ===== verification/Prelude.v ===== *)
(** * A verification development for eurphon-parse-search

    The repository answers counting queries over phonological inventories.
    Its Go sources are one library and three command-line drivers:

    - [src/go_modules/featurecounts/featurecounts.go] (package
      [featurecounts]): [InitialiseFeatures] splits signed feature tags
      ("+voice", "-nasal") into a positive and a negative slice;
      [contains] searches a feature parse; [GetCountForFeatures] counts
      the segments of an inventory whose parse has every positive and no
      negative feature; [CheckDiff] applies "=", "<", "<=", ">" or ">="
      to a difference and calls [log.Fatal] on any other operator.
      [UnmarshalJSONFile] only loads the JSON caches.
    - [src/go_modules/comparisonquery/main.go]: per language,
      [count1 - count2] for two feature queries.
    - [src/go_modules/countquery/main.go]: [count - target].
    - [src/go_modules/phonemequery/main.go]: [getCountForPhoneme] (1 if
      the phoneme occurs, else 0) minus a target.
    Each driver ranges over a Go map in unspecified order, calls
    [CheckDiff] on the language's difference and, when it is selected,
    [strconv.Atoi] on its identifier, appending the integer to the
    result slice; an error of either is fatal.  Data flow: tags ->
    [InitialiseFeatures] -> [GetCountForFeatures] / [getCountForPhoneme]
    -> Go [int] difference -> [CheckDiff] -> [Atoi] -> result slice.

    ** Files, in the order of _CoqProject

    - [Prelude.v] (this file): strings as byte sequences; Go's 64-bit
      [int] as [Z] with explicit wrap-around ([GoInt.wrap], [GoInt.add]
      for [result++], [GoInt.sub] for the differences); the error type
      [result] ([Ok], and [Fatal] for [log.Fatal]) with its bind
      notation [x <-? c ;; k] in [result_scope] and stdpp's monad
      classes; [result_perm] ([≈ᵣ]), the equivalence of outcomes up to
      the order of their lists, with its [Proper] instances; the
      interface [InventoryCounter] between the counters and the
      evaluator; the hint database [gofeat].
    - [GoStrings.v], [GoStrconv.v], [GoJson.v], [JsonUtf8.v], [GoFmt.v]:
      the Go library functions the code calls, modelled from the Go
      documentation and sources (not code of the repository; marked
      spec_modelled in the map): [strings.Trim] with an ASCII cutset and
      [strings.HasPrefix]; [strconv.Atoi] with its fast path,
      [ParseInt]/[ParseUint] and the decimal printer [FormatInt];
      [json.Unmarshal] into [[]string] and [map[string][]string] as the
      decoder's recursive descent ([parse_value], [parse_elems],
      [parse_members]) over the scanner's string, number and literal
      steps, with [unquoteBytes]' escapes, [utf8.DecodeRune] and
      [utf8.EncodeRune]; [json.Marshal] of [[]int]; UTF-8 validity
      ([utf8.Valid]) of the decoder's strings; [fmt.Scanf] with the
      verbs [%s] and [%d] on [os.Stdin] as a scanner state monad, and
      [bufio.Reader.ReadBytes('\n')].
    - [FeatureQuery.v] (Module [FeatureQuery]): [InitialiseFeatures] as
      a loop whose state is the two slices its pointer arguments denote;
      [ParseFeatures] is its call on fresh slices.
    - [FeatureCounts.v] (Module [FeatureCounts]): [contains],
      [neg_loop], [pos_loop] (the inner loops with [break]),
      [count_loop] (the segment loop with [continue]) and
      [GetCountForFeatures]; the spec's matcher [matches] and count
      [spec_count] as the abstract specification; the counter instance.
    - [Comparator.v] (Module [Comparator]): [CheckDiff] on the operator
      string; the abstract operators [cmp_op], [parse_op], [op_rel];
      [flip_op], the operator with its operands swapped.
    - [PhonemeCount.v] (Module [PhonemeCount]): [getCountForPhoneme].
    - [QueryEval.v] (Module [QueryEval]): the loop shared by the three
      [main]s ([select_loop], in a Section over the operator and the
      difference function), the Go map order as an explicit permutation
      of the map's entries ([range_order]), and the loops of the drivers
      [comparisonquery], [countquery] (with [count_diff]) and
      [phonemequery].
    - [Programs.v] (Module [Programs]): the three [main] functions whole,
      as functions of a [world] (the cache files and standard input) to
      the printed line or the [log.Fatal] exit ([exit_error]):
      [UnmarshalJSONFile], the reads with [Scanf] and [ReadBytes] in the
      code's order on one input stream (the bytes a [Scanf] reads ahead
      are lost to the [bufio.Reader] created after it),
      [readOneSetOfFeatures], the loop, [json.Marshal] and [Println].
      Go's map order is a parameter [iter] of a run ([iteration]).

    ** What the theorems show

    - Matching and counting (FeatureCounts): the loops decide the
      matcher of the spec for every segment, present or absent from the
      parse map; [GetCountForFeatures] equals the abstract count and
      never wraps for a slice-sized inventory (refinement); the empty
      query counts everything, the count is antitone in the query and
      invariant under reordering the inventory; a malformed tag "+"
      counts nothing.
    - Parsing (FeatureQuery): the exact split by the first byte, one
      output per tag (nothing dropped), trimmed outputs, and the round
      trip from signed names to tags and back.
    - Comparator: refinement by the abstract operators, the fatal path
      exactly for unrecognised strings, monotonicity and trichotomy.
    - Phoneme count: the presence indicator, capped at 1.
    - Query evaluation (QueryEval): each driver's outcome is the same in
      every map order up to the order of the output; refinement of each
      driver against the spec's selection of languages; when a run is
      fatal; swapping the two queries of a comparison and flipping the
      operator changes nothing, and a comparison against a query that
      matches nothing is the count query with target 0 (equivalences);
      the count query is monotone in its target; and the departures
      from the spec: an unrecognised operator is not detected on an
      empty map, two selected identifiers such as "1" and "01" print
      the same integer twice, a non-numeric identifier is fatal exactly
      when its language is selected, and [count - target] wraps for a
      target at the bottom of the [int] range, inverting "<" and ">".
    - Whole programs (Programs): on well-formed input each [main] prints
      the JSON array of what its loop selects, and, end to end from the
      input bytes, exactly the identifiers of the languages the spec
      selects (refinement); any two map iteration orders give the same
      run up to the order of the printed list; whatever the input, what
      a program prints decodes back as JSON to the printed integers,
      each of which [Atoi] reads back (round trip); and the input
      errors the code ignores: a tag line without its newline is fatal,
      a tag line that is not JSON runs as the empty query, a
      non-numeric target line runs with target 0 and shifts the lines
      read after it, and a corrupt inventory cache prints [[]].
    - Library lemmas: [Atoi] equals [ParseInt] on every string (its fast
      path is an optimisation), [Atoi (FormatInt z) = z] on the [int]
      range, [json.Marshal]'s output of an [[]int] decodes back, the
      fuelled JSON decoder never runs out of fuel, and every string the
      programs load is valid UTF-8 ([Trim] with an ASCII cutset keeps
      validity).
    Every theorem with hypotheses has a witness applying it to a
    concrete input, evaluated by [vm_compute] or [reflexivity].

    ** Bounds and fuel

    Go's [int] is 64 bits on the targets of the code: values are [Z] in
    [[-2^63, 2^63)] and [+], [-], [++] wrap ([GoInt.wrap]).  Theorems on
    counts assume an inventory length of at most [max_int], which every
    Go slice satisfies; under it [result++] and [count1 - count2] never
    wrap, while [count - target] can (a finding).  The loops of the code
    range over finite slices and maps and are structural [Fixpoint]s or
    folds.  Two library routines take fuel: the JSON decoder gets
    [2 * length + 1] units, enough because each value spends one unit
    and at least one byte and each element or member at least two
    ([parse_enough_fuel]), so it never stops for lack of fuel
    ([decode_json_total]); [FormatInt]'s digit loop gets 20 units, the
    number of decimal digits of [2^64].  [json.Unmarshal] enforces
    Go's nesting limit of 10000 ([maxNestingDepth]).

    ** Not modelled

    A failing [ioutil.ReadAll] on a file that opened (an I/O fault: a
    file of the world is read whole); the error branch of [json.Marshal],
    unreachable for an [[]int]; the Unicode white space [fmt.Scanf]
    skips besides ASCII space, tab, newline, vertical tab, form feed
    and carriage return; [json.Unmarshal] into any Go type other than
    [[]string] and [map[string][]string].  The spec treats all reading and
    printing as I/O glue; its behaviour here is modelled from the code
    and the Go library and reported as findings where it departs from
    the spec's failure policy. *)

From Stdlib Require Export Ascii.
From stdpp Require Export base list strings gmap.
From Stdlib Require Export ZArith Lia.

Create HintDb gofeat.
Create Rewrite HintDb gofeat.

(** ** Strings as byte sequences *)

Lemma app_String c s t : String c s +:+ t = String c (s +:+ t).
Proof. reflexivity. Qed.

Lemma app_EmptyString t : EmptyString +:+ t = t.
Proof. reflexivity. Qed.

Lemma string_app_nil_r s : s +:+ EmptyString = s.
Proof. induction s as [|c s IH]; [done|]. by rewrite app_String, IH. Qed.

Lemma string_app_assoc s t u : s +:+ (t +:+ u) = (s +:+ t) +:+ u.
Proof. induction s as [|c s IH]; [done|]. by rewrite !app_String, IH. Qed.

Lemma string_length_app s t : String.length (s +:+ t) = (String.length s + String.length t)%nat.
Proof. induction s as [|c s IH]; [done|]. rewrite app_String. simpl. by rewrite IH. Qed.

#[export] Hint Rewrite app_String app_EmptyString string_app_nil_r : gofeat.

(** Induction on the length of a string, for scanners that consume
    several bytes at a time. *)
Lemma string_len_ind (P : string -> Prop) :
  (forall s, (forall t, (String.length t < String.length s)%nat -> P t) -> P s) -> forall s, P s.
Proof.
  intros H. assert (forall n s, (String.length s < n)%nat -> P s) as Hn.
  { induction n as [|n IH]; intros s Hs; [lia|]. apply H. intros t Ht. apply IH. lia. }
  intros s. apply (Hn (S (String.length s))). lia.
Qed.

(** ** Go's 64-bit [int] *)

Module GoInt.
Open Scope Z_scope.

Definition min_int : Z := - 2 ^ 63.
Definition max_int : Z := 2 ^ 63 - 1.
Definition modulus : Z := 2 ^ 64.

(** Two's-complement wrap-around of an exact result into [int]. *)
Definition wrap (z : Z) : Z := (z - min_int) mod modulus + min_int.

Definition in_range (z : Z) : bool := (min_int <=? z) && (z <=? max_int).

(** [a + b], [a - b] and [a++] on Go [int]s. *)
Definition add (a b : Z) : Z := wrap (a + b).
Definition sub (a b : Z) : Z := wrap (a - b).

Lemma in_range_spec z : in_range z = true <-> min_int <= z <= max_int.
Proof. unfold in_range. rewrite andb_true_iff, !Z.leb_le. tauto. Qed.

Lemma wrap_in_range z : min_int <= wrap z <= max_int.
Proof.
  unfold wrap, min_int, max_int, modulus.
  pose proof (Z.mod_pos_bound (z - - 2 ^ 63) (2 ^ 64)). lia.
Qed.

Lemma wrap_small z : min_int <= z <= max_int -> wrap z = z.
Proof.
  unfold wrap, min_int, max_int, modulus. intros H.
  rewrite Z.mod_small; lia.
Qed.

Lemma wrap_mod z : exists k, wrap z = z + k * modulus.
Proof.
  unfold wrap. exists (- ((z - min_int) / modulus)).
  pose proof (Z.div_mod (z - min_int) modulus). unfold modulus in *. lia.
Qed.

(** Just above [max_int] a result wraps to the bottom of the range. *)
Lemma wrap_above z : max_int < z <= max_int + modulus -> wrap z = z - modulus.
Proof.
  unfold wrap, min_int, max_int, modulus. intros H.
  rewrite <- (Z.mod_unique (z - - 2 ^ 63) (2 ^ 64) 1 (z - - 2 ^ 63 - 2 ^ 64)); lia.
Qed.

Lemma add_small a b : min_int <= a + b <= max_int -> add a b = a + b.
Proof. apply wrap_small. Qed.

Lemma sub_small a b : min_int <= a - b <= max_int -> sub a b = a - b.
Proof. apply wrap_small. Qed.
End GoInt.

#[export] Hint Resolve GoInt.wrap_in_range : gofeat.

(** ** Results of fallible code

    [Ok a] is a normal return; [Fatal e] is a call of [log.Fatal] (the
    process exits, nothing is printed on stdout). *)

Inductive result (E A : Type) : Type :=
| Ok (a : A)
| Fatal (e : E).
Arguments Ok {E A} a.
Arguments Fatal {E A} e.

#[export] Instance result_ret {E} : MRet (result E) := fun _ a => Ok a.
#[export] Instance result_bind {E} : MBind (result E) :=
  fun _ _ f r => match r with Ok a => f a | Fatal e => Fatal e end.
#[export] Instance result_fmap {E} : FMap (result E) :=
  fun _ _ f r => match r with Ok a => Ok (f a) | Fatal e => Fatal e end.

(** The bind of the code's error handling, [v, err := f(); if err !=
    nil { log.Fatal(err) }], as a [match] so that it reduces and the
    bound variable's type is known. *)
Declare Scope result_scope.
Delimit Scope result_scope with result.
Notation "x <-? c ;; k" :=
  (match c with Ok x => k | Fatal e => Fatal e end)
  (at level 100, c at next level, right associativity) : result_scope.

(** Changing the error type of a result (wrapping a callee's error). *)
Definition map_err {E1 E2 A} (f : E1 -> E2) (r : result E1 A) : result E2 A :=
  match r with Ok a => Ok a | Fatal e => Fatal (f e) end.

Definition is_ok {E A} (r : result E A) : bool :=
  match r with Ok _ => true | Fatal _ => false end.

Lemma bind_Ok {E A B} (a : A) (f : A -> result E B) : (Ok a ≫= f) = f a.
Proof. reflexivity. Qed.

Lemma bind_Fatal {E A B} (e : E) (f : A -> result E B) : (Fatal e ≫= f) = Fatal e.
Proof. reflexivity. Qed.

Lemma bind_Ok_inv {E A B} (r : result E A) (f : A -> result E B) b :
  (r ≫= f) = Ok b -> exists a, r = Ok a /\ f a = Ok b.
Proof. destruct r; simpl; [eauto | discriminate]. Qed.

#[export] Hint Rewrite @bind_Ok @bind_Fatal : gofeat.

(** ** Outcomes equal up to the order of a result list

    Go's map iteration order is unspecified; the drivers' result slices
    are compared as multisets.  Two outcomes are equivalent when both are
    [Ok] with permuted lists, or both are fatal. *)

Definition result_perm {E A} (r1 r2 : result E (list A)) : Prop :=
  match r1, r2 with
  | Ok l1, Ok l2 => l1 ≡ₚ l2
  | Fatal _, Fatal _ => True
  | _, _ => False
  end.

Infix "≈ᵣ" := result_perm (at level 70).

#[export] Instance result_perm_equiv {E A} : Equivalence (@result_perm E A).
Proof.
  split.
  - intros [] ; simpl; done.
  - intros [] []; simpl; try done; intros; by symmetry.
  - intros [] [] []; simpl; try done; intros; by etrans.
Qed.

#[export] Instance result_perm_fmap_cons {E A} (x : A) :
  Proper (result_perm ==> result_perm) (fmap (M := result E) (cons x)).
Proof. intros [] [] H; simpl in *; try done. by constructor. Qed.

(** ** Generic list lemmas *)

Section filter_length.
Context {A : Type}.

Lemma length_filter_mono (P Q : A -> Prop) `{!forall x, Decision (P x)}
    `{!forall x, Decision (Q x)} (l : list A) :
  (forall x, P x -> Q x) -> length (filter P l) <= length (filter Q l).
Proof.
  intros HPQ. induction l as [|x l IH]; [done|]. rewrite !filter_cons.
  repeat case_decide; simpl; naive_solver lia.
Qed.

Lemma length_filter_all (P : A -> Prop) `{!forall x, Decision (P x)} (l : list A) :
  Forall P l -> length (filter P l) = length l.
Proof.
  induction 1 as [|x l Hx _ IH]; [done|]. rewrite filter_cons, decide_True by done.
  simpl. by rewrite IH.
Qed.
End filter_length.

(** ** The counter interface

    What a per-inventory count promises to the query evaluator: a
    function of the inventory (an ordered list of segment names) whose
    value lies between 0 and the inventory length.  Both counting modes
    of the code ([GetCountForFeatures] with a fixed query and parse map,
    [getCountForPhoneme] with a fixed phoneme) are instances; the
    evaluator's overflow and selection theorems are proved against this
    class only.  The bound is promised for inventories a Go slice can
    hold (length at most [max_int]); beyond, [result++] could wrap. *)

Class InventoryCounter (count : list string -> Z) : Prop :=
  count_bounds : forall inventory,
    (Z.of_nat (length inventory) <= GoInt.max_int ->
     0 <= count inventory <= Z.of_nat (length inventory))%Z.

(** ** Tactics *)

Ltac invc H := inversion H; subst; clear H.

(** Case analysis on the [match]es and [if]s of a goal, as the loops of
    the code are unfolded one iteration at a time. *)
Ltac case_go :=
  repeat match goal with
         | |- context [match ?x with _ => _ end] =>
             let E := fresh "E" in destruct x eqn:E
         end.
