(* ===== verification/GoStrings.v ===== *)
(** * Go's [strings.Trim] and [strings.HasPrefix]

    The two functions of Go's [strings] package that
    [featurecounts.InitialiseFeatures] calls, for byte strings and an
    ASCII cutset (the code's cutset is ["+-"]).  Go's [Trim] works on
    runes, but for an ASCII cutset it takes its [asciiSet] fast path
    ([trimRightASCII] then [trimLeftASCII]) on bytes; since no byte of a
    multi-byte UTF-8 sequence is below 0x80, a byte string of Rocq
    ([string], a list of 8-bit [ascii]) is the faithful model.  These are
    not code of the repository: they are modelled from the Go
    documentation and marked so in the map. *)

From S2P Require Import Prelude.

Module GoStrings.
Local Open Scope string_scope.

(** Membership in the cutset ([asciiSet.contains]). *)
Fixpoint cutset_contains (cutset : string) (c : Ascii.ascii) : bool :=
  match cutset with
  | EmptyString => false
  | String d rest => if decide (c = d) then true else cutset_contains rest c
  end.

(** [trimLeftASCII]: drop leading bytes of the cutset. *)
Fixpoint TrimLeft (s cutset : string) : string :=
  match s with
  | EmptyString => EmptyString
  | String c rest => if cutset_contains cutset c then TrimLeft rest cutset else s
  end.

(** [trimRightASCII]: drop trailing bytes of the cutset. *)
Fixpoint TrimRight (s cutset : string) : string :=
  match s with
  | EmptyString => EmptyString
  | String c rest =>
      match TrimRight rest cutset with
      | EmptyString => if cutset_contains cutset c then EmptyString else String c EmptyString
      | r => String c r
      end
  end.

(** [strings.Trim(s, cutset)]. *)
Definition Trim (s cutset : string) : string :=
  match s, cutset with
  | EmptyString, _ | _, EmptyString => s
  | _, _ => TrimLeft (TrimRight s cutset) cutset
  end.

(** [strings.HasPrefix(s, prefix)]. *)
Fixpoint HasPrefix (s prefix : string) {struct prefix} : bool :=
  match prefix, s with
  | EmptyString, _ => true
  | String p prest, String c srest => if decide (c = p) then HasPrefix srest prest else false
  | String _ _, EmptyString => false
  end.

(** First and last byte of a string, for the trimmed-ness invariant. *)
Definition first_byte (s : string) : option Ascii.ascii :=
  match s with EmptyString => None | String c _ => Some c end.

Fixpoint last_byte (s : string) : option Ascii.ascii :=
  match s with
  | EmptyString => None
  | String c EmptyString => Some c
  | String _ rest => last_byte rest
  end.

Definition clean_byte (cutset : string) (o : option Ascii.ascii) : bool :=
  match o with None => true | Some c => negb (cutset_contains cutset c) end.

(** A string neither starts nor ends with a byte of the cutset. *)
Definition trimmed (cutset s : string) : bool :=
  clean_byte cutset (first_byte s) && clean_byte cutset (last_byte s).

(** ** Lemmas *)


Lemma HasPrefix_spec s p : HasPrefix s p = true <-> exists r, s = p +:+ r.
Proof.
  revert s. induction p as [|d p IH]; intros s; simpl.
  - split; [intros _; by exists s | reflexivity].
  - destruct s as [|c s]; simpl.
    + split; [discriminate | intros [r Hr]; rewrite app_String in Hr; discriminate].
    + case_decide; subst.
      * rewrite IH. split; intros [r Hr]; exists r; rewrite ?app_String in *; congruence.
      * split; [discriminate | intros [r Hr]; rewrite app_String in Hr; congruence].
Qed.

Lemma HasPrefix_app s p : HasPrefix (p +:+ s) p = true.
Proof. apply HasPrefix_spec. eauto. Qed.

Lemma first_byte_TrimLeft s cutset :
  clean_byte cutset (first_byte (TrimLeft s cutset)) = true.
Proof.
  induction s as [|c s IH]; simpl; [done|].
  destruct (cutset_contains cutset c) eqn:E; simpl; [done|]. by rewrite E.
Qed.

Lemma last_byte_cons c s : s <> EmptyString -> last_byte (String c s) = last_byte s.
Proof. destruct s; [done|]. reflexivity. Qed.

Lemma last_byte_TrimRight s cutset :
  clean_byte cutset (last_byte (TrimRight s cutset)) = true.
Proof.
  induction s as [|c s IH]; simpl; [done|].
  destruct (TrimRight s cutset) as [|d r] eqn:E.
  - destruct (cutset_contains cutset c) eqn:Ec; simpl; [done|]. by rewrite Ec.
  - rewrite last_byte_cons by done. exact IH.
Qed.

(** [TrimLeft] returns a suffix; its last byte is the input's when
    something is left. *)
Lemma TrimLeft_suffix s cutset : exists p, s = p +:+ TrimLeft s cutset.
Proof.
  induction s as [|c s [p Hp]]; simpl; [by exists EmptyString|].
  destruct (cutset_contains cutset c).
  - exists (String c p). rewrite app_String. congruence.
  - by exists EmptyString.
Qed.

Lemma last_byte_app p s : s <> EmptyString -> last_byte (p +:+ s) = last_byte s.
Proof.
  intros Hs. destruct s as [|d s]; [done|].
  induction p as [|c p IH]; [done|].
  rewrite app_String, <- IH. by destruct p.
Qed.

Lemma last_byte_TrimLeft s cutset :
  clean_byte cutset (last_byte s) = true ->
  clean_byte cutset (last_byte (TrimLeft s cutset)) = true.
Proof.
  intros H. destruct (TrimLeft s cutset) eqn:E; [done|].
  destruct (TrimLeft_suffix s cutset) as [p Hp]. rewrite E in Hp.
  rewrite Hp, last_byte_app in H by done. exact H.
Qed.

Lemma clean_byte_empty o : clean_byte EmptyString o = true.
Proof. by destruct o. Qed.

(** The result of [Trim] is trimmed at both ends. *)
Lemma Trim_trimmed s cutset : trimmed cutset (Trim s cutset) = true.
Proof.
  unfold Trim, trimmed.
  destruct s as [|c s]; [done|]. destruct cutset as [|d cs].
  - by rewrite !clean_byte_empty.
  - rewrite first_byte_TrimLeft, andb_true_l.
    apply last_byte_TrimLeft, last_byte_TrimRight.
Qed.
Lemma TrimRight_clean s cutset :
  clean_byte cutset (last_byte s) = true -> TrimRight s cutset = s.
Proof.
  induction s as [|c s IH]; intros H; [done|]. simpl.
  destruct s as [|d s].
  - simpl in *. destruct (cutset_contains cutset c); [discriminate|done].
  - rewrite IH by done. reflexivity.
Qed.

Lemma TrimLeft_clean s cutset :
  clean_byte cutset (first_byte s) = true -> TrimLeft s cutset = s.
Proof.
  destruct s as [|c s]; [done|]. simpl.
  destruct (cutset_contains cutset c); [discriminate|done].
Qed.

(** [Trim] leaves a trimmed string unchanged. *)
Lemma Trim_clean s cutset : trimmed cutset s = true -> Trim s cutset = s.
Proof.
  unfold trimmed, Trim. intros [Hf Hl]%andb_true_iff.
  destruct s as [|c s]; [done|]. destruct cutset; [done|].
  rewrite TrimRight_clean by done. by apply TrimLeft_clean.
Qed.

(** A leading cutset byte is removed by [Trim]. *)
Lemma Trim_cons_cut c s cutset :
  cutset_contains cutset c = true -> Trim (String c s) cutset = Trim s cutset.
Proof.
  intros Hc. unfold Trim.
  destruct cutset as [|d cs]; [discriminate|].
  cbn [TrimRight]. destruct (TrimRight s _) as [|e r] eqn:E.
  - rewrite Hc. destruct s; [done|]. cbv beta iota. by rewrite ?E.
  - cbn [TrimLeft]. rewrite Hc. destruct s; [discriminate|]. cbv beta iota. by rewrite ?E.
Qed.

End GoStrings.
