(* ===== verification/GoStrconv.v ===== *)
(** * Go's [strconv.Atoi]

    The drivers turn a selected language identifier (a JSON key) into an
    [int] with [strconv.Atoi] and call [log.Fatal] on its error.  This
    file models [Atoi] as Go's standard library writes it (not code of
    the repository; modelled from the Go documentation and sources of
    [strconv/atoi.go], marked so in the map): a fast path for strings of
    1 to 18 bytes, and otherwise [ParseInt(s, 10, 0)] on 64-bit [int],
    itself a sign followed by [ParseUint(s, 10, 64)].  Errors are the
    [NumError] kinds [ErrSyntax] and [ErrRange]. *)

From S2P Require Import Prelude.

Module GoStrconv.
Local Open Scope string_scope.
Local Open Scope Z_scope.

(** ** Bytes *)

Definition byte (c : Ascii.ascii) : Z := Z.of_N (Ascii.N_of_ascii c).
Definition chr (n : Z) : Ascii.ascii := Ascii.ascii_of_N (Z.to_N n).
Definition byte_in (c : Ascii.ascii) (lo hi : Z) : bool := (lo <=? byte c) && (byte c <=? hi).

Definition is_digit (c : Ascii.ascii) : bool := byte_in c 48 57.


Fixpoint all_digits (s : string) : bool :=
  match s with
  | EmptyString => true
  | String c tl => is_digit c && all_digits tl
  end.

Inductive NumErrorKind := ErrSyntax | ErrRange.

#[export] Instance NumErrorKind_eq_dec : EqDecision NumErrorKind.
Proof. solve_decision. Defined.

(** The decimal value of a byte when it is a digit ([c - '0' <= 9]). *)
Definition digit_value (c : Ascii.ascii) : option Z :=
  let d := Z.of_N (Ascii.N_of_ascii c) - 48 in
  if (0 <=? d) && (d <=? 9) then Some d else None.

Definition maxUint64 : Z := 2 ^ 64 - 1.
(** [cutoff = maxVal/base + 1]: the first [n] for which [n*10] overflows. *)
Definition uint_cutoff : Z := maxUint64 / 10 + 1.

(** The digit loop of [ParseUint] for base 10: a non-digit is a syntax
    error; an overflow of [n*10] or [n*10 + d] is a range error, found
    before any later non-digit. *)
Fixpoint parse_uint_loop (s : string) (n : Z) : result NumErrorKind Z :=
  match s with
  | EmptyString => Ok n
  | String c rest =>
      match digit_value c with
      | None => Fatal ErrSyntax
      | Some d =>
          if uint_cutoff <=? n then Fatal ErrRange
          else if maxUint64 <? n * 10 + d then Fatal ErrRange
          else parse_uint_loop rest (n * 10 + d)
      end
  end.

(** [ParseUint(s, 10, 64)]. *)
Definition ParseUint (s : string) : result NumErrorKind Z :=
  match s with
  | EmptyString => Fatal ErrSyntax
  | _ => parse_uint_loop s 0
  end.

(** [ParseInt(s, 10, 64)]: optional sign, then [ParseUint] and the
    signed range check against [1 << 63]. *)
Definition ParseInt (s : string) : result NumErrorKind Z :=
  match s with
  | EmptyString => Fatal ErrSyntax
  | String c rest =>
      let neg := bool_decide (c = "-"%char) in
      let body := if bool_decide (c = "+"%char) || neg then rest else s in
      match ParseUint body with
      | Fatal e => Fatal e
      | Ok un =>
          if negb neg && (2 ^ 63 <=? un) then Fatal ErrRange
          else if neg && (2 ^ 63 <? un) then Fatal ErrRange
          else Ok (if neg then - un else un)
      end
  end.

(** The fast path's digit loop ([n = n*10 + int(ch)], no overflow
    possible below 19 bytes). *)
Fixpoint atoi_fast_loop (s : string) (n : Z) : result NumErrorKind Z :=
  match s with
  | EmptyString => Ok n
  | String c rest =>
      match digit_value c with
      | None => Fatal ErrSyntax
      | Some d => atoi_fast_loop rest (n * 10 + d)
      end
  end.

Definition atoi_fast (s0 : string) : result NumErrorKind Z :=
  match s0 with
  | EmptyString => Fatal ErrSyntax
  | String c rest =>
      let signed := bool_decide (c = "-"%char) || bool_decide (c = "+"%char) in
      let s := if signed then rest else s0 in
      match s with
      | EmptyString => Fatal ErrSyntax
      | _ =>
          match atoi_fast_loop s 0 with
          | Fatal e => Fatal e
          | Ok n => Ok (if bool_decide (c = "-"%char) then - n else n)
          end
      end
  end.

(** [strconv.Atoi(s)] on a 64-bit platform. *)
Definition Atoi (s : string) : result NumErrorKind Z :=
  if (0 <? String.length s)%nat && (String.length s <? 19)%nat then atoi_fast s
  else ParseInt s.

(** ** [strconv.FormatInt(i, 10)]

    The decimal printer that [json.Marshal] uses for an [int]
    ([strconv.AppendInt(b, i, 10)]): a minus sign for a negative value,
    then the digits of the magnitude, most significant first, with no
    leading zero.  [formatBits] produces the digits from the least
    significant one; the fuel of 20 digits is enough because every
    magnitude is below [2^64 < 10^20]. *)

Definition digit_char (d : Z) : Ascii.ascii := Ascii.ascii_of_N (Z.to_N (48 + d)).

Fixpoint format_uint (fuel : nat) (n : Z) (acc : string) : string :=
  match fuel with
  | O => acc
  | S fuel' =>
      let acc' := String (digit_char (n mod 10)) acc in
      if n <? 10 then acc' else format_uint fuel' (n / 10) acc'
  end.

Definition FormatInt (i : Z) : string :=
  if i <? 0 then String "-" (format_uint 20 (- i) "") else format_uint 20 i "".

(** ** Lemmas *)

Lemma digit_value_bound c d : digit_value c = Some d -> 0 <= d <= 9.
Proof.
  unfold digit_value. destruct (_ && _) eqn:Hd; [|discriminate].
  intros [= <-]. apply andb_true_iff in Hd as [Hd1 Hd2].
  apply Z.leb_le in Hd1, Hd2. lia.
Qed.

Lemma parse_uint_loop_bound s n z :
  0 <= n <= maxUint64 -> parse_uint_loop s n = Ok z -> 0 <= z <= maxUint64.
Proof.
  revert n. induction s as [|c s IH]; intros n Hn H; simpl in H.
  - by invc H.
  - destruct (digit_value c) as [d|] eqn:Ed; [|discriminate].
    apply digit_value_bound in Ed.
    destruct (uint_cutoff <=? n); [discriminate|].
    destruct (maxUint64 <? _) eqn:Hm; [discriminate|].
    apply Z.ltb_ge in Hm. eapply IH; [|exact H]. lia.
Qed.

(** A successful [ParseInt] returns a value of Go's [int]. *)
Lemma ParseInt_range s z :
  ParseInt s = Ok z -> GoInt.min_int <= z <= GoInt.max_int.
Proof.
  unfold ParseInt, GoInt.min_int, GoInt.max_int.
  destruct s as [|c rest]; [discriminate|].
  match goal with
  | |- context [ParseUint ?b] => destruct (ParseUint b) as [un|] eqn:Hu; [|discriminate]
  end.
  assert (0 <= un <= maxUint64) as Hb.
  { unfold ParseUint in Hu. case_match; [discriminate|].
    eapply parse_uint_loop_bound; [|exact Hu]. unfold maxUint64; lia. }
  destruct (bool_decide (c = "-"%char)); simpl;
    repeat case_match; intros Hz; invc Hz; lia.
Qed.

Lemma atoi_fast_loop_bound s n z :
  0 <= n -> atoi_fast_loop s n = Ok z ->
  0 <= z < (n + 1) * 10 ^ Z.of_nat (String.length s).
Proof.
  revert n. induction s as [|c s IH]; intros n Hn H; simpl in H.
  - invc H. simpl. lia.
  - destruct (digit_value c) as [d|] eqn:Ed; [|discriminate].
    apply digit_value_bound in Ed.
    apply IH in H; [|lia].
    cbn [String.length]. rewrite Nat2Z.inj_succ, Z.pow_succ_r by lia.
    pose proof (Z.pow_pos_nonneg 10 (Z.of_nat (String.length s))). nia.
Qed.

Lemma atoi_fast_range s z :
  (String.length s < 19)%nat -> atoi_fast s = Ok z ->
  GoInt.min_int <= z <= GoInt.max_int.
Proof.
  unfold atoi_fast, GoInt.min_int, GoInt.max_int. intros Hlen.
  destruct s as [|c rest]; [discriminate|]. cbn [String.length] in Hlen.
  assert (forall t n, (String.length t < 19)%nat ->
            atoi_fast_loop t 0 = Ok n -> 0 <= n < 10 ^ 18) as Hb.
  { intros t n Ht Hn. apply atoi_fast_loop_bound in Hn; [|lia].
    assert (10 ^ Z.of_nat (String.length t) <= 10 ^ 18).
    { apply Z.pow_le_mono_r; lia. }
    lia. }
  repeat case_match; intros Hz; invc Hz; simplify_eq;
    match goal with
    | Hl : atoi_fast_loop _ 0 = Ok ?n |- _ =>
        apply Hb in Hl; [lia | cbn [String.length] in *; lia]
    end.
Qed.

(** [Atoi] returns a Go [int] whenever it succeeds. *)
Lemma Atoi_range s z : Atoi s = Ok z -> GoInt.min_int <= z <= GoInt.max_int.
Proof.
  unfold Atoi. destruct (_ && _) eqn:H.
  - apply andb_true_iff in H as [_ H]. apply Nat.ltb_lt in H.
    by apply atoi_fast_range.
  - apply ParseInt_range.
Qed.

(** ** The fast path of [Atoi] is [ParseInt] *)

Lemma uint_cutoff_value : uint_cutoff = 1844674407370955162.
Proof. reflexivity. Qed.

Lemma maxUint64_value : maxUint64 = 18446744073709551615.
Proof. reflexivity. Qed.

(** The digit loop of [ParseUint] is a left fold that stops at the
    first error. *)
Lemma parse_uint_loop_app s t n :
  parse_uint_loop (s +:+ t) n =
  match parse_uint_loop s n with Ok m => parse_uint_loop t m | Fatal e => Fatal e end.
Proof.
  revert n. induction s as [|c s IH]; intros n; [done|].
  rewrite app_String. simpl. destruct (digit_value c) as [z|]; [|done].
  destruct (uint_cutoff <=? n); [done|]. destruct (maxUint64 <? n * 10 + z); auto.
Qed.

(** Without overflow the two digit loops agree. *)
Lemma parse_uint_loop_fast s n :
  0 <= n -> (n + 1) * 10 ^ Z.of_nat (String.length s) <= 10 ^ 19 ->
  parse_uint_loop s n = atoi_fast_loop s n.
Proof.
  revert n. induction s as [|c s IH]; intros n Hn Hb; [done|].
  cbn [String.length] in Hb. rewrite Nat2Z.inj_succ, Z.pow_succ_r in Hb by lia.
  pose proof (Z.pow_pos_nonneg 10 (Z.of_nat (String.length s))) as Hp.
  simpl. destruct (digit_value c) as [d|] eqn:Hd; [|done].
  apply digit_value_bound in Hd.
  assert (n + 1 <= 10 ^ 18) as Hn18 by nia.
  rewrite uint_cutoff_value, maxUint64_value in *.
  rewrite (proj2 (Z.leb_gt _ n)), (proj2 (Z.ltb_ge _ _)) by lia.
  apply IH; nia.
Qed.

Lemma ParseUint_fast s :
  s <> EmptyString -> (String.length s <= 18)%nat ->
  ParseUint s = atoi_fast_loop s 0.
Proof.
  intros Hs Hl. unfold ParseUint. destruct s; [done|].
  apply parse_uint_loop_fast; [lia|].
  assert (10 ^ Z.of_nat (String.length (String a s)) <= 10 ^ 18) by (apply Z.pow_le_mono_r; lia).
  lia.
Qed.

Lemma atoi_fast_loop_small s z :
  (String.length s <= 18)%nat -> atoi_fast_loop s 0 = Ok z -> 0 <= z < 2 ^ 63.
Proof.
  intros Hl Hz. apply atoi_fast_loop_bound in Hz; [|lia].
  assert (10 ^ Z.of_nat (String.length s) <= 10 ^ 18) by (apply Z.pow_le_mono_r; lia).
  lia.
Qed.

(** [ParseInt] on a string whose body (after an optional sign) has at
    most 18 bytes is the fast loop. *)
Lemma ParseUint_short s :
  (String.length s <= 18)%nat ->
  ParseUint s = match s with EmptyString => Fatal ErrSyntax | _ => atoi_fast_loop s 0 end.
Proof. intros Hl. destruct s; [done|]. by apply ParseUint_fast. Qed.

(** The signed checks of [ParseInt] never fire on at most 18 digits. *)
Lemma ParseInt_checks_short (neg : bool) z :
  0 <= z < 2 ^ 63 ->
  (if negb neg && (2 ^ 63 <=? z) then Fatal ErrRange
   else if neg && (2 ^ 63 <? z) then Fatal ErrRange
   else Ok (if neg then - z else z)) = Ok (if neg then - z else z).
Proof.
  intros Hz. rewrite (proj2 (Z.leb_gt _ _)), (proj2 (Z.ltb_ge _ _)) by lia.
  by destruct neg.
Qed.

(** [ParseInt] on a string of 1 to 18 bytes is the fast path. *)
Lemma ParseInt_short s :
  (0 < String.length s < 19)%nat -> ParseInt s = atoi_fast s.
Proof.
  intros Hl. destruct s as [|c rest]; [simpl in Hl; lia|]. cbn [String.length] in Hl.
  unfold ParseInt, atoi_fast. cbv zeta.
  rewrite ParseUint_short by (case_match; cbn [String.length]; lia).
  destruct (bool_decide (c = "-"%char)) eqn:Hm, (bool_decide (c = "+"%char)) eqn:Hp;
    cbn [orb]; [destruct rest as [|c' r]; [done|] .. | ];
    (destruct (atoi_fast_loop _ 0) as [z|] eqn:Hz; [|done]);
    apply atoi_fast_loop_small in Hz; cbn [String.length] in *; try lia;
    first [exact (ParseInt_checks_short true _ Hz) | exact (ParseInt_checks_short false _ Hz)].
Qed.

(** Equivalence of the optimised routine with the reference one:
    [Atoi], with its fast path for strings of 1 to 18 bytes, returns on
    every string what [ParseInt(s, 10, 0)] returns, the value and the
    error kind alike. *)
Lemma Atoi_ParseInt s : Atoi s = ParseInt s.
Proof.
  unfold Atoi. destruct (_ && _) eqn:H; [|done].
  apply andb_true_iff in H as [H1 H2]. apply Nat.ltb_lt in H1, H2.
  symmetry. by apply ParseInt_short.
Qed.

(** ** [FormatInt] and [Atoi] are inverse on [int] *)

Lemma digit_value_char d : 0 <= d <= 9 -> digit_value (digit_char d) = Some d.
Proof.
  intros Hd.
  assert (d = 0 \/ d = 1 \/ d = 2 \/ d = 3 \/ d = 4 \/ d = 5 \/ d = 6 \/ d = 7 \/ d = 8 \/ d = 9)
    as Hcases by lia.
  by repeat (destruct Hcases as [->|Hcases]; [reflexivity|]); subst.
Qed.

Lemma digit_char_not_sign d :
  0 <= d <= 9 -> digit_char d <> "-"%char /\ digit_char d <> "+"%char.
Proof.
  intros Hd%digit_value_char. split; intros Heq; rewrite Heq in Hd; discriminate.
Qed.

Lemma format_uint_app fuel n acc : format_uint fuel n acc = format_uint fuel n "" +:+ acc.
Proof.
  revert n acc. induction fuel as [|fuel IH]; intros n acc; [done|]. simpl.
  destruct (n <? 10); [done|].
  rewrite (IH _ (String _ acc)), (IH _ (String _ "")), <- string_app_assoc. done.
Qed.

(** The printed digits start with a digit. *)
Lemma format_uint_head fuel n acc :
  exists d rest, format_uint (S fuel) n acc = String (digit_char d) rest /\ 0 <= d <= 9.
Proof.
  revert n acc. induction fuel as [|fuel IH]; intros n acc; simpl.
  - destruct (n <? 10); (do 2 eexists; split; [reflexivity | pose proof (Z.mod_pos_bound n 10); lia]).
  - destruct (n <? 10); [|apply IH].
    do 2 eexists; split; [reflexivity | pose proof (Z.mod_pos_bound n 10); lia].
Qed.

(** One digit of the loop, without overflow. *)
Lemma parse_digit_step n d :
  0 <= d <= 9 -> 0 <= n -> n * 10 + d <= maxUint64 ->
  parse_uint_loop (String (digit_char d) "") n = Ok (n * 10 + d).
Proof.
  intros Hd Hn Hm. simpl. rewrite digit_value_char by done.
  rewrite uint_cutoff_value, maxUint64_value in *.
  rewrite (proj2 (Z.leb_gt _ _)), (proj2 (Z.ltb_ge _ _)) by lia. done.
Qed.

(** Enough fuel prints every digit, and the digit loop reads them back. *)
Lemma parse_format_uint fuel n :
  0 <= n <= maxUint64 -> n < 10 ^ Z.of_nat fuel ->
  parse_uint_loop (format_uint fuel n "") 0 = Ok n.
Proof.
  revert n. induction fuel as [|fuel IH]; intros n Hn Hf; [simpl in Hf; by assert (n = 0) as -> by lia|].
  rewrite Nat2Z.inj_succ, Z.pow_succ_r in Hf by lia.
  pose proof (Z.mod_pos_bound n 10) as Hm. pose proof (Z.div_mod n 10) as Hdm.
  cbn [format_uint]. destruct (n <? 10) eqn:Hlt; [apply Z.ltb_lt in Hlt | apply Z.ltb_ge in Hlt].
  - rewrite parse_digit_step by lia. f_equal. rewrite Z.mod_small; lia.
  - rewrite format_uint_app, parse_uint_loop_app, IH.
    + rewrite parse_digit_step by (try apply Z.div_pos; lia). f_equal. lia.
    + split; [apply Z.div_pos | apply Z.div_le_upper_bound]; lia.
    + apply Z.div_lt_upper_bound; lia.
Qed.

Lemma ParseUint_format_uint fuel n :
  0 <= n <= maxUint64 -> n < 10 ^ Z.of_nat (S fuel) ->
  ParseUint (format_uint (S fuel) n "") = Ok n.
Proof.
  intros Hn Hf. destruct (format_uint_head fuel n "") as (d & rest & Heq & _).
  pose proof (parse_format_uint _ _ Hn Hf) as Hp. rewrite Heq in Hp |- *. exact Hp.
Qed.

(** [ParseInt] reads back what [FormatInt] prints, for every [int]. *)
Lemma ParseInt_FormatInt z :
  GoInt.min_int <= z <= GoInt.max_int -> ParseInt (FormatInt z) = Ok z.
Proof.
  unfold GoInt.min_int, GoInt.max_int, FormatInt. intros Hz.
  assert (Hb : forall n, 0 <= n <= 2 ^ 63 -> ParseUint (format_uint 20 n "") = Ok n).
  { intros n Hn. apply ParseUint_format_uint; rewrite ?maxUint64_value; lia. }
  destruct (z <? 0) eqn:Hneg; [apply Z.ltb_lt in Hneg | apply Z.ltb_ge in Hneg].
  - unfold ParseInt. cbv zeta. rewrite (bool_decide_true ("-"%char = "-"%char)) by done.
    rewrite orb_true_r, Hb by lia. simpl. rewrite (proj2 (Z.ltb_ge _ _)) by lia. f_equal. lia.
  - destruct (format_uint_head 19 z "") as (d & rest & Heq & Hd).
    pose proof (Hb z ltac:(lia)) as Hz'. rewrite Heq in Hz' |- *.
    destruct (digit_char_not_sign d Hd) as [Hm Hp].
    unfold ParseInt. cbv zeta. rewrite !bool_decide_false by done. cbn [orb].
    rewrite Hz'. simpl. rewrite (proj2 (Z.leb_gt _ _)) by lia. done.
Qed.

(** Round trip: every [int] that the drivers print with
    [json.Marshal] ([FormatInt]) reads back as itself with [Atoi]. *)
Lemma Atoi_FormatInt z :
  GoInt.min_int <= z <= GoInt.max_int -> Atoi (FormatInt z) = Ok z.
Proof.
  intros Hz. unfold Atoi. rewrite <- (ParseInt_FormatInt z Hz).
  destruct (_ && _) eqn:H; [|done].
  apply andb_true_iff in H as [H1 H2]. apply Nat.ltb_lt in H1, H2.
  by rewrite ParseInt_short.
Qed.

(** ** The shape of the printed digits *)

Lemma all_digits_app s t : all_digits (s +:+ t) = all_digits s && all_digits t.
Proof. induction s as [|c s IH]; [done|]. rewrite app_String. simpl. by rewrite IH, andb_assoc. Qed.

Lemma byte_digit_char d : 0 <= d <= 9 -> byte (digit_char d) = 48 + d.
Proof.
  intros Hd.
  assert (d = 0 \/ d = 1 \/ d = 2 \/ d = 3 \/ d = 4 \/ d = 5 \/ d = 6 \/ d = 7 \/ d = 8 \/ d = 9)
    as Hcases by lia.
  by repeat (destruct Hcases as [->|Hcases]; [reflexivity|]); subst.
Qed.

Lemma is_digit_char d : 0 <= d <= 9 -> is_digit (digit_char d) = true.
Proof.
  intros Hd. unfold is_digit, byte_in. rewrite byte_digit_char by done.
  apply andb_true_iff; split; apply Z.leb_le; lia.
Qed.

Lemma all_digits_cons d ds :
  0 <= d <= 9 -> all_digits ds = true -> all_digits (String (digit_char d) ds) = true.
Proof. intros Hd Hds. cbn [all_digits]. by rewrite is_digit_char, Hds. Qed.

Lemma format_uint_S fuel n acc :
  format_uint (S fuel) n acc =
  if n <? 10 then String (digit_char (n mod 10)) acc
  else format_uint fuel (n / 10) (String (digit_char (n mod 10)) acc).
Proof. reflexivity. Qed.

(** The digits [format_uint] prints: a leading digit, nonzero unless
    the number is a single digit, then digits. *)
Lemma format_uint_shape fuel n acc :
  0 <= n < 10 ^ Z.of_nat (S fuel) ->
  exists d ds, format_uint (S fuel) n acc = String (digit_char d) (ds +:+ acc) /\
    all_digits ds = true /\ 0 <= d <= 9 /\ (n < 10 -> d = n /\ ds = EmptyString) /\ (10 <= n -> 1 <= d).
Proof.
  revert n acc. induction fuel as [|fuel IH]; intros n acc Hn;
    rewrite Nat2Z.inj_succ, Z.pow_succ_r in Hn by lia; rewrite format_uint_S.
  - simpl in Hn. rewrite (proj2 (Z.ltb_lt n 10)) by lia. exists n, EmptyString.
    rewrite Z.mod_small by lia. split_and!; try done; lia.
  - destruct (n <? 10) eqn:Hlt; [apply Z.ltb_lt in Hlt | apply Z.ltb_ge in Hlt].
    + exists (n mod 10), EmptyString. rewrite Z.mod_small by lia. split_and!; try done; lia.
    + pose proof (Z.mod_pos_bound n 10 ltac:(lia)) as Hm.
      destruct (IH (n / 10) (String (digit_char (n mod 10)) acc)) as (d & ds & Heq & Hds & Hd & H1 & H2).
      { split; [apply Z.div_pos | apply Z.div_lt_upper_bound]; lia. }
      exists d, (ds +:+ String (digit_char (n mod 10)) EmptyString). rewrite Heq.
      rewrite <- string_app_assoc, all_digits_app, Hds. simpl.
      unfold is_digit, byte_in. rewrite byte_digit_char by lia.
      split_and!; try done; try (apply andb_true_iff; split; apply Z.leb_le; lia); try lia.
      intros _. destruct (Z.lt_ge_cases (n / 10) 10) as [Hs|Hs].
      * destruct (H1 Hs) as [-> _]. apply Z.div_le_lower_bound; lia.
      * by apply H2.
Qed.

(** The shape of [FormatInt z]: an optional minus sign, a leading
    digit that is nonzero unless it is the only one, then digits. *)
Lemma FormatInt_shape z :
  GoInt.min_int <= z <= GoInt.max_int ->
  exists (neg : bool) d ds,
    FormatInt z = (if neg then String "-" EmptyString else EmptyString) +:+ String (digit_char d) ds /\
    0 <= d <= 9 /\ all_digits ds = true /\ (d = 0 -> ds = EmptyString).
Proof.
  unfold GoInt.min_int, GoInt.max_int. intros Hz.
  assert (Hshape : forall n, 0 <= n <= 2 ^ 63 ->
            exists d ds, format_uint 20 n EmptyString = String (digit_char d) ds /\
              0 <= d <= 9 /\ all_digits ds = true /\ (d = 0 -> ds = EmptyString)).
  { intros n Hn.
    assert (Hb : 0 <= n < 10 ^ Z.of_nat 20).
    { assert (2 ^ 63 < 10 ^ Z.of_nat 20) by reflexivity. lia. }
    destruct (format_uint_shape 19 n EmptyString Hb) as (d & ds & Heq & Hds & Hd09 & H1 & H2).
    rewrite string_app_nil_r in Heq. exists d, ds. do 3 (split; [done|]).
    intros Hd0. destruct (Z.lt_ge_cases n 10) as [Hs|Hs]; [exact (proj2 (H1 Hs)) | specialize (H2 Hs); lia]. }
  unfold FormatInt. destruct (z <? 0) eqn:Hneg; [apply Z.ltb_lt in Hneg | apply Z.ltb_ge in Hneg].
  - destruct (Hshape (- z) ltac:(lia)) as (d & ds & Heq & H). exists true, d, ds. by rewrite Heq.
  - destruct (Hshape z ltac:(lia)) as (d & ds & Heq & H). exists false, d, ds. by rewrite Heq.
Qed.

(** The bottom of the range prints with its sign and reads back. *)
Example FormatInt_min_int :
  FormatInt GoInt.min_int = "-9223372036854775808"%string /\
  Atoi (FormatInt GoInt.min_int) = Ok GoInt.min_int.
Proof.
  split; [reflexivity|]. apply Atoi_FormatInt. unfold GoInt.min_int, GoInt.max_int. lia.
Qed.
End GoStrconv.
