(* ===== verification/GoJson.v ===== *)
(** * Go's [encoding/json], as the drivers use it

    The drivers decode three kinds of JSON text with [json.Unmarshal]:
    the two cache files into a fresh [map[string][]string] (through
    [featurecounts.UnmarshalJSONFile]) and each query line into a fresh
    [[]string]; they print the selected identifiers with
    [json.Marshal] of an [[]int].  This file models those calls as
    Go's standard library writes them (library code, not code of the
    repository; marked spec_modelled in the map):

    - [decode_json] is [checkValid] followed by the decoder: the JSON
      grammar of [scanner.go] (white space is space, tab, newline and
      carriage return; the nesting limit [maxNestingDepth = 10000]),
      read by recursive descent into a [json] tree.  A string literal
      is decoded as [unquoteBytes] does: the escapes, [\uXXXX] with
      UTF-16 surrogate pairs, and every byte sequence that is not
      valid UTF-8 replaced by U+FFFD ([utf8.DecodeRune] and
      [utf8.EncodeRune]).  Numbers are kept as their literal text.
    - [Unmarshal_strings] and [Unmarshal_map] are the decoder's
      [array], [object] and [literalStore] on the two target types,
      starting from the fresh empty values the code passes: a syntax
      error leaves the target as it was, a value of the wrong type is
      skipped (its slot keeps its zero value), [null] sets a slice or
      map to nil.  The errors are returned by [json.Unmarshal] and the
      code ignores them, so the model returns only the target.
    - [Marshal_ints] is the encoder on [[]int]: [[], the elements
      printed by [strconv.AppendInt(b, v, 10)] and separated by commas,
      []].

    The recursive descent runs on fuel; [decode_json] gives it twice
    the input's length plus one, which is enough (theorem
    [decode_json_total]). *)

From S2P Require Import Prelude GoStrconv.

Module GoJson.
Import GoStrconv.
Local Open Scope string_scope.
Local Open Scope Z_scope.

(** ** JSON values *)

Inductive json :=
  | JNull
  | JBool (b : bool)
  | JNumber (literal : string)
  | JString (s : string)
  | JArray (elems : list json)
  | JObject (members : list (string * json)).

(** [isSpace] of [scanner.go]: [' '], ['\t'], ['\n'], ['\r']. *)
Definition is_ws (c : Ascii.ascii) : bool :=
  (byte c =? 32) || (byte c =? 9) || (byte c =? 10) || (byte c =? 13).

Fixpoint skip_ws (s : string) : string :=
  match s with
  | String c tl => if is_ws c then skip_ws tl else s
  | EmptyString => EmptyString
  end.

Fixpoint all_ws (s : string) : bool :=
  match s with
  | String c tl => is_ws c && all_ws tl
  | EmptyString => true
  end.

(** ** UTF-8 ([unicode/utf8]) *)

(** [first] and [acceptRanges]: for a first byte at or above 0x80, the
    length of the sequence it starts and the range of its second byte;
    [None] for a byte that starts no sequence. *)
Definition utf8_first (p0 : Z) : option (nat * Z * Z) :=
  if (194 <=? p0) && (p0 <=? 223) then Some (2%nat, 128, 191)
  else if p0 =? 224 then Some (3%nat, 160, 191)
  else if (225 <=? p0) && (p0 <=? 236) then Some (3%nat, 128, 191)
  else if p0 =? 237 then Some (3%nat, 128, 159)
  else if (238 <=? p0) && (p0 <=? 239) then Some (3%nat, 128, 191)
  else if p0 =? 240 then Some (4%nat, 144, 191)
  else if (241 <=? p0) && (p0 <=? 243) then Some (4%nat, 128, 191)
  else if p0 =? 244 then Some (4%nat, 128, 143)
  else None.

Definition cont_byte (c : Ascii.ascii) : bool := byte_in c 128 191.

(** [utf8.EncodeRune]: surrogates and values above U+10FFFF become
    [RuneError]. *)
Definition encode_rune (r : Z) : string :=
  if r <=? 127 then String (chr r) ""
  else if r <=? 2047 then String (chr (192 + r / 64)) (String (chr (128 + r mod 64)) "")
  else if ((55296 <=? r) && (r <=? 57343)) || (1114111 <? r) then
    String (chr 239) (String (chr 191) (String (chr 189) ""))
  else if r <=? 65535 then
    String (chr (224 + r / 4096)) (String (chr (128 + (r / 64) mod 64)) (String (chr (128 + r mod 64)) ""))
  else String (chr (240 + r / 262144)) (String (chr (128 + (r / 4096) mod 64))
         (String (chr (128 + (r / 64) mod 64)) (String (chr (128 + r mod 64)) ""))).

(** U+FFFD, written for every byte that does not start a valid sequence. *)
Definition RuneError : Z := 65533.

(** ** String literals ([stateInString] and [unquoteBytes]) *)

Definition quote_char : Ascii.ascii := chr 34.
Definition backslash : Ascii.ascii := chr 92.

(** The one-byte escapes the scanner accepts after a backslash. *)
Definition simple_escape (e : Ascii.ascii) : option Ascii.ascii :=
  if decide (e = quote_char) then Some quote_char
  else if decide (e = backslash) then Some backslash
  else if decide (e = "/"%char) then Some "/"%char
  else if decide (e = "b"%char) then Some (chr 8)
  else if decide (e = "f"%char) then Some (chr 12)
  else if decide (e = "n"%char) then Some (chr 10)
  else if decide (e = "r"%char) then Some (chr 13)
  else if decide (e = "t"%char) then Some (chr 9)
  else None.

Definition hex_value (c : Ascii.ascii) : option Z :=
  if byte_in c 48 57 then Some (byte c - 48)
  else if byte_in c 97 102 then Some (byte c - 87)
  else if byte_in c 65 70 then Some (byte c - 55)
  else None.

(** [getu4] on the four digits of a [\uXXXX] escape. *)
Definition hex4 (h1 h2 h3 h4 : Ascii.ascii) : option Z :=
  match hex_value h1, hex_value h2, hex_value h3, hex_value h4 with
  | Some a, Some b, Some c, Some d => Some (((a * 16 + b) * 16 + c) * 16 + d)
  | _, _, _, _ => None
  end.

Definition is_surrogate (r : Z) : bool := (55296 <=? r) && (r <? 57344).

(** [utf16.DecodeRune]: a high then a low surrogate, or [None]. *)
Definition decode_pair (r1 r2 : Z) : option Z :=
  if (55296 <=? r1) && (r1 <? 56320) && (56320 <=? r2) && (r2 <? 57344)
  then Some ((r1 - 55296) * 1024 + (r2 - 56320) + 65536) else None.

Definition prepend (p : string) (r : option (string * string)) : option (string * string) :=
  match r with Some (d, rest) => Some (p +:+ d, rest) | None => None end.

Definition replacement : string := encode_rune RuneError.

(** [getu4]: the value of a [\uXXXX] escape at the start of [s]. *)
Definition getu4 (s : string) : option Z :=
  match s with
  | String b (String u (String h1 (String h2 (String h3 (String h4 _))))) =>
      if decide (b = backslash /\ u = "u"%char) then hex4 h1 h2 h3 h4 else None
  | _ => None
  end.

Fixpoint drop_bytes (n : nat) (s : string) : string :=
  match n, s with
  | S n', String _ s' => drop_bytes n' s'
  | _, _ => s
  end.

(** [utf8.DecodeRune] on a first byte [c] at or above 0x80 and the
    bytes [tl] after it: the size of the valid sequence, or [None]
    where Go returns [(RuneError, 1)]. *)
Definition decode_rune_len (c : Ascii.ascii) (tl : string) : option nat :=
  match utf8_first (byte c), tl with
  | Some (sz, lo, hi), String b1 tl1 =>
      if byte_in b1 lo hi then
        if decide (sz = 2%nat) then Some 2%nat
        else match tl1 with
             | String b2 tl2 =>
                 if cont_byte b2 then
                   if decide (sz = 3%nat) then Some 3%nat
                   else match tl2 with
                        | String b3 _ => if cont_byte b3 then Some 4%nat else None
                        | EmptyString => None
                        end
                 else None
             | EmptyString => None
             end
      else None
  | _, _ => None
  end.

(** One iteration of the loops of [stateInString] and [unquoteBytes]
    at the start of [s]: the closing quote, a syntax error, or the
    bytes to write and the number of input bytes they consume. *)
Inductive str_step :=
  | StrEnd
  | StrBad
  | StrEmit (out : string) (width : nat).

Definition string_step (s : string) : str_step :=
  match s with
  | EmptyString => StrBad
  | String c tl =>
      if decide (c = quote_char) then StrEnd
      else if decide (c = backslash) then
        match tl with
        | EmptyString => StrBad
        | String e _ =>
            match simple_escape e with
            | Some b => StrEmit (String b EmptyString) 2
            | None =>
                if decide (e = "u"%char) then
                  match getu4 s with
                  | None => StrBad
                  | Some rr =>
                      if is_surrogate rr then
                        match getu4 (drop_bytes 6 s) with
                        | Some rr1 =>
                            match decode_pair rr rr1 with
                            | Some dec => StrEmit (encode_rune dec) 12
                            | None => StrEmit replacement 6
                            end
                        | None => StrEmit replacement 6
                        end
                      else StrEmit (encode_rune rr) 6
                  end
                else StrBad
            end
        end
      else if byte c <? 32 then StrBad
      else if byte c <? 128 then StrEmit (String c EmptyString) 1
      else
        match decode_rune_len c tl with
        | Some n => StrEmit (String.substring 0 n s) n
        | None => StrEmit replacement 1
        end
  end.

(** The string literal after its opening quote: the decoded string and
    the input after the closing quote, or [None] for a syntax error (a
    control byte, a bad escape, no closing quote).  [skip] counts the
    bytes of the current step still to be passed over. *)
Fixpoint scan_string_from (skip : nat) (s : string) : option (string * string) :=
  match s with
  | EmptyString => None
  | String c tl =>
      match skip with
      | S k => scan_string_from k tl
      | O =>
          match string_step s with
          | StrEnd => Some (EmptyString, tl)
          | StrBad => None
          | StrEmit out w => prepend out (scan_string_from (w - 1) tl)
          end
      end
  end.

Definition scan_string (s : string) : option (string * string) := scan_string_from 0 s.

(** ** Numbers and literals *)

Fixpoint scan_digits (s : string) : string * string :=
  match s with
  | String c tl =>
      if is_digit c then let '(ds, rest) := scan_digits tl in (String c ds, rest)
      else (EmptyString, s)
  | EmptyString => (EmptyString, EmptyString)
  end.

(** One or more digits. *)
Definition scan_digits1 (s : string) : option (string * string) :=
  match scan_digits s with
  | (EmptyString, _) => None
  | r => Some r
  end.

(** [-]? ([0] | [1-9][0-9]* ) ([.][0-9]+)? ([eE][+-]?[0-9]+)?: the
    states [stateNeg], [state0], [state1], [stateDot], [stateE] and
    their successors. *)
Definition scan_int_part (s : string) : option (string * string) :=
  match s with
  | String c tl =>
      if decide (c = "0"%char) then Some (String c EmptyString, tl)
      else if byte_in c 49 57 then let '(ds, rest) := scan_digits tl in Some (String c ds, rest)
      else None
  | EmptyString => None
  end.

Definition scan_frac (s : string) : option (string * string) :=
  match s with
  | String c tl =>
      if decide (c = "."%char) then
        match scan_digits1 tl with Some (ds, rest) => Some (String c ds, rest) | None => None end
      else Some (EmptyString, s)
  | EmptyString => Some (EmptyString, EmptyString)
  end.

Definition scan_exp (s : string) : option (string * string) :=
  match s with
  | String c tl =>
      if decide (c = "e"%char \/ c = "E"%char) then
        let '(sign, tl') := match tl with
                            | String d tl2 => if decide (d = "+"%char \/ d = "-"%char)
                                              then (String d EmptyString, tl2) else (EmptyString, tl)
                            | EmptyString => (EmptyString, tl)
                            end in
        match scan_digits1 tl' with Some (ds, rest) => Some (String c (sign +:+ ds), rest) | None => None end
      else Some (EmptyString, s)
  | EmptyString => Some (EmptyString, EmptyString)
  end.

Definition scan_number (s : string) : option (string * string) :=
  let '(sign, s1) := match s with
                     | String c tl => if decide (c = "-"%char) then (String c EmptyString, tl) else (EmptyString, s)
                     | EmptyString => (EmptyString, s)
                     end in
  match scan_int_part s1 with
  | None => None
  | Some (ip, s2) =>
      match scan_frac s2 with
      | None => None
      | Some (fp, s3) =>
          match scan_exp s3 with
          | None => None
          | Some (ep, s4) => Some (sign +:+ ip +:+ fp +:+ ep, s4)
          end
      end
  end.

(** The rest of a literal after its first byte ([stateT], [stateTr], ...). *)
Fixpoint expect (lit s : string) : option string :=
  match lit, s with
  | EmptyString, _ => Some s
  | String l lit', String c s' => if decide (l = c) then expect lit' s' else None
  | String _ _, EmptyString => None
  end.

(** ** Values ([stateBeginValue] and the parse-state stack) *)

Inductive scan_error := ErrSyntax | ErrFuel.

(** [maxNestingDepth]: [pushParseState] fails beyond this depth. *)
Definition maxNestingDepth : nat := Z.to_nat 10000.

(** [parse_value fuel depth s]: one value after optional white space,
    inside [depth] open arrays and objects; [parse_elems] continues an
    array after its [[] (or after a comma), [parse_members] an object
    after its [{] (or after a comma).  Every call spends one unit of
    fuel; [ErrFuel] is the model running out, never Go. *)
Fixpoint parse_value (fuel depth : nat) (s : string) {struct fuel}
  : result scan_error (json * string) :=
  match fuel with
  | O => Fatal ErrFuel
  | S fuel =>
      match skip_ws s with
      | EmptyString => Fatal ErrSyntax
      | String c rest =>
          if decide (c = "["%char) then
            if decide (S depth <= maxNestingDepth)%nat then
              match skip_ws rest with
              | String c' rest' =>
                  if decide (c' = "]"%char) then Ok (JArray [], rest')
                  else parse_elems fuel (S depth) rest []
              | EmptyString => parse_elems fuel (S depth) rest []
              end
            else Fatal ErrSyntax
          else if decide (c = "{"%char) then
            if decide (S depth <= maxNestingDepth)%nat then
              match skip_ws rest with
              | String c' rest' =>
                  if decide (c' = "}"%char) then Ok (JObject [], rest')
                  else parse_members fuel (S depth) rest []
              | EmptyString => parse_members fuel (S depth) rest []
              end
            else Fatal ErrSyntax
          else if decide (c = quote_char) then
            match scan_string rest with
            | Some (str, rest') => Ok (JString str, rest')
            | None => Fatal ErrSyntax
            end
          else if decide (c = "t"%char) then
            match expect "rue" rest with Some rest' => Ok (JBool true, rest') | None => Fatal ErrSyntax end
          else if decide (c = "f"%char) then
            match expect "alse" rest with Some rest' => Ok (JBool false, rest') | None => Fatal ErrSyntax end
          else if decide (c = "n"%char) then
            match expect "ull" rest with Some rest' => Ok (JNull, rest') | None => Fatal ErrSyntax end
          else
            match scan_number (String c rest) with
            | Some (lit, rest') => Ok (JNumber lit, rest')
            | None => Fatal ErrSyntax
            end
      end
  end
with parse_elems (fuel depth : nat) (s : string) (acc : list json) {struct fuel}
  : result scan_error (json * string) :=
  match fuel with
  | O => Fatal ErrFuel
  | S fuel =>
      match parse_value fuel depth s with
      | Fatal e => Fatal e
      | Ok (v, rest) =>
          match skip_ws rest with
          | String c rest' =>
              if decide (c = ","%char) then parse_elems fuel depth rest' (v :: acc)
              else if decide (c = "]"%char) then Ok (JArray (rev (v :: acc)), rest')
              else Fatal ErrSyntax
          | EmptyString => Fatal ErrSyntax
          end
      end
  end
with parse_members (fuel depth : nat) (s : string) (acc : list (string * json)) {struct fuel}
  : result scan_error (json * string) :=
  match fuel with
  | O => Fatal ErrFuel
  | S fuel =>
      match skip_ws s with
      | String c rest =>
          if decide (c = quote_char) then
            match scan_string rest with
            | None => Fatal ErrSyntax
            | Some (key, rest1) =>
                match skip_ws rest1 with
                | String colon rest2 =>
                    if decide (colon = ":"%char) then
                      match parse_value fuel depth rest2 with
                      | Fatal e => Fatal e
                      | Ok (v, rest3) =>
                          match skip_ws rest3 with
                          | String c4 rest4 =>
                              if decide (c4 = ","%char) then parse_members fuel depth rest4 ((key, v) :: acc)
                              else if decide (c4 = "}"%char) then Ok (JObject (rev ((key, v) :: acc)), rest4)
                              else Fatal ErrSyntax
                          | EmptyString => Fatal ErrSyntax
                          end
                      end
                    else Fatal ErrSyntax
                | EmptyString => Fatal ErrSyntax
                end
            end
          else Fatal ErrSyntax
      | EmptyString => Fatal ErrSyntax
      end
  end.

(** [checkValid] and [d.value]: exactly one value, then only white
    space. *)
Definition decode_json (data : string) : result scan_error json :=
  match parse_value (S (2 * String.length data)) 0 data with
  | Ok (v, rest) => if all_ws rest then Ok v else Fatal ErrSyntax
  | Fatal e => Fatal e
  end.

(** ** [json.Unmarshal] into the drivers' targets *)

(** A [string] slot: [literalStore] sets it from a string literal; any
    other value is a type error that leaves the slot's zero value. *)
Definition unmarshal_string (v : json) : string :=
  match v with JString str => str | _ => EmptyString end.

(** A fresh [[]string]: an array fills it element by element, [null]
    sets it to nil, anything else is a type error that leaves it
    empty. *)
Definition unmarshal_string_slice (v : json) : list string :=
  match v with JArray elems => map unmarshal_string elems | _ => [] end.

(** [rawFeatures := []string{}; json.Unmarshal(inputBytes, &rawFeatures)]. *)
Definition Unmarshal_strings (data : string) : list string :=
  match decode_json data with
  | Ok v => unmarshal_string_slice v
  | Fatal _ => []
  end.

(** [object] on a [map[string][]string]: each member is decoded into a
    zeroed element and stored under its key, a later duplicate key
    replacing an earlier one. *)
Definition unmarshal_members (members : list (string * json)) : gmap string (list string) :=
  foldl (fun m '(key, v) => <[key := unmarshal_string_slice v]> m) ∅ members.

(** [target := make(map[string][]string); json.Unmarshal(dataBytes, target)]:
    an object fills the map, [null] sets it to nil, anything else
    leaves it empty. *)
Definition Unmarshal_map (data : string) : gmap string (list string) :=
  match decode_json data with
  | Ok (JObject members) => unmarshal_members members
  | _ => ∅
  end.

(** ** [json.Marshal] of an [[]int] *)

Fixpoint join_ints (zs : list Z) : string :=
  match zs with
  | [] => EmptyString
  | [z] => FormatInt z
  | z :: zs' => FormatInt z +:+ String "," (join_ints zs')
  end.

Definition Marshal_ints (zs : list Z) : string := "[" +:+ join_ints zs +:+ "]".

(** ** Every scanner consumes input *)

Lemma skip_ws_length s : (String.length (skip_ws s) <= String.length s)%nat.
Proof. induction s as [|c s IH]; simpl; [lia|]. case_match; simpl; lia. Qed.

Lemma skip_ws_nonws c t : is_ws c = false -> skip_ws (String c t) = String c t.
Proof. intros H. simpl. by rewrite H. Qed.

Lemma skip_ws_cons s c rest : skip_ws s = String c rest -> (String.length rest < String.length s)%nat.
Proof. intros H. pose proof (skip_ws_length s) as Hl. rewrite H in Hl. simpl in Hl. lia. Qed.

Lemma prepend_length p r d rest :
  prepend p r = Some (d, rest) -> exists d', r = Some (d', rest).
Proof. destruct r as [[]|]; simpl; [intros [= _ <-]; by eexists | discriminate]. Qed.

Lemma scan_string_from_length k s d rest :
  scan_string_from k s = Some (d, rest) -> (String.length rest < String.length s)%nat.
Proof.
  revert k d rest. induction s as [|c s IH]; intros k d rest H; [discriminate|].
  cbn [scan_string_from] in H. destruct k as [|k].
  - destruct (string_step _) as [| |out w]; simplify_eq; simpl; [lia|].
    apply prepend_length in H as [? H]. apply IH in H. lia.
  - apply IH in H. simpl. lia.
Qed.

Lemma scan_string_length s d rest : scan_string s = Some (d, rest) -> (String.length rest < String.length s)%nat.
Proof. apply scan_string_from_length. Qed.

Lemma scan_digits_length s : (String.length (scan_digits s).2 <= String.length s)%nat.
Proof. induction s as [|c s IH]; simpl; [lia|]. repeat case_match; simpl in *; simplify_eq; simpl; lia. Qed.

Lemma scan_number_length s lit rest : scan_number s = Some (lit, rest) -> (String.length rest < String.length s)%nat.
Proof.
  unfold scan_number, scan_int_part, scan_frac, scan_exp, scan_digits1.
  intros H. repeat (case_match; simplify_eq; cbn [String.length fst snd] in *; try lia);
    repeat match goal with
    | H : scan_digits ?t = (_, _) |- _ =>
        let Hl := fresh in pose proof (scan_digits_length t) as Hl; rewrite H in Hl; simpl in Hl; clear H
    end; cbn [String.length] in *; lia.
Qed.

Lemma expect_length lit s rest : expect lit s = Some rest -> (String.length rest + String.length lit = String.length s)%nat.
Proof.
  revert s. induction lit as [|l lit IH]; intros [|c s] H; simpl in H; simplify_eq; simpl; try lia.
  case_decide; [apply IH in H; lia | discriminate].
Qed.

(** A value consumes at least one byte. *)
Lemma parse_consumes fuel :
  (forall d s v rest, parse_value fuel d s = Ok (v, rest) -> (String.length rest < String.length s)%nat) /\
  (forall d s acc v rest, parse_elems fuel d s acc = Ok (v, rest) -> (String.length rest < String.length s)%nat) /\
  (forall d s acc v rest, parse_members fuel d s acc = Ok (v, rest) -> (String.length rest < String.length s)%nat).
Proof.
  induction fuel as [|fuel (IHv & IHe & IHm)]; [split_and!; discriminate|].
  split_and!.
  - intros d s v rest H. simpl in H.
    destruct (skip_ws s) as [|c r] eqn:Hs; [discriminate|]. apply skip_ws_cons in Hs.
    repeat (case_match; simplify_eq; try lia);
      repeat match goal with
      | H : skip_ws ?t = String _ ?u |- _ => apply skip_ws_cons in H
      | H : scan_string _ = Some _ |- _ => apply scan_string_length in H
      | H : scan_number _ = Some _ |- _ => apply scan_number_length in H
      | H : expect _ _ = Some _ |- _ => apply expect_length in H
      | H : parse_elems _ _ _ _ = Ok _ |- _ => apply IHe in H
      | H : parse_members _ _ _ _ = Ok _ |- _ => apply IHm in H
      end; simpl in *; lia.
  - intros d s acc v rest H. simpl in H.
    destruct (parse_value fuel d s) as [[v' r]|] eqn:Hv; [|discriminate]. apply IHv in Hv.
    repeat (case_match; simplify_eq; try lia);
      repeat match goal with
      | H : skip_ws ?t = String _ ?u |- _ => apply skip_ws_cons in H
      | H : parse_elems _ _ _ _ = Ok _ |- _ => apply IHe in H
      end; simpl in *; lia.
  - intros d s acc v rest H. simpl in H.
    repeat (case_match; simplify_eq; try lia);
      repeat match goal with
      | H : skip_ws ?t = String _ ?u |- _ => apply skip_ws_cons in H
      | H : scan_string _ = Some _ |- _ => apply scan_string_length in H
      | H : parse_value _ _ _ = Ok _ |- _ => apply IHv in H
      | H : parse_members _ _ _ _ = Ok _ |- _ => apply IHm in H
      end; simpl in *; lia.
Qed.

(** Twice the input's length is enough fuel: a value spends one unit
    and then at least one byte before the next call, an array element
    or an object member at least two bytes. *)
Lemma parse_enough_fuel fuel :
  (forall d s, (2 * String.length s < fuel)%nat -> parse_value fuel d s <> Fatal ErrFuel) /\
  (forall d s acc, (2 * String.length s + 1 < fuel)%nat -> parse_elems fuel d s acc <> Fatal ErrFuel) /\
  (forall d s acc, (2 * String.length s + 1 < fuel)%nat -> parse_members fuel d s acc <> Fatal ErrFuel).
Proof.
  induction fuel as [|fuel (IHv & IHe & IHm)]; [split_and!; intros; lia|].
  destruct (parse_consumes fuel) as (Cv & _ & _).
  split_and!.
  - intros d s Hf. simpl.
    destruct (skip_ws s) as [|c r] eqn:Hs; [discriminate|]. apply skip_ws_cons in Hs.
    repeat (case_match; simplify_eq; try discriminate);
      first [apply IHe | apply IHm]; lia.
  - intros d s acc Hf. simpl.
    destruct (parse_value fuel d s) as [[v r]|e] eqn:Hv.
    + apply Cv in Hv. repeat (case_match; simplify_eq; try discriminate).
      apply IHe. apply skip_ws_cons in H. simpl in *. lia.
    + intros [= ->]. by apply (IHv d s); [lia|].
  - intros d s acc Hf. simpl.
    repeat (case_match; simplify_eq; try discriminate);
      repeat match goal with
      | H : skip_ws ?t = String _ ?u |- _ => apply skip_ws_cons in H
      | H : scan_string _ = Some _ |- _ => apply scan_string_length in H
      | H : parse_value _ _ _ = Ok _ |- _ => apply Cv in H
      end; simpl in *;
      first [ apply IHm; lia
            | intros [= ->]; match goal with H : parse_value _ _ _ = Fatal ErrFuel |- _ =>
                           revert H; apply IHv; lia end ].
Qed.

(** Termination: the decoder never runs out of fuel, so
    [decode_json] is [json.Unmarshal]'s syntax check and decoding on
    every input, whatever its length or nesting. *)
Lemma decode_json_total data : decode_json data <> Fatal ErrFuel.
Proof.
  unfold decode_json. destruct (parse_enough_fuel (S (2 * String.length data))) as (Hv & _ & _).
  specialize (Hv 0%nat data ltac:(lia)).
  revert Hv. destruct (parse_value _ _ _) as [[v rest]|e]; intros Hv; [case_match; discriminate | intros [= ->]; by apply Hv].
Qed.

(** ** The printed [[]int] decodes back *)

Lemma scan_digits_app ds rest :
  all_digits ds = true -> scan_digits rest = (EmptyString, rest) -> scan_digits (ds +:+ rest) = (ds, rest).
Proof.
  intros Hds Hr. induction ds as [|c ds IH]; [done|].
  simpl in Hds. apply andb_true_iff in Hds as [Hc Hds].
  rewrite app_String. simpl. rewrite Hc, IH by done. done.
Qed.

(** A byte that ends a number and an array element. *)
Definition number_end (rest : string) : Prop :=
  exists c tl, rest = String c tl /\ (c = ","%char \/ c = "]"%char).

Lemma number_end_scans rest :
  number_end rest ->
  scan_digits rest = (EmptyString, rest) /\ scan_frac rest = Some (EmptyString, rest) /\
  scan_exp rest = Some (EmptyString, rest).
Proof. intros (c & tl & -> & [-> | ->]); split_and!; reflexivity. Qed.

Lemma scan_int_part_digits d ds rest :
  0 <= d <= 9 -> all_digits ds = true -> (d = 0 -> ds = EmptyString) -> number_end rest ->
  scan_int_part (String (digit_char d) ds +:+ rest) = Some (String (digit_char d) ds, rest).
Proof.
  intros Hd Hds H0 Hend. destruct (number_end_scans rest Hend) as (Hsd & _ & _).
  rewrite app_String. unfold scan_int_part.
  destruct (decide (digit_char d = "0"%char)) as [E|E].
  - assert (d = 0) as ->.
    { apply (f_equal byte) in E. rewrite byte_digit_char in E by lia.
      assert (byte "0"%char = 48) by reflexivity. lia. }
    by rewrite H0.
  - assert (d <> 0) by (intros ->; by apply E).
    unfold byte_in. rewrite byte_digit_char, (proj2 (Z.leb_le _ _)), (proj2 (Z.leb_le _ _)) by lia.
    by rewrite scan_digits_app.
Qed.

(** [scan_number] reads exactly the digits [FormatInt] prints. *)
Lemma scan_number_FormatInt z rest :
  GoInt.min_int <= z <= GoInt.max_int -> number_end rest ->
  scan_number (FormatInt z +:+ rest) = Some (FormatInt z, rest).
Proof.
  intros Hz Hend. destruct (number_end_scans rest Hend) as (_ & Hf & He).
  destruct (FormatInt_shape z Hz) as (neg & d & ds & -> & Hd & Hds & H0).
  pose proof (scan_int_part_digits d ds rest Hd Hds H0 Hend) as Hi.
  unfold scan_number. rewrite <- string_app_assoc. destruct neg.
  - rewrite !app_String, app_EmptyString, decide_True by done.
    rewrite <- app_String, Hi, Hf, He. by autorewrite with gofeat.
  - rewrite !app_EmptyString, app_String.
    rewrite decide_False by apply (digit_char_not_sign d Hd).
    rewrite <- app_String, Hi, Hf, He. by autorewrite with gofeat.
Qed.

Lemma maxNestingDepth_pos : (1 <= maxNestingDepth)%nat.
Proof. unfold maxNestingDepth. lia. Qed.

(** The first byte of a number is no other value's first byte. *)
Lemma number_start c :
  c = "-"%char \/ is_digit c = true ->
  is_ws c = false /\ c <> "["%char /\ c <> "{"%char /\ c <> quote_char /\
  c <> "t"%char /\ c <> "f"%char /\ c <> "n"%char.
Proof.
  intros [-> | Hc]; [split_and!; try reflexivity; discriminate|].
  unfold is_digit, byte_in in Hc. apply andb_true_iff in Hc as [H1 H2].
  apply Z.leb_le in H1, H2. unfold is_ws.
  split_and!;
    [repeat (apply orb_false_iff; split); apply Z.eqb_neq; lia
    | intros ->; vm_compute in H1, H2; congruence ..].
Qed.

Lemma parse_value_number fuel d c tl lit rest :
  c = "-"%char \/ is_digit c = true -> scan_number (String c tl) = Some (lit, rest) ->
  parse_value (S fuel) d (String c tl) = Ok (JNumber lit, rest).
Proof.
  intros Hc Hs. destruct (number_start c Hc) as (Hws & H1 & H2 & H3 & H4 & H5 & H6).
  cbn [parse_value skip_ws]. rewrite Hws.
  rewrite !decide_False by done. by rewrite Hs.
Qed.

(** The first byte [FormatInt] prints. *)
Lemma FormatInt_first z rest :
  GoInt.min_int <= z <= GoInt.max_int ->
  exists c tl, FormatInt z +:+ rest = String c tl /\ (c = "-"%char \/ is_digit c = true).
Proof.
  intros Hz. destruct (FormatInt_shape z Hz) as (neg & d & ds & -> & Hd & _).
  rewrite <- string_app_assoc. destruct neg; rewrite ?app_EmptyString, app_String.
  - do 2 eexists. split; [reflexivity | by left].
  - do 2 eexists. split; [reflexivity | right]. by apply is_digit_char.
Qed.

Lemma parse_value_FormatInt fuel d z rest :
  GoInt.min_int <= z <= GoInt.max_int -> number_end rest ->
  parse_value (S fuel) d (FormatInt z +:+ rest) = Ok (JNumber (FormatInt z), rest).
Proof.
  intros Hz Hend. pose proof (scan_number_FormatInt z rest Hz Hend) as Hs.
  destruct (FormatInt_first z rest Hz) as (c & tl & Heq & Hc). rewrite Heq in Hs |- *.
  by apply parse_value_number.
Qed.

Lemma join_ints_cons z zs :
  zs <> [] -> join_ints (z :: zs) = FormatInt z +:+ String "," (join_ints zs).
Proof. by destruct zs. Qed.

Lemma parse_elems_S fuel d s acc :
  parse_elems (S fuel) d s acc =
  match parse_value fuel d s with
  | Fatal e => Fatal e
  | Ok (v, rest) =>
      match skip_ws rest with
      | String c rest' =>
          if decide (c = ","%char) then parse_elems fuel d rest' (v :: acc)
          else if decide (c = "]"%char) then Ok (JArray (rev (v :: acc)), rest')
          else Fatal ErrSyntax
      | EmptyString => Fatal ErrSyntax
      end
  end.
Proof. reflexivity. Qed.

(** The elements of a printed array, read back one by one. *)
Lemma parse_elems_ints fuel d zs acc rest :
  zs <> [] -> Forall (fun z => GoInt.min_int <= z <= GoInt.max_int) zs -> (length zs < fuel)%nat ->
  parse_elems (S fuel) d (join_ints zs +:+ String "]" rest) acc =
  Ok (JArray (rev acc ++ map (fun z => JNumber (FormatInt z)) zs), rest).
Proof.
  revert fuel acc. induction zs as [|z zs IH]; intros fuel acc Hne Hr Hf; [done|].
  apply Forall_cons in Hr as [Hz Hr]. destruct fuel as [|fuel]; [simpl in Hf; lia|].
  destruct (decide (zs = [])) as [->|Hzs].
  - rewrite parse_elems_S. cbn [join_ints]. rewrite parse_value_FormatInt by (done || by do 2 eexists; split; [|right]).
    rewrite skip_ws_nonws by reflexivity.
    rewrite decide_False, decide_True by done. done.
  - rewrite join_ints_cons by done. rewrite parse_elems_S.
    rewrite <- string_app_assoc, app_String, parse_value_FormatInt
      by (done || by do 2 eexists; split; [|left]).
    rewrite skip_ws_nonws, decide_True by (reflexivity || done).
    rewrite (IH fuel); [| done | done | simpl in Hf; lia].
    cbn [rev map]. by rewrite <- app_assoc.
Qed.

Lemma FormatInt_nonempty z : GoInt.min_int <= z <= GoInt.max_int -> (1 <= String.length (FormatInt z))%nat.
Proof.
  intros Hz. destruct (FormatInt_first z EmptyString Hz) as (c & tl & Heq & _).
  rewrite string_app_nil_r in Heq. rewrite Heq. simpl. lia.
Qed.

Lemma join_ints_length zs :
  Forall (fun z => GoInt.min_int <= z <= GoInt.max_int) zs -> (length zs <= String.length (join_ints zs))%nat.
Proof.
  induction zs as [|z zs IH]; intros Hr; [simpl; lia|].
  apply Forall_cons in Hr as [Hz Hr]. pose proof (FormatInt_nonempty z Hz).
  destruct (decide (zs = [])) as [->|Hzs]; [simpl; lia|].
  rewrite join_ints_cons, string_length_app by done. simpl. specialize (IH Hr). lia.
Qed.


Lemma parse_value_array fuel d rest :
  parse_value (S fuel) d (String "[" rest) =
  if decide (S d <= maxNestingDepth)%nat then
    match skip_ws rest with
    | String c' rest' => if decide (c' = "]"%char) then Ok (JArray [], rest')
                         else parse_elems fuel (S d) rest []
    | EmptyString => parse_elems fuel (S d) rest []
    end
  else Fatal ErrSyntax.
Proof. reflexivity. Qed.

Lemma join_ints_head z zs t : exists u, join_ints (z :: zs) +:+ t = FormatInt z +:+ u.
Proof.
  destruct zs as [|z' zs]; [by exists t|].
  rewrite join_ints_cons by done. rewrite <- string_app_assoc. by eexists.
Qed.

(** Round trip of the output: the line a driver prints,
    [json.Marshal] of its [[]int], is valid JSON that decodes to the
    array of exactly the printed integers' decimal literals, in order. *)
Lemma Marshal_ints_roundtrip zs :
  Forall (fun z => GoInt.min_int <= z <= GoInt.max_int) zs ->
  decode_json (Marshal_ints zs) = Ok (JArray (map (fun z => JNumber (FormatInt z)) zs)).
Proof.
  intros Hr. destruct zs as [|z zs']; [reflexivity|].
  pose proof (join_ints_length _ Hr) as Hl.
  pose proof (Forall_inv Hr) as Hz.
  unfold decode_json, Marshal_ints. rewrite app_String, app_EmptyString.
  cbn [String.length]. rewrite string_length_app. cbn [String.length].
  replace (S (2 * (S (String.length (join_ints (z :: zs')) + 1))))
    with (S (S (S (2 * String.length (join_ints (z :: zs')) + 2)))) by lia.
  rewrite parse_value_array, decide_True by (pose proof maxNestingDepth_pos; lia).
  destruct (join_ints_head z zs' "]") as [u Hu].
  destruct (FormatInt_first z u Hz) as (c & tl & Heq & Hc).
  destruct (number_start c Hc) as (Hws & _).
  rewrite Hu, Heq, skip_ws_nonws by done.
  rewrite decide_False by (intros ->; destruct Hc as [Hc|Hc]; [discriminate | vm_compute in Hc; discriminate]).
  rewrite <- Heq, <- Hu, parse_elems_ints by (done || simpl in *; lia).
  reflexivity.
Qed.

Example Marshal_ints_example :
  decode_json (Marshal_ints [3; -20; 0]) = Ok (JArray [JNumber "3"; JNumber "-20"; JNumber "0"]).
Proof.
  apply (Marshal_ints_roundtrip [3; -20; 0]).
  repeat constructor; unfold GoInt.min_int, GoInt.max_int; lia.
Qed.
End GoJson.
