(* ===== verification/JsonUtf8.v ===== *)
(** * The strings [json.Unmarshal] produces are valid UTF-8

    [unquoteBytes] copies a valid UTF-8 sequence and writes U+FFFD for
    any other byte at or above 0x80, and [utf8.EncodeRune] writes a
    valid sequence for every rune, so every string the decoder returns
    is valid UTF-8 ([utf8.Valid]), whatever bytes its input holds: the
    tags of a query line, and the keys and segments of the caches that
    the drivers compare with [==].  This file states validity
    ([valid_utf8], by [utf8.DecodeRune] on each rune) and proves it of
    [scan_string], of the decoder's tree, and of the two [Unmarshal]
    targets, and that [strings.Trim] with an ASCII cutset keeps a
    string valid. *)

From S2P Require Import Prelude GoStrings GoStrconv GoJson.

Module JsonUtf8.
Import GoStrings GoStrconv GoJson.
Local Open Scope string_scope.
Local Open Scope Z_scope.

(** [utf8.Valid]: each rune decodes to a sequence longer than one byte
    or is ASCII; [k] counts the continuation bytes of the current rune
    that [decode_rune_len] has already checked. *)
Fixpoint valid_from (k : nat) (s : string) : bool :=
  match s with
  | EmptyString => Nat.eqb k 0
  | String c tl =>
      match k with
      | S k' => valid_from k' tl
      | O =>
          if byte c <? 128 then valid_from 0 tl
          else match decode_rune_len c tl with
               | Some n => valid_from (n - 1) tl
               | None => false
               end
      end
  end.

Definition valid_utf8 (s : string) : bool := valid_from 0 s.

(** Every string of a JSON tree: string values and object keys. *)
Fixpoint json_valid (v : json) : bool :=
  match v with
  | JString s => valid_utf8 s
  | JArray elems => forallb json_valid elems
  | JObject members => forallb (fun kv => valid_utf8 kv.1 && json_valid kv.2) members
  | _ => true
  end.

(** ** [decode_rune_len] looks at most at the bytes of the rune *)

Ltac solve_lookahead :=
  repeat first [ progress cbn beta iota
               | match goal with H : _ = true |- _ => rewrite H end
               | rewrite decide_False by done ];
  done.

(** The bytes after the first byte of a multi-byte rune are all at or
    above 0x80. *)
Fixpoint high_bytes (s : string) : bool :=
  match s with
  | EmptyString => true
  | String b s' => (128 <=? byte b) && high_bytes s'
  end.

Lemma utf8_first_lo p sz lo hi : utf8_first p = Some (sz, lo, hi) -> 128 <= lo.
Proof. unfold utf8_first. repeat case_match; intros [= <- <- <-]; lia. Qed.

Lemma byte_in_high b lo hi : 128 <= lo -> byte_in b lo hi = true -> (128 <=? byte b) = true.
Proof. unfold byte_in. rewrite andb_true_iff, !Z.leb_le. lia. Qed.

Lemma decode_rune_len_prefix c tl n :
  decode_rune_len c tl = Some n ->
  exists pre rest, tl = pre +:+ rest /\ String.length pre = (n - 1)%nat /\ (2 <= n)%nat /\
    (forall rest', decode_rune_len c (pre +:+ rest') = Some n) /\ high_bytes pre = true.
Proof.
  unfold decode_rune_len.
  destruct (utf8_first (byte c)) as [[[sz lo] hi]|] eqn:Hf; [|discriminate].
  pose proof (utf8_first_lo _ _ _ _ Hf) as Hlo.
  destruct tl as [|b1 tl1]; [discriminate|].
  destruct (byte_in b1 lo hi) eqn:H1; [|discriminate].
  pose proof (byte_in_high _ _ _ Hlo H1) as Hb1.
  destruct (decide (sz = 2%nat)) as [->|Hsz2].
  - intros [= <-]. exists (String b1 EmptyString), tl1. split_and!; [done | done | lia | |].
    + intros rest'. rewrite ?app_String, ?app_EmptyString. solve_lookahead.
    + simpl. by rewrite Hb1.
  - destruct tl1 as [|b2 tl2]; [discriminate|].
    destruct (cont_byte b2) eqn:H2; [|discriminate].
    pose proof (byte_in_high b2 128 191 ltac:(lia) H2) as Hb2.
    destruct (decide (sz = 3%nat)) as [->|Hsz3].
    + intros [= <-]. exists (String b1 (String b2 EmptyString)), tl2. split_and!; [done | done | lia | |].
      * intros rest'. rewrite ?app_String, ?app_EmptyString. solve_lookahead.
      * simpl. by rewrite Hb1, Hb2.
    + destruct tl2 as [|b3 tl3]; [discriminate|].
      destruct (cont_byte b3) eqn:H3; [|discriminate].
      pose proof (byte_in_high b3 128 191 ltac:(lia) H3) as Hb3.
      intros [= <-]. exists (String b1 (String b2 (String b3 EmptyString))), tl3.
      split_and!; [done | done | lia | |].
      * intros rest'. rewrite ?app_String, ?app_EmptyString. solve_lookahead.
      * simpl. by rewrite Hb1, Hb2, Hb3.
Qed.

Lemma valid_from_length k s : String.length s = k -> valid_from k s = true.
Proof.
  revert k. induction s as [|c s IH]; intros k Hk; simpl in Hk; subst; [done|].
  simpl. by apply IH.
Qed.

(** Validity of a concatenation, when the first part ends on a rune
    boundary. *)
Lemma valid_from_app k a b : valid_from k a = true -> valid_from k (a +:+ b) = valid_from 0 b.
Proof.
  revert k. induction a as [|c a IH]; intros k Ha.
  - simpl in Ha. apply Nat.eqb_eq in Ha. by subst.
  - rewrite app_String. destruct k as [|k]; simpl in Ha |- *; [|by apply IH].
    destruct (byte c <? 128); [by apply IH|].
    destruct (decode_rune_len c a) as [n|] eqn:Hd; [|discriminate].
    destruct (decode_rune_len_prefix c a n Hd) as (pre & rest & -> & _ & _ & Hpre & _).
    rewrite <- string_app_assoc, Hpre. rewrite string_app_assoc. by apply IH.
Qed.

Lemma valid_utf8_app a b : valid_utf8 a = true -> valid_utf8 b = true -> valid_utf8 (a +:+ b) = true.
Proof. intros Ha Hb. unfold valid_utf8. by rewrite valid_from_app. Qed.

(** ** [utf8.EncodeRune] writes valid UTF-8 *)

Lemma byte_chr n : 0 <= n < 256 -> byte (chr n) = n.
Proof.
  intros Hn. unfold byte, chr. rewrite Ascii.N_ascii_embedding by lia. lia.
Qed.

Lemma byte_chr_ascii n : n <= 127 -> byte (chr n) < 128.
Proof.
  intros Hn. destruct (Z.lt_ge_cases n 0) as [Hneg|Hpos].
  - destruct n; try lia. reflexivity.
  - rewrite byte_chr by lia. lia.
Qed.

Lemma byte_in_chr n lo hi : 0 <= n < 256 -> lo <= n <= hi -> byte_in (chr n) lo hi = true.
Proof. intros Hn Hr. unfold byte_in. rewrite byte_chr by done. apply andb_true_iff; split; apply Z.leb_le; lia. Qed.

(** The rows of [first] and [acceptRanges] the encoder produces. *)
Lemma utf8_first_cases p0 :
  (194 <= p0 <= 223 -> utf8_first p0 = Some (2%nat, 128, 191)) /\
  (p0 = 224 -> utf8_first p0 = Some (3%nat, 160, 191)) /\
  ((225 <= p0 <= 236 \/ 238 <= p0 <= 239) -> utf8_first p0 = Some (3%nat, 128, 191)) /\
  (p0 = 237 -> utf8_first p0 = Some (3%nat, 128, 159)) /\
  (p0 = 240 -> utf8_first p0 = Some (4%nat, 144, 191)) /\
  (241 <= p0 <= 243 -> utf8_first p0 = Some (4%nat, 128, 191)) /\
  (p0 = 244 -> utf8_first p0 = Some (4%nat, 128, 143)).
Proof.
  unfold utf8_first. split_and!; intros Hp;
    repeat (case_match; rewrite ?andb_true_iff, ?andb_false_iff, ?Z.leb_le, ?Z.leb_gt, ?Z.eqb_eq, ?Z.eqb_neq in *);
    try done; lia.
Qed.

Lemma valid_multibyte c tl n :
  128 <= byte c -> decode_rune_len c tl = Some n -> String.length tl = (n - 1)%nat ->
  valid_utf8 (String c tl) = true.
Proof.
  intros Hc Hd Hl. unfold valid_utf8. simpl. rewrite (proj2 (Z.ltb_ge _ _)) by lia.
  rewrite Hd. by apply valid_from_length.
Qed.

(** [lia] with the divisions and remainders by constants of the encoder. *)
Ltac dlia := Z.div_mod_to_equations; lia.

Ltac decode_bytes :=
  unfold decode_rune_len;
  repeat first [ rewrite byte_chr by dlia
               | rewrite byte_in_chr by dlia
               | progress cbn beta iota
               | rewrite decide_True by done
               | rewrite decide_False by done
               | unfold cont_byte; rewrite byte_in_chr by dlia ].

Lemma encode_rune_valid r : valid_utf8 (encode_rune r) = true.
Proof.
  unfold encode_rune.
  destruct (r <=? 127) eqn:E1; [apply Z.leb_le in E1 | apply Z.leb_gt in E1].
  { unfold valid_utf8. simpl. pose proof (byte_chr_ascii r E1). by rewrite (proj2 (Z.ltb_lt _ _)). }
  destruct (r <=? 2047) eqn:E2; [apply Z.leb_le in E2 | apply Z.leb_gt in E2].
  { apply (valid_multibyte _ _ 2); [rewrite byte_chr by dlia; dlia | | done].
    decode_bytes. rewrite (proj1 (utf8_first_cases _)) by dlia. decode_bytes. done. }
  destruct (_ || _) eqn:E3.
  { apply (valid_multibyte _ _ 3); [rewrite byte_chr by dlia; dlia | | done].
    decode_bytes. rewrite (proj1 (proj2 (proj2 (utf8_first_cases _)))) by dlia. decode_bytes. done. }
  apply orb_false_iff in E3 as [E3 E4]. apply Z.ltb_ge in E4.
  destruct (r <=? 65535) eqn:E5; [apply Z.leb_le in E5 | apply Z.leb_gt in E5].
  - apply (valid_multibyte _ _ 3); [rewrite byte_chr by dlia; dlia | | done].
    rewrite andb_false_iff, !Z.leb_gt in E3.
    destruct (Z.lt_ge_cases r 4096) as [Hs|Hs].
    + decode_bytes. rewrite (proj1 (proj2 (utf8_first_cases _))) by dlia. decode_bytes. done.
    + destruct (decide (224 + r / 4096 = 237)) as [E|E].
      * decode_bytes. rewrite (proj1 (proj2 (proj2 (proj2 (utf8_first_cases _))))) by done.
        decode_bytes. done.
      * decode_bytes. rewrite (proj1 (proj2 (proj2 (utf8_first_cases _)))) by dlia. decode_bytes. done.
  - apply (valid_multibyte _ _ 4); [rewrite byte_chr by dlia; dlia | | done].
    destruct (Z.lt_ge_cases r 262144) as [Hs|Hs]; [|destruct (decide (r / 262144 = 4)) as [E|E]].
    + decode_bytes. rewrite (proj1 (proj2 (proj2 (proj2 (proj2 (utf8_first_cases _)))))) by dlia.
      decode_bytes. done.
    + decode_bytes. rewrite (proj2 (proj2 (proj2 (proj2 (proj2 (proj2 (utf8_first_cases _))))))) by dlia.
      decode_bytes. done.
    + decode_bytes. rewrite (proj1 (proj2 (proj2 (proj2 (proj2 (proj2 (utf8_first_cases _))))))) by dlia.
      decode_bytes. done.
Qed.

(** ** Every string the scanner writes is valid *)

Lemma simple_escape_ascii e b : simple_escape e = Some b -> byte b < 128.
Proof. unfold simple_escape. repeat case_decide; intros [= <-]; reflexivity. Qed.

Lemma ascii_valid c : byte c < 128 -> valid_utf8 (String c EmptyString) = true.
Proof. intros Hc. unfold valid_utf8. simpl. by rewrite (proj2 (Z.ltb_lt _ _)). Qed.

Lemma substring_prefix pre rest : String.substring 0 (String.length pre) (pre +:+ rest) = pre.
Proof. induction pre as [|c pre IH]; [by destruct rest|]. simpl. by rewrite IH. Qed.

(** The bytes [unquoteBytes] copies for a valid multi-byte rune. *)
Lemma copied_rune_valid c tl n :
  128 <= byte c -> decode_rune_len c tl = Some n ->
  valid_utf8 (String.substring 0 n (String c tl)) = true.
Proof.
  intros Hc Hd. destruct (decode_rune_len_prefix c tl n Hd) as (pre & rest & -> & Hl & Hn & Hpre & _).
  replace n with (S (String.length pre)) by lia. simpl. rewrite substring_prefix.
  apply (valid_multibyte _ _ n); [done | | lia].
  rewrite <- (string_app_nil_r pre). by rewrite Hpre.
Qed.

Lemma string_step_valid s out w : string_step s = StrEmit out w -> valid_utf8 out = true.
Proof.
  destruct s as [|c tl]; [discriminate|]. unfold string_step, replacement.
  case_decide; [discriminate|]. case_decide.
  - destruct tl as [|e tl']; [discriminate|].
    destruct (simple_escape e) as [b|] eqn:He; [intros [= <- _]; eauto using ascii_valid, simple_escape_ascii|].
    case_decide; [|discriminate].
    repeat (case_match; try discriminate); intros [= <- _]; apply encode_rune_valid.
  - destruct (byte c <? 32); [discriminate|].
    destruct (byte c <? 128) eqn:Ha; [intros [= <- _]; by apply ascii_valid, Z.ltb_lt|].
    apply Z.ltb_ge in Ha.
    destruct (decode_rune_len c tl) eqn:Hd; intros [= <- _]; [|apply encode_rune_valid].
    apply copied_rune_valid; [lia | done].
Qed.

Lemma scan_string_from_valid k s d rest :
  scan_string_from k s = Some (d, rest) -> valid_utf8 d = true.
Proof.
  revert k d rest. induction s as [|c tl IH]; intros k d rest; [discriminate|]. cbn [scan_string_from].
  destruct k as [|k]; [|apply IH].
  destruct (string_step (String c tl)) as [| |out w] eqn:Hst; [by intros [= <- _] | discriminate |].
  unfold prepend. destruct (scan_string_from (w - 1) tl) as [[d' rest']|] eqn:Hr; [|discriminate].
  intros [= <- _]. apply valid_utf8_app; [by eapply string_step_valid | by eapply IH].
Qed.

Lemma scan_string_valid s d rest : scan_string s = Some (d, rest) -> valid_utf8 d = true.
Proof. apply scan_string_from_valid. Qed.

(** ** The decoder's tree holds only valid strings *)

Lemma forallb_rev {A} (f : A -> bool) l : forallb f (rev l) = forallb f l.
Proof.
  induction l as [|x l IH]; [done|]. simpl. rewrite forallb_app, IH. simpl.
  by rewrite andb_true_r, andb_comm.
Qed.

Lemma parse_valid fuel :
  (forall depth s v rest, parse_value fuel depth s = Ok (v, rest) -> json_valid v = true) /\
  (forall depth s acc v rest, forallb json_valid acc = true ->
     parse_elems fuel depth s acc = Ok (v, rest) -> json_valid v = true) /\
  (forall depth s acc v rest, forallb (fun kv => valid_utf8 kv.1 && json_valid kv.2) acc = true ->
     parse_members fuel depth s acc = Ok (v, rest) -> json_valid v = true).
Proof.
  induction fuel as [|fuel (IHv & IHe & IHm)]; [split_and!; discriminate|].
  split_and!.
  - intros depth s v rest. cbn [parse_value].
    destruct (skip_ws s) as [|c r]; [discriminate|].
    repeat (case_decide || case_match); try discriminate; intros Hp; simplify_eq;
      eauto using scan_string_valid.
    all: try (eapply IHe; [|eassumption]; done). all: eapply IHm; [|eassumption]; done.
  - intros depth s acc v rest Hacc. cbn [parse_elems].
    destruct (parse_value fuel depth s) as [[v' r]|] eqn:Hv; [|discriminate].
    destruct (skip_ws r) as [|c r']; [discriminate|].
    pose proof (IHv _ _ _ _ Hv) as Hv'.
    repeat case_decide; intros Hp; simplify_eq; [eapply IHe; [|done]; simpl; by rewrite Hv'|].
    cbn [json_valid]. rewrite forallb_app, forallb_rev, Hacc. simpl. by rewrite Hv'.
  - intros depth s acc v rest Hacc. cbn [parse_members].
    destruct (skip_ws s) as [|c r]; [discriminate|].
    case_decide; [|discriminate].
    destruct (scan_string r) as [[key r1]|] eqn:Hk; [|discriminate].
    destruct (skip_ws r1) as [|c2 r2]; [discriminate|]. case_decide; [|discriminate].
    destruct (parse_value fuel depth r2) as [[v' r3]|] eqn:Hv; [|discriminate].
    destruct (skip_ws r3) as [|c4 r4]; [discriminate|].
    pose proof (IHv _ _ _ _ Hv) as Hv'. pose proof (scan_string_valid _ _ _ Hk) as Hkey.
    repeat case_decide; intros Hp; simplify_eq; [eapply IHm; [|done]; simpl; by rewrite Hkey, Hv'|].
    cbn [json_valid]. rewrite forallb_app, forallb_rev, Hacc. simpl. by rewrite Hkey, Hv'.
Qed.

Lemma decode_json_valid data v : decode_json data = Ok v -> json_valid v = true.
Proof.
  unfold decode_json. destruct (parse_value _ _ _) as [[v' r]|] eqn:Hp; [|discriminate].
  destruct (all_ws r); [|discriminate]. intros [= <-]. by eapply (proj1 (parse_valid _)).
Qed.

(** ** [json.Unmarshal] fills the drivers' targets with valid strings *)

Definition valid_segments (segs : list string) : Prop := Forall (fun str => valid_utf8 str = true) segs.

Lemma unmarshal_string_slice_valid v : json_valid v = true -> valid_segments (unmarshal_string_slice v).
Proof.
  destruct v as [| | |str|elems|members]; intros Hv; try by constructor.
  cbn [json_valid] in Hv. apply Forall_map, Forall_forall. intros x Hx.
  pose proof (proj1 (forallb_forall _ _) Hv x (proj1 (list_elem_of_In _ _) Hx)) as Hx'. by destruct x.
Qed.

Lemma unmarshal_members_valid members :
  forallb (fun kv => valid_utf8 kv.1 && json_valid kv.2) members = true ->
  map_Forall (fun key segs => valid_utf8 key = true /\ valid_segments segs) (unmarshal_members members).
Proof.
  unfold unmarshal_members. generalize (map_Forall_empty (M := gmap string)
    (fun key segs => valid_utf8 key = true /\ valid_segments segs)).
  generalize (∅ : gmap string (list string)) as m.
  induction members as [|[key v] members IH]; intros m Hm Hall; [done|].
  cbn [forallb] in Hall. apply andb_true_iff in Hall as [Hkv Hall]. apply andb_true_iff in Hkv as [Hk Hv].
  apply IH; [|done]. apply map_Forall_insert_2; [|done]. split; [done|]. by apply unmarshal_string_slice_valid.
Qed.

(** An invalid byte inside a literal comes out as the three bytes of
    U+FFFD. *)
Example Unmarshal_invalid_byte :
  Unmarshal_strings (String "[" (String quote_char (String (chr 255) (String "a" (String quote_char "]")))))
  = [String (chr 239) (String (chr 191) (String (chr 189) "a"))].
Proof. vm_compute. reflexivity. Qed.

(** ** Trimming ASCII bytes keeps a string valid *)

Lemma valid_from_skip pre t : valid_from (String.length pre) (pre +:+ t) = valid_from 0 t.
Proof. induction pre as [|c pre IH]; [done|]. by rewrite app_String. Qed.

(** An ASCII byte cannot be inside the continuation bytes of a rune. *)
Lemma high_prefix_split pre rest a c r :
  pre +:+ rest = a +:+ String c r -> high_bytes pre = true -> byte c < 128 ->
  exists a'', a = pre +:+ a''.
Proof.
  revert a. induction pre as [|b pre IH]; intros a Heq Hh Hc; [by exists a|].
  cbn [high_bytes] in Hh. apply andb_true_iff in Hh as [Hb Hh]. apply Z.leb_le in Hb.
  destruct a as [|x a']; rewrite !app_String in Heq; cbn in Heq.
  - injection Heq as -> _. lia.
  - injection Heq as -> Heq. destruct (IH a' Heq Hh Hc) as [a'' ->]. by exists a''.
Qed.

(** The bytes before an ASCII byte of a valid string are valid. *)
Lemma valid_prefix_ascii a c r :
  valid_utf8 (a +:+ String c r) = true -> byte c < 128 -> valid_utf8 a = true.
Proof.
  unfold valid_utf8. revert r. induction a as [a IH] using string_len_ind; intros r Hv Hc.
  destruct a as [|x a']; [done|]. rewrite app_String in Hv. cbn [valid_from] in Hv |- *.
  destruct (byte x <? 128).
  - apply (IH a' ltac:(simpl; lia) r Hv Hc).
  - destruct (decode_rune_len x (a' +:+ String c r)) as [n|] eqn:Hd; [|discriminate].
    destruct (decode_rune_len_prefix _ _ _ Hd) as (pre & rest & Heq & Hl & Hn & Hpre & Hh).
    destruct (high_prefix_split _ _ _ _ _ (eq_sym Heq) Hh Hc) as [a'' ->].
    rewrite Hpre, <- Hl. rewrite <- string_app_assoc, <- Hl, valid_from_skip in Hv.
    rewrite valid_from_skip. apply (IH a'' ltac:(cbn [String.length]; rewrite string_length_app; lia) r Hv Hc).
Qed.

Lemma TrimLeft_valid s cutset :
  (forall c, cutset_contains cutset c = true -> byte c < 128) ->
  valid_utf8 s = true -> valid_utf8 (TrimLeft s cutset) = true.
Proof.
  intros Hcut. induction s as [|c s IH]; [done|]. cbn [TrimLeft].
  destruct (cutset_contains cutset c) eqn:Hc; [|done].
  intros Hv. apply IH. unfold valid_utf8 in *. cbn in Hv.
  by rewrite (proj2 (Z.ltb_lt _ _) (Hcut c Hc)) in Hv.
Qed.

(** [TrimRight] cuts a string before a byte of the cutset. *)
Lemma TrimRight_split s cutset :
  exists u, s = TrimRight s cutset +:+ u /\
    (u = EmptyString \/ exists c u', u = String c u' /\ cutset_contains cutset c = true).
Proof.
  induction s as [|c s (u & Hs & Hu)]; [exists EmptyString; by split; [|left]|]. cbn [TrimRight].
  destruct (TrimRight s cutset) as [|d r] eqn:Ht.
  - destruct (cutset_contains cutset c) eqn:Hc.
    + exists (String c s). split; [done|]. right. by exists c, s.
    + exists u. rewrite Hs at 1. by split.
  - exists u. rewrite Hs at 1. by split.
Qed.

Lemma TrimRight_valid s cutset :
  (forall c, cutset_contains cutset c = true -> byte c < 128) ->
  valid_utf8 s = true -> valid_utf8 (TrimRight s cutset) = true.
Proof.
  intros Hcut Hv. destruct (TrimRight_split s cutset) as (u & Hs & [->|(c & u' & -> & Hc)]).
  - rewrite string_app_nil_r in Hs. by rewrite <- Hs.
  - rewrite Hs in Hv. apply (valid_prefix_ascii _ c u' Hv), Hcut, Hc.
Qed.

(** [strings.Trim] with an ASCII cutset keeps a string valid. *)
Lemma Trim_valid s cutset :
  (forall c, cutset_contains cutset c = true -> byte c < 128) ->
  valid_utf8 s = true -> valid_utf8 (Trim s cutset) = true.
Proof.
  intros Hcut Hv. unfold Trim. destruct s, cutset; try done.
  apply TrimLeft_valid, TrimRight_valid; done.
Qed.

(** Whatever bytes the input holds, every string [json.Unmarshal]
    stores is valid UTF-8: the tags of a query line decoded into a
    [[]string], and the keys and segments of a cache decoded into a
    [map[string][]string]; an invalid byte of a literal is replaced by
    U+FFFD, never copied. *)
Lemma Unmarshal_valid_utf8 data :
  valid_segments (Unmarshal_strings data) /\
  map_Forall (fun key segs => valid_utf8 key = true /\ valid_segments segs) (Unmarshal_map data).
Proof.
  unfold Unmarshal_strings, Unmarshal_map.
  destruct (decode_json data) as [v|e] eqn:Hd; [|split; [constructor | apply map_Forall_empty]].
  pose proof (decode_json_valid _ _ Hd) as Hv. split; [by apply unmarshal_string_slice_valid|].
  destruct v; try apply map_Forall_empty. by apply unmarshal_members_valid.
Qed.

End JsonUtf8.
