(* ===== verification/GoFmt.v ===== *)
(** * Reading standard input: [fmt.Scanf] and [bufio.Reader.ReadBytes]

    The drivers read their query from standard input: the operator with
    [fmt.Scanf("%s\n", &op)], the target with [fmt.Scanf("%d\n",
    &target)], the phoneme with [fmt.Scanf("%s\n", &phoneme)], and the
    JSON lines with [bufio.NewReader(os.Stdin).ReadBytes('\n')].  This
    file models those library calls as Go's [fmt/scan.go] and
    [bufio/bufio.go] are written (library code, marked spec_modelled in
    the map), on standard input as a byte string.

    [fmt.Scanf] reads [os.Stdin] one rune at a time through a fresh
    [readRune]: a rune it reads and then unreads ([UnreadRune]) stays
    pending in that [readRune] and is lost when the call returns.  The
    state of a scan is therefore the unread input and whether its first
    rune is such a pending one ([ss]); [finish] drops a pending rune.
    Every error of [Scanf] is ignored by the code, so the model returns
    the variable's value (assigned only when its verb completes) and
    the input left.

    The model takes standard input to be valid UTF-8 whose white space
    is ASCII ([isSpace] on the bytes 9 to 13 and 32): then reading runes
    and reading bytes agree, except that a lost pending rune is a whole
    UTF-8 sequence ([rune_width]).  The Unicode spaces of [isSpace]
    (U+0085, U+00A0, U+2000 and the like) and invalid UTF-8 are not
    modelled. *)

From S2P Require Import Prelude GoStrconv.

Module GoFmt.
Import GoStrconv.
Local Open Scope string_scope.
Local Open Scope Z_scope.

(** ** The scanner's state and monad *)

Record ss := mk_ss { input : string; pending : bool }.

Inductive scan_error :=
  | ErrUnexpectedNewline    (** "unexpected newline" *)
  | ErrUnexpectedEOF        (** [io.ErrUnexpectedEOF] *)
  | ErrExpectedInteger      (** "expected integer" *)
  | ErrNewlineMismatch      (** "newline in format does not match input" *)
  | ErrParse (e : NumErrorKind).

(** A scanning step: the state after it, and its value or the error
    that stops [doScanf] (the input consumed so far stays consumed). *)
Definition scan (A : Type) := ss -> ss * result scan_error A.

Definition scan_bind {A B} (m : scan A) (k : A -> scan B) : scan B :=
  fun st => let '(st', r) := m st in
            match r with Ok a => k a st' | Fatal e => (st', Fatal e) end.

(** A step that starts by reading a rune: a pending rune is simply the
    next one it reads. *)
Definition reading {A} (f : string -> ss * result scan_error A) : scan A := fun st => f (input st).

Declare Scope scan_scope.
Notation "x <-s m ;; k" := (scan_bind m (fun x => k))
  (at level 100, m at next level, right associativity) : scan_scope.
Local Open Scope scan_scope.

(** [isSpace] on ASCII: ['\t'], ['\n'], ['\v'], ['\f'], ['\r'], [' ']. *)
Definition is_space (c : Ascii.ascii) : bool := byte_in c 9 13 || (byte c =? 32).

Definition newline : Ascii.ascii := chr 10.

(** The number of bytes of the UTF-8 rune a byte starts. *)
Definition rune_width (c : Ascii.ascii) : nat :=
  if byte c <? 192 then 1 else if byte c <? 224 then 2 else if byte c <? 240 then 3 else 4.

(** When [Scanf] returns, a pending rune is lost with its [readRune]. *)
Definition finish (st : ss) : string :=
  match input st with
  | String c _ => if pending st then String.substring (rune_width c) (String.length (input st)) (input st)
                  else input st
  | EmptyString => EmptyString
  end.

(** ** The steps of [doScanf] *)

(** [SkipSpace] with [nlIsSpace = false]: a newline before the next
    token is an error (a ["\r\n"] is skipped to its newline, as the
    [peek] of the code does). *)
Fixpoint SkipSpace (s : string) : ss * result scan_error unit :=
  match s with
  | EmptyString => (mk_ss EmptyString false, Ok tt)
  | String c tl =>
      if decide (c = newline) then (mk_ss tl false, Fatal ErrUnexpectedNewline)
      else if is_space c then SkipSpace tl
      else (mk_ss s true, Ok tt)
  end.

(** [notEOF]: [getRune] then [UnreadRune], or [io.ErrUnexpectedEOF]. *)
Definition notEOF (s : string) : ss * result scan_error unit :=
  match s with
  | EmptyString => (mk_ss EmptyString false, Fatal ErrUnexpectedEOF)
  | String _ _ => (mk_ss s true, Ok tt)
  end.

(** [token(true, notSpace)] after its [SkipSpace]: the runes up to the
    next space, which is unread. *)
Fixpoint token_loop (s : string) : string * ss :=
  match s with
  | EmptyString => (EmptyString, mk_ss EmptyString false)
  | String c tl =>
      if is_space c then (EmptyString, mk_ss s true)
      else let '(t, st) := token_loop tl in (String c t, st)
  end.

Definition token (s : string) : ss * result scan_error string := let '(t, st) := token_loop s in (st, Ok t).

(** [accept(ok)]: the next rune when it is one of [ok]. *)
Definition accept (ok : Ascii.ascii -> bool) (s : string) : ss * result scan_error (option Ascii.ascii) :=
  match s with
  | EmptyString => (mk_ss EmptyString false, Ok None)
  | String c tl => if ok c then (mk_ss tl false, Ok (Some c)) else (mk_ss s true, Ok None)
  end.

(** [for s.accept(digits) {}]. *)
Fixpoint accept_digits (s : string) : string * ss :=
  match s with
  | EmptyString => (EmptyString, mk_ss EmptyString false)
  | String c tl =>
      if is_digit c then let '(ds, st) := accept_digits tl in (String c ds, st)
      else (EmptyString, mk_ss s true)
  end.

Definition is_sign (c : Ascii.ascii) : bool := bool_decide (c = "+"%char \/ c = "-"%char).

(** [scanNumber(decimalDigits, false)]: at least one digit. *)
Definition scanNumber : scan string :=
  _ <-s reading notEOF ;;
  reading (fun s => match accept_digits s with
                    | (EmptyString, st) => (st, Fatal ErrExpectedInteger)
                    | (ds, st) => (st, Ok ds)
                    end).

(** [scanInt('d', 64)]: [SkipSpace], [notEOF], an optional sign, the
    digits, then [strconv.ParseInt(tok, 10, 64)], which reads no input
    (the rune after the digits stays pending). *)
Definition scanInt : scan Z :=
  _ <-s reading SkipSpace ;;
  _ <-s reading notEOF ;;
  sign <-s reading (accept is_sign) ;;
  ds <-s scanNumber ;;
  let tok := match sign with Some c => String c ds | None => ds end in
  fun st => match ParseInt tok with
            | Ok i => (st, Ok i)
            | Fatal e => (st, Fatal (ErrParse e))
            end.

(** [convertString('s')]: [SkipSpace], [notEOF], the token. *)
Definition convertString : scan string :=
  _ <-s reading SkipSpace ;;
  _ <-s reading notEOF ;;
  reading token.

(** [advance] on the format's ["\n"]: spaces other than newline, then
    a newline or the end of the input; the rune that does not match is
    consumed. *)
Fixpoint advance_newline (s : string) : ss * result scan_error unit :=
  match s with
  | EmptyString => (mk_ss EmptyString false, Ok tt)
  | String c tl =>
      if decide (c = newline) then (mk_ss tl false, Ok tt)
      else if is_space c then advance_newline tl
      else (mk_ss tl false, Fatal ErrNewlineMismatch)
  end.

(** [doScanf] on a format ["%v\n"] with one operand: [SkipSpace], the
    verb's scan, whose value is assigned as soon as it completes, then
    the newline.  The result is the operand's value and the input left
    for the next reader. *)
Definition doScanf_line {A} (scan_verb : scan A) (v : A) (stdin : string) : A * string :=
  let '(st1, r1) := SkipSpace stdin in
  match r1 with
  | Fatal _ => (v, finish st1)
  | Ok _ =>
      let '(st2, r2) := scan_verb st1 in
      match r2 with
      | Fatal _ => (v, finish st2)
      | Ok a => let '(st3, _) := advance_newline (input st2) in (a, finish st3)
      end
  end.

(** [fmt.Scanf("%s\n", &v)]. *)
Definition Scanf_s (v : string) (stdin : string) : string * string := doScanf_line convertString v stdin.

(** [fmt.Scanf("%d\n", &v)] for an [int]. *)
Definition Scanf_d (v : Z) (stdin : string) : Z * string := doScanf_line scanInt v stdin.

(** ** [bufio.Reader.ReadBytes('\n')] *)

(** The bytes up to and including the first newline and the rest, or
    [None] for the error [io.EOF] when no newline is left (the code
    passes it to [log.Fatal] and drops the bytes read). *)
Fixpoint ReadBytes (s : string) : option (string * string) :=
  match s with
  | EmptyString => None
  | String c tl =>
      if decide (c = newline) then Some (String c EmptyString, tl)
      else match ReadBytes tl with
           | Some (line, rest) => Some (String c line, rest)
           | None => None
           end
  end.

(** ** What the drivers' reads return on well-formed lines *)

(** A token: bytes none of which is a space. *)
Fixpoint no_space (s : string) : bool :=
  match s with
  | EmptyString => true
  | String c tl => negb (is_space c) && no_space tl
  end.

Fixpoint no_newline (s : string) : bool :=
  match s with
  | EmptyString => true
  | String c tl => negb (bool_decide (c = newline)) && no_newline tl
  end.

Lemma newline_space : is_space newline = true.
Proof. reflexivity. Qed.

Lemma token_loop_app t rest :
  no_space t = true -> token_loop (t +:+ String newline rest) = (t, mk_ss (String newline rest) true).
Proof.
  induction t as [|c t IH]; intros Ht; [done|].
  simpl in Ht. apply andb_true_iff in Ht as [Hc Ht]. apply negb_true_iff in Hc.
  rewrite app_String. simpl. rewrite Hc, IH by done. done.
Qed.

Lemma accept_digits_app ds rest :
  all_digits ds = true -> accept_digits (ds +:+ String newline rest) = (ds, mk_ss (String newline rest) true).
Proof.
  induction ds as [|c ds IH]; intros Hds; [done|].
  simpl in Hds. apply andb_true_iff in Hds as [Hc Hds].
  rewrite app_String. simpl. rewrite Hc, IH by done. done.
Qed.

Lemma SkipSpace_nonspace c tl : is_space c = false -> SkipSpace (String c tl) = (mk_ss (String c tl) true, Ok tt).
Proof.
  intros Hc. simpl. case_decide as Hn; [subst; by rewrite newline_space in Hc | by rewrite Hc].
Qed.

Lemma finish_not_pending s : finish (mk_ss s false) = s.
Proof. by destruct s. Qed.

Lemma advance_newline_nl rest : advance_newline (String newline rest) = (mk_ss rest false, Ok tt).
Proof. reflexivity. Qed.

(** [fmt.Scanf("%s\n", &v)] on a line holding one token reads the
    token and the line's newline. *)
Lemma Scanf_s_line v t rest :
  t <> EmptyString -> no_space t = true -> Scanf_s v (t +:+ String newline rest) = (t, rest).
Proof.
  intros Hne Ht. destruct t as [|c t']; [done|].
  pose proof Ht as Hc. simpl in Hc. apply andb_true_iff in Hc as [Hc _]. apply negb_true_iff in Hc.
  unfold Scanf_s, doScanf_line. rewrite app_String, SkipSpace_nonspace by done.
  unfold convertString, scan_bind, reading. cbn [input].
  rewrite SkipSpace_nonspace by done. cbn [input notEOF].
  unfold token. rewrite <- app_String, token_loop_app by done.
  cbn [input]. rewrite advance_newline_nl. cbv zeta. by rewrite finish_not_pending.
Qed.

Lemma is_space_digit d : 0 <= d <= 9 -> is_space (digit_char d) = false.
Proof.
  intros Hd. unfold is_space, byte_in. rewrite byte_digit_char by done.
  apply orb_false_iff. split; [apply andb_false_iff; right; apply Z.leb_gt; lia | apply Z.eqb_neq; lia].
Qed.

(** [fmt.Scanf("%d\n", &v)] on a line holding an [int] printed in
    decimal reads that [int] and the line's newline. *)
Lemma Scanf_d_line v z rest :
  GoInt.min_int <= z <= GoInt.max_int -> Scanf_d v (FormatInt z +:+ String newline rest) = (z, rest).
Proof.
  intros Hz. pose proof (ParseInt_FormatInt z Hz) as Hp.
  destruct (FormatInt_shape z Hz) as (neg & d & ds & Heq & Hd & Hds & _).
  rewrite Heq in Hp |- *. unfold Scanf_d, doScanf_line, scanInt, scanNumber, scan_bind, reading.
  rewrite <- string_app_assoc. destruct neg.
  - rewrite app_String, app_EmptyString, SkipSpace_nonspace by reflexivity. cbn [input].
    rewrite SkipSpace_nonspace by reflexivity. cbn [input notEOF accept].
    replace (is_sign "-"%char) with true by reflexivity. cbn [input].
    rewrite app_String. cbn [notEOF input].
    rewrite <- app_String, accept_digits_app by (by apply all_digits_cons).
    rewrite app_String, app_EmptyString in Hp. rewrite Hp. cbn [input].
    rewrite advance_newline_nl. cbv zeta. by rewrite finish_not_pending.
  - rewrite app_EmptyString, app_String, SkipSpace_nonspace by (apply is_space_digit; done). cbn [input].
    rewrite SkipSpace_nonspace by (apply is_space_digit; done). cbn [input notEOF accept].
    replace (is_sign (digit_char d)) with false
      by (symmetry; apply bool_decide_eq_false; destruct (digit_char_not_sign d Hd); intros [? | ?]; contradiction).
    cbn [input notEOF].
    rewrite <- app_String, accept_digits_app by (by apply all_digits_cons).
    rewrite app_EmptyString in Hp. rewrite Hp. cbn [input].
    rewrite advance_newline_nl. cbv zeta. by rewrite finish_not_pending.
Qed.

Lemma substring_all s m : (String.length s <= m)%nat -> String.substring 0 m s = s.
Proof.
  revert m. induction s as [|c s IH]; intros [|m] Hm; simpl in *; try done; [lia|].
  rewrite IH by lia. done.
Qed.

(** [fmt.Scanf("%d\n", &v)] on a line that starts with an ASCII byte
    that is neither a space, a sign nor a digit: "expected integer",
    [v] keeps its value, and that byte, read and unread, is lost. *)
Lemma Scanf_d_nonnumeric v c tl :
  byte c < 128 -> is_space c = false -> is_sign c = false -> is_digit c = false ->
  Scanf_d v (String c tl) = (v, tl).
Proof.
  intros Ha Hs Hg Hd. unfold Scanf_d, doScanf_line, scanInt, scanNumber, scan_bind, reading.
  rewrite SkipSpace_nonspace by done. cbn [input].
  rewrite SkipSpace_nonspace by done. cbn [input notEOF accept]. rewrite Hg. cbn [input notEOF accept_digits].
  rewrite Hd. unfold finish. cbn [input pending].
  unfold rune_width. rewrite (proj2 (Z.ltb_lt _ _)) by lia. cbn [String.length String.substring].
  rewrite substring_all; [done | lia].
Qed.

(** [ReadBytes('\n')] returns a line with its newline. *)
Lemma ReadBytes_line line rest :
  no_newline line = true -> ReadBytes (line +:+ String newline rest) = Some (line +:+ String newline EmptyString, rest).
Proof.
  induction line as [|c line IH]; intros Hl; simpl; [reflexivity|].
  apply andb_true_iff in Hl as [Hc Hl]. apply negb_true_iff, bool_decide_eq_false in Hc.
  case_decide; [done|]. by rewrite IH.
Qed.

(** [ReadBytes('\n')] fails with [io.EOF] exactly when no newline is
    left. *)
Lemma ReadBytes_EOF s : ReadBytes s = None <-> no_newline s = true.
Proof.
  induction s as [|c s IH]; simpl; [done|].
  case_decide as Hc; subst.
  - rewrite bool_decide_true by done. simpl. done.
  - rewrite bool_decide_false by done. simpl. rewrite <- IH.
    destruct (ReadBytes s) as [[]|]; done.
Qed.
End GoFmt.
