(* ===== verification/FeatureQuery.v ===== *)
(** * The feature-query parser: [featurecounts.InitialiseFeatures]

    [InitialiseFeatures(rawFeatures, &posFeatures, &negFeatures)] ranges
    over the raw tags; each tag, with every leading and trailing '+' and
    '-' trimmed, is appended to [*posFeatures] when the tag starts with
    '+' and to [*negFeatures] otherwise.  The two pointer arguments are
    the state of the loop, passed explicitly: the function takes the two
    slices and returns them updated.  [readOneSetOfFeatures] (and the
    same lines of [countquery/main.go]) call it on two fresh empty
    slices after decoding the JSON line; [ParseFeatures] is that call.

    Theorems: the exact result of the loop (every '+'-prefixed tag
    trimmed goes to the positive list, every other tag to the negative
    list, in order, none dropped), trimmed results, and the round trip
    from a signed query back to its two lists. *)

From S2P Require Import Prelude GoStrings.
Import GoStrings.

Module FeatureQuery.
(** The cutset ["+-"] and the prefix ["+"] of the source. *)
Definition signs : string := "+-"%string.
Definition plus : string := "+"%string.

(** One iteration of the loop body on the state
    (the two slices that [posFeatures] and [negFeatures] point to). *)
Definition initialise_step (st : list string * list string) (feature : string)
    : list string * list string :=
  let trimmedFeature := Trim feature signs in
  if HasPrefix feature plus
  then (st.1 ++ [trimmedFeature], st.2)
  else (st.1, st.2 ++ [trimmedFeature]).

(** [InitialiseFeatures]: the [range] loop over [rawFeatures]. *)
Definition InitialiseFeatures (rawFeatures posFeatures negFeatures : list string)
    : list string * list string :=
  fold_left initialise_step rawFeatures (posFeatures, negFeatures).

(** [posFeatures := make([]string, 0); negFeatures := make([]string, 0);
     fc.InitialiseFeatures(rawFeatures, &posFeatures, &negFeatures)]. *)
Definition ParseFeatures (rawFeatures : list string) : list string * list string :=
  InitialiseFeatures rawFeatures [] [].

(** The classification of one tag. *)
Definition is_positive_tag (feature : string) : bool := HasPrefix feature plus.

(** ** Lemmas *)

(** The loop as two filters of the raw tags. *)
Lemma InitialiseFeatures_filter raw p n :
  InitialiseFeatures raw p n =
  (p ++ map (fun f => Trim f signs) (List.filter is_positive_tag raw),
   n ++ map (fun f => Trim f signs) (List.filter (fun f => negb (is_positive_tag f)) raw)).
Proof.
  revert p n. induction raw as [|f raw IH]; intros p n.
  - simpl. by rewrite !app_nil_r.
  - unfold InitialiseFeatures in *. cbn [fold_left List.filter].
    unfold initialise_step at 2. change (HasPrefix f plus) with (is_positive_tag f).
    destruct (is_positive_tag f); cbn [negb map fst snd]; rewrite IH;
      by rewrite <- !app_assoc.
Qed.
Lemma is_positive_tag_first_byte f :
  is_positive_tag f = bool_decide (first_byte f = Some "+"%char).
Proof.
  destruct f as [|c f]; [done|]. unfold is_positive_tag, plus. cbn [HasPrefix first_byte].
  destruct (decide (c = "+"%char)) as [->|Hc].
  - by rewrite bool_decide_true.
  - rewrite bool_decide_false; [done|]. congruence.
Qed.

(** (C5) The exact split performed by [InitialiseFeatures]: the tags
    whose first byte is '+' are appended, trimmed of '+' and '-' at
    both ends, to the positive slice, and all other tags (a '-'
    prefix, no sign, or the empty string) to the negative slice, in
    their order. *)
Theorem InitialiseFeatures_split raw p n :
  InitialiseFeatures raw p n =
  (p ++ map (fun f => Trim f signs)
          (List.filter (fun f => bool_decide (first_byte f = Some "+"%char)) raw),
   n ++ map (fun f => Trim f signs)
          (List.filter (fun f => negb (bool_decide (first_byte f = Some "+"%char))) raw)).
Proof.
  rewrite InitialiseFeatures_filter.
  rewrite (filter_ext is_positive_tag _ is_positive_tag_first_byte).
  erewrite (filter_ext (fun f => negb (is_positive_tag f))); [done|].
  intros f. by rewrite is_positive_tag_first_byte.
Qed.

(** (C24) No tag is dropped: every raw tag yields exactly one feature
    name, malformed ones ("+", "-", "+-") included. *)
Lemma ParseFeatures_length raw :
  length (ParseFeatures raw).1 + length (ParseFeatures raw).2 = length raw.
Proof.
  unfold ParseFeatures. rewrite InitialiseFeatures_filter. simpl.
  rewrite !length_map. induction raw as [|f raw IH]; [done|].
  cbn [List.filter]. destruct (is_positive_tag f); simpl; lia.
Qed.

Lemma Forall_trimmed_map l :
  Forall (fun f => trimmed signs f = true) (map (fun f => Trim f signs) l).
Proof. apply Forall_map, Forall_forall. intros x _. apply Trim_trimmed. Qed.

(** (C35) Every parsed feature name is trimmed: it neither starts nor
    ends with '+' or '-'. *)
Lemma InitialiseFeatures_trimmed raw p n :
  Forall (fun f => trimmed signs f = true) p ->
  Forall (fun f => trimmed signs f = true) n ->
  Forall (fun f => trimmed signs f = true) ((InitialiseFeatures raw p n).1) /\
  Forall (fun f => trimmed signs f = true) ((InitialiseFeatures raw p n).2).
Proof.
  intros Hp Hn. rewrite InitialiseFeatures_filter. simpl.
  split; apply Forall_app; split; auto using Forall_trimmed_map.
Qed.

(** ** Signed queries and their printed tags *)

Inductive sign := Pos | Neg.

(** The tag a client writes for a signed feature name. *)
Definition render_tag (t : sign * string) : string :=
  match t.1 with
  | Pos => String "+"%char t.2
  | Neg => String "-"%char t.2
  end.

Definition is_pos (t : sign * string) : bool := match t.1 with Pos => true | Neg => false end.

Lemma render_tag_positive t : is_positive_tag (render_tag t) = is_pos t.
Proof. by destruct t as [[] f]. Qed.

Lemma render_tag_trim t :
  trimmed signs t.2 = true -> Trim (render_tag t) signs = t.2.
Proof.
  intros H. destruct t as [[] f]; unfold render_tag; cbn [fst snd] in *;
    rewrite Trim_cons_cut by reflexivity; by apply Trim_clean.
Qed.

(** (C36) Round trip: printing a signed query with explicit signs and
    parsing the tags back gives its positive and negative names, for
    names that do not start or end with a sign. *)
Lemma ParseFeatures_render tags :
  Forall (fun t => trimmed signs t.2 = true) tags ->
  ParseFeatures (map render_tag tags) =
  (map snd (List.filter is_pos tags), map snd (List.filter (fun t => negb (is_pos t)) tags)).
Proof.
  intros H. unfold ParseFeatures. rewrite InitialiseFeatures_filter, !app_nil_l.
  induction H as [|t tags Ht _ IH]; [done|].
  cbn [map List.filter]. rewrite render_tag_positive.
  destruct (is_pos t); cbn [map negb]; rewrite ?render_tag_trim by done;
    by injection IH as -> ->.
Qed.
(** ** Witnesses *)

Lemma InitialiseFeatures_trimmed_witness :
  Forall (fun f => trimmed signs f = true) ["voice"] /\
  Forall (fun f => trimmed signs f = true) (@nil string) /\
  (Forall (fun f => trimmed signs f = true)
     ((InitialiseFeatures ["+nasal-"; "--round"] ["voice"] []).1) /\
   Forall (fun f => trimmed signs f = true)
     ((InitialiseFeatures ["+nasal-"; "--round"] ["voice"] []).2)).
Proof.
  assert (Hp : Forall (fun f => trimmed signs f = true) ["voice"]) by (repeat constructor).
  assert (Hn : Forall (fun f => trimmed signs f = true) (@nil string)) by constructor.
  split; [exact Hp|]. split; [exact Hn|].
  exact (InitialiseFeatures_trimmed _ _ _ Hp Hn).
Defined.

Lemma ParseFeatures_render_witness :
  Forall (fun t => trimmed signs t.2 = true) [(Pos, "voice"); (Neg, "nasal")] /\
  ParseFeatures (map render_tag [(Pos, "voice"); (Neg, "nasal")]) =
  (map snd (List.filter is_pos [(Pos, "voice"); (Neg, "nasal")]),
   map snd (List.filter (fun t => negb (is_pos t)) [(Pos, "voice"); (Neg, "nasal")])).
Proof.
  assert (H : Forall (fun t => trimmed signs t.2 = true) [(Pos, "voice"); (Neg, "nasal")])
    by (repeat constructor).
  split; [exact H | exact (ParseFeatures_render _ H)].
Defined.
End FeatureQuery.
