(* ===== verification/FeatureCounts.v ===== *)
(** * Segment matching and feature counts: [featurecounts.GetCountForFeatures]

    [contains(slice, element)] is a linear search.  [GetCountForFeatures]
    ranges over the inventory; for each segment it reads
    [parses[segment]] (a nil slice when the segment is absent), scans
    [negFeatues] (sic) and skips the segment at the first negative
    feature the parse contains, then scans [posFeatures] and skips it at
    the first positive feature the parse lacks, and otherwise increments
    the [int] result.  The two inner loops with their [break] are
    [neg_loop] and [pos_loop]; the outer loop with [continue] is
    [count_loop], whose accumulator is the Go [int] [result] (its [++]
    wraps, see [GoInt.add]).

    The abstract specification is the spec's segment matcher: a feature
    set matches a query when it has every positive and no negative
    feature ([matches], a decidable proposition), and the count is the
    number of matching segments ([spec_count]).  The main theorem,
    [GetCountForFeatures_spec_count], states that the loops compute it. *)

From S2P Require Import Prelude FeatureQuery.
Import FeatureQuery.

Module FeatureCounts.

(** [func contains(slice []string, element string) bool]. *)
Fixpoint contains (slice : list string) (element : string) : bool :=
  match slice with
  | [] => false
  | s :: rest => if decide (s = element) then true else contains rest element
  end.

(** [parse = parses[segment]]: the zero value, a nil slice, when absent. *)
Definition lookup_parse (parses : gmap string (list string)) (segment : string)
    : list string :=
  default [] (parses !! segment).

(** [for _, f = range negFeatues { if contains(parse, f) { skipThis = true; break } }]:
    the final value of [skipThis]. *)
Fixpoint neg_loop (negFeatues parse : list string) : bool :=
  match negFeatues with
  | [] => false
  | f :: rest => if contains parse f then true else neg_loop rest parse
  end.

(** [for _, f = range posFeatures { if !contains(parse, f) { skipThis = true; break } }]. *)
Fixpoint pos_loop (posFeatures parse : list string) : bool :=
  match posFeatures with
  | [] => false
  | f :: rest => if negb (contains parse f) then true else pos_loop rest parse
  end.

(** The outer [for _, segment := range inventory] loop, with the
    running [result]. *)
Fixpoint count_loop (posFeatures negFeatues : list string)
    (parses : gmap string (list string)) (inventory : list string) (result : Z) : Z :=
  match inventory with
  | [] => result
  | segment :: rest =>
      let parse := lookup_parse parses segment in
      if neg_loop negFeatues parse then count_loop posFeatures negFeatues parses rest result
      else if pos_loop posFeatures parse then count_loop posFeatures negFeatues parses rest result
      else count_loop posFeatures negFeatues parses rest (GoInt.add result 1)
  end.

(** [func GetCountForFeatures(posFeatures, negFeatues, inventory []string,
     parses map[string][]string) (result int)]. *)
Definition GetCountForFeatures (posFeatures negFeatues inventory : list string)
    (parses : gmap string (list string)) : Z :=
  count_loop posFeatures negFeatues parses inventory 0.

(** ** The abstract segment matcher *)

(** A feature set matches the query [(pos, neg)]: every positive
    feature is present and no negative feature is. *)
Definition matches (pos neg feats : list string) : Prop :=
  Forall (fun f => f ∈ feats) pos /\ Forall (fun f => f ∉ feats) neg.

#[export] Instance matches_dec pos neg feats : Decision (matches pos neg feats).
Proof. unfold matches. apply _. Defined.

(** The number of segments of the inventory whose parse matches. *)
Definition spec_count (pos neg inventory : list string)
    (parses : gmap string (list string)) : nat :=
  length (filter (fun seg => matches pos neg (lookup_parse parses seg)) inventory).

(** The loop body's decision for one segment: counted when neither
    inner loop sets [skipThis]. *)
Definition counted (pos neg parse : list string) : bool :=
  negb (neg_loop neg parse) && negb (pos_loop pos parse).

(** ** Lemmas on the loops *)

Lemma contains_spec slice element : contains slice element = true <-> element ∈ slice.
Proof.
  induction slice as [|s rest IH]; simpl.
  - split; [discriminate | intros ?%elem_of_nil; done].
  - rewrite elem_of_cons. case_decide; subst; [split; auto|].
    rewrite IH. naive_solver.
Qed.

Lemma contains_false slice element : contains slice element = false <-> element ∉ slice.
Proof. rewrite <- contains_spec. destruct (contains _ _); intuition congruence. Qed.

Lemma neg_loop_spec neg parse :
  neg_loop neg parse = true <-> exists f, f ∈ neg /\ f ∈ parse.
Proof.
  induction neg as [|f rest IH]; simpl.
  - split; [discriminate | intros (? & ?%elem_of_nil & _); done].
  - destruct (contains parse f) eqn:Hc.
    + apply contains_spec in Hc. split; [intros _ | done].
      exists f. split; [apply elem_of_cons; auto | done].
    + apply contains_false in Hc. rewrite IH.
      setoid_rewrite elem_of_cons. naive_solver.
Qed.

Lemma pos_loop_spec pos parse :
  pos_loop pos parse = true <-> exists f, f ∈ pos /\ f ∉ parse.
Proof.
  induction pos as [|f rest IH]; simpl.
  - split; [discriminate | intros (? & ?%elem_of_nil & _); done].
  - destruct (contains parse f) eqn:Hc; simpl.
    + apply contains_spec in Hc. rewrite IH.
      setoid_rewrite elem_of_cons. naive_solver.
    + apply contains_false in Hc. split; [intros _ | done].
      exists f. split; [apply elem_of_cons; auto | done].
Qed.

(** The two inner loops decide the abstract matcher. *)
Lemma counted_matches pos neg parse :
  counted pos neg parse = true <-> matches pos neg parse.
Proof.
  unfold counted, matches.
  rewrite andb_true_iff, !negb_true_iff, <- !not_true_iff_false.
  rewrite neg_loop_spec, pos_loop_spec, !Forall_forall.
  split.
  - intros [Hn Hp]. split; intros f Hf.
    + destruct (decide (f ∈ parse)); naive_solver.
    + naive_solver.
  - intros [Hp Hn]. split; naive_solver.
Qed.
(** ** The count loop *)

Lemma count_loop_spec pos neg parses inventory result :
  (0 <= result)%Z -> (result + Z.of_nat (length inventory) <= GoInt.max_int)%Z ->
  count_loop pos neg parses inventory result =
  (result + Z.of_nat (spec_count pos neg inventory parses))%Z.
Proof.
  unfold spec_count. revert result.
  induction inventory as [|seg rest IH]; intros result H0 Hmax; simpl; [lia|].
  rewrite filter_cons.
  pose proof (counted_matches pos neg (lookup_parse parses seg)) as Hc.
  unfold counted in Hc. simpl in Hmax.
  destruct (neg_loop _ _), (pos_loop _ _); simpl in Hc.
  1-3: rewrite decide_False by (rewrite <- Hc; discriminate); apply IH; lia.
  rewrite decide_True by (apply Hc; reflexivity). simpl.
  rewrite GoInt.add_small by (unfold GoInt.min_int, GoInt.max_int in *; lia).
  rewrite IH; lia.
Qed.

(** The loop computes the abstract count when [result++] cannot wrap. *)
Lemma GetCountForFeatures_spec_count pos neg inventory parses :
  (Z.of_nat (length inventory) <= GoInt.max_int)%Z ->
  GetCountForFeatures pos neg inventory parses =
  Z.of_nat (spec_count pos neg inventory parses).
Proof. intros H. unfold GetCountForFeatures. rewrite count_loop_spec; lia. Qed.

Lemma spec_count_le pos neg inventory parses :
  spec_count pos neg inventory parses <= length inventory.
Proof. apply length_filter. Qed.

(** A loop over segments none of which is counted leaves [result]
    unchanged. *)
Lemma count_loop_none pos neg parses inventory result :
  Forall (fun seg => counted pos neg (lookup_parse parses seg) = false) inventory ->
  count_loop pos neg parses inventory result = result.
Proof.
  induction 1 as [|seg rest Hs _ IH]; [done|]. simpl. unfold counted in Hs.
  destruct (neg_loop _ _), (pos_loop _ _); simpl in Hs; done.
Qed.

(** The loop adds at most one per segment, whatever the query. *)
Lemma count_loop_bounds pos neg parses inventory result :
  (0 <= result)%Z -> (result + Z.of_nat (length inventory) <= GoInt.max_int)%Z ->
  (result <= count_loop pos neg parses inventory result <= result + Z.of_nat (length inventory))%Z.
Proof.
  revert result. induction inventory as [|seg rest IH]; intros result H0 Hmax; simpl in *; [lia|].
  repeat case_match;
    first [ pose proof (IH result H0 ltac:(lia)); lia
          | rewrite GoInt.add_small by (unfold GoInt.min_int, GoInt.max_int in *; lia);
            pose proof (IH (result + 1)%Z ltac:(lia) ltac:(lia)); lia ].
Qed.

(** [GetCountForFeatures] with a fixed query and parse map is a counter. *)
#[export] Instance GetCountForFeatures_counter pos neg parses :
  InventoryCounter (fun inventory => GetCountForFeatures pos neg inventory parses).
Proof.
  intros inventory H. unfold GetCountForFeatures.
  pose proof (count_loop_bounds pos neg parses inventory 0 ltac:(lia) ltac:(lia)). lia.
Qed.
(** ** Properties of the count (section 8 of the spec) *)

(** One segment: the loop adds one exactly when the segment is counted. *)
Lemma GetCountForFeatures_single pos neg seg parses :
  GetCountForFeatures pos neg [seg] parses =
  if decide (matches pos neg (lookup_parse parses seg)) then 1%Z else 0%Z.
Proof.
  pose proof (counted_matches pos neg (lookup_parse parses seg)) as Hc.
  unfold GetCountForFeatures, counted in *. simpl.
  destruct (neg_loop _ _), (pos_loop _ _); simpl in Hc.
  1-3: rewrite decide_False by (rewrite <- Hc; discriminate); reflexivity.
  by rewrite decide_True by (by apply Hc).
Qed.

(** (C1) The segment matcher: [GetCountForFeatures] counts a
    one-segment inventory exactly when the segment's parse (empty when
    the segment is absent from the map) has every positive and no
    negative feature of the query, and otherwise returns 0. *)
Theorem GetCountForFeatures_matcher pos neg seg parses :
  (GetCountForFeatures pos neg [seg] parses = 1%Z <-> matches pos neg (lookup_parse parses seg)) /\
  (GetCountForFeatures pos neg [seg] parses = 0%Z <-> ~ matches pos neg (lookup_parse parses seg)).
Proof. rewrite GetCountForFeatures_single. case_decide; naive_solver. Qed.

(** (C2) Refinement: for any inventory a Go slice can hold,
    [GetCountForFeatures] returns the number of segments whose parse
    matches the query, a value between 0 and the inventory length
    ([result++] never wraps). *)
Theorem GetCountForFeatures_refines pos neg inventory parses :
  (Z.of_nat (length inventory) <= GoInt.max_int)%Z ->
  GetCountForFeatures pos neg inventory parses = Z.of_nat (spec_count pos neg inventory parses) /\
  (0 <= GetCountForFeatures pos neg inventory parses <= Z.of_nat (length inventory))%Z.
Proof.
  intros H. rewrite GetCountForFeatures_spec_count by done.
  pose proof (spec_count_le pos neg inventory parses). split; [done | lia].
Qed.

(** (C30) The empty query matches every segment: the count is the
    inventory length. *)
Theorem GetCountForFeatures_empty_query inventory parses :
  (Z.of_nat (length inventory) <= GoInt.max_int)%Z ->
  GetCountForFeatures [] [] inventory parses = Z.of_nat (length inventory).
Proof.
  intros H. rewrite GetCountForFeatures_spec_count by done. unfold spec_count.
  rewrite length_filter_all; [done|]. apply Forall_forall. by split.
Qed.

(** (C31) A segment whose parse is exactly [P] is counted by [(P, N)]
    and by [(∅, N)] when [P] and [N] are disjoint, and not by
    [(x :: P, N)] for a feature [x] outside [P]. *)
Theorem GetCountForFeatures_exact_parse P N seg parses x :
  parses !! seg = Some P -> P ## N -> x ∉ P ->
  GetCountForFeatures P N [seg] parses = 1%Z /\
  GetCountForFeatures [] N [seg] parses = 1%Z /\
  GetCountForFeatures (x :: P) N [seg] parses = 0%Z.
Proof.
  intros Hp Hd Hx. rewrite !GetCountForFeatures_single.
  unfold lookup_parse. rewrite Hp. simpl.
  assert (Forall (fun f => f ∉ P) N) as Hneg.
  { apply Forall_forall. intros f Hn Hf. by apply (Hd f). }
  repeat split.
  - rewrite decide_True; [done|]. split; [by apply Forall_forall | done].
  - rewrite decide_True; [done|]. by split.
  - rewrite decide_False; [done|]. intros [Hpos _]. by apply Forall_cons in Hpos as [? _].
Qed.

(** (C32) A segment absent from the parse map has no features: it is
    counted exactly by the queries with no positive feature. *)
Theorem GetCountForFeatures_absent pos neg seg parses :
  parses !! seg = None ->
  GetCountForFeatures pos neg [seg] parses = if decide (pos = []) then 1%Z else 0%Z.
Proof.
  intros Hs. rewrite GetCountForFeatures_single. unfold lookup_parse. rewrite Hs. simpl.
  unfold matches. case_decide as Hm; case_decide as Hp; subst; try done.
  - destruct Hm as [Hpos _]. destruct pos as [|f pos]; [done|].
    by apply Forall_cons in Hpos as [?%elem_of_nil _].
  - exfalso. apply Hm. split; [done|]. apply Forall_forall. by intros ? ? ?%elem_of_nil.
Qed.
Lemma matches_weaken pos neg pos' neg' feats :
  (forall f, f ∈ pos -> f ∈ pos') -> (forall f, f ∈ neg -> f ∈ neg') ->
  matches pos' neg' feats -> matches pos neg feats.
Proof. unfold matches. rewrite !Forall_forall. naive_solver. Qed.

(** (C33) Strengthening a query never increases the count: with more
    positive and more negative features, at most as many segments
    match. *)
Theorem GetCountForFeatures_antitone pos neg pos' neg' inventory parses :
  (Z.of_nat (length inventory) <= GoInt.max_int)%Z ->
  (forall f, f ∈ pos -> f ∈ pos') -> (forall f, f ∈ neg -> f ∈ neg') ->
  (GetCountForFeatures pos' neg' inventory parses <= GetCountForFeatures pos neg inventory parses)%Z.
Proof.
  intros Hlen Hp Hn. rewrite !GetCountForFeatures_spec_count by done.
  apply Nat2Z.inj_le, length_filter_mono. eauto using matches_weaken.
Qed.

(** (C34) The count depends on the inventory only as a multiset: a
    reordered inventory gives the same count. *)
Theorem GetCountForFeatures_perm pos neg inventory inventory' parses :
  (Z.of_nat (length inventory) <= GoInt.max_int)%Z ->
  inventory ≡ₚ inventory' ->
  GetCountForFeatures pos neg inventory parses = GetCountForFeatures pos neg inventory' parses.
Proof.
  intros Hlen Hperm. pose proof (Permutation_length Hperm) as Hl.
  rewrite !GetCountForFeatures_spec_count by lia. unfold spec_count. by rewrite Hperm.
Qed.

(** (C25) A malformed tag is not dropped: "+" becomes the positive
    feature "" and the query then counts no segment of any inventory
    whose parses never list "", instead of acting as the empty query. *)
Theorem malformed_tag_counts_nothing inventory parses :
  (forall seg, "" ∉ lookup_parse parses seg) ->
  ParseFeatures ["+"] = ([""], []) /\
  GetCountForFeatures (ParseFeatures ["+"]).1 (ParseFeatures ["+"]).2 inventory parses = 0%Z.
Proof.
  intros Hp. assert (ParseFeatures ["+"] = ([""], [])) as -> by (vm_compute; reflexivity).
  split; [done|]. apply count_loop_none, Forall_forall. intros seg _.
  unfold counted. simpl. destruct (contains _ "") eqn:Hc; [|done].
  apply contains_spec in Hc. by apply Hp in Hc.
Qed.

(** The scenario of the spec: ["+nasal"] against the inventory [m, p]
    with parses [m: [nasal], p: []] counts one segment. *)
Example GetCountForFeatures_nasal_scenario :
  GetCountForFeatures ["nasal"] [] ["m"; "p"]
    (list_to_map [("m", ["nasal"]); ("p", [])]) = 1%Z.
Proof. vm_compute. reflexivity. Qed.
(** ** Witnesses: the theorems at concrete inputs *)

Definition example_parses : gmap string (list string) :=
  list_to_map [("m", ["nasal"; "voice"]); ("p", []); ("b", ["voice"])].

Lemma example_length_ok : (Z.of_nat (length ["m"; "p"; "b"]) <= GoInt.max_int)%Z.
Proof. apply Z.leb_le. reflexivity. Defined.

Lemma GetCountForFeatures_refines_witness :
  (Z.of_nat (length ["m"; "p"; "b"]) <= GoInt.max_int)%Z /\
  GetCountForFeatures ["voice"] ["nasal"] ["m"; "p"; "b"] example_parses =
    Z.of_nat (spec_count ["voice"] ["nasal"] ["m"; "p"; "b"] example_parses) /\
  (0 <= GetCountForFeatures ["voice"] ["nasal"] ["m"; "p"; "b"] example_parses
     <= Z.of_nat (length ["m"; "p"; "b"]))%Z.
Proof.
  split; [exact example_length_ok|].
  exact (GetCountForFeatures_refines _ _ _ _ example_length_ok).
Defined.

Lemma GetCountForFeatures_empty_query_witness :
  (Z.of_nat (length ["m"; "p"; "b"]) <= GoInt.max_int)%Z /\
  GetCountForFeatures [] [] ["m"; "p"; "b"] example_parses = Z.of_nat (length ["m"; "p"; "b"]).
Proof.
  split; [exact example_length_ok|].
  exact (GetCountForFeatures_empty_query _ _ example_length_ok).
Defined.

Lemma GetCountForFeatures_exact_parse_witness :
  example_parses !! "m" = Some ["nasal"; "voice"] /\ (["nasal"; "voice"] ## ["syllabic"]) /\
  ("round" ∉ ["nasal"; "voice"]) /\
  (GetCountForFeatures ["nasal"; "voice"] ["syllabic"] ["m"] example_parses = 1%Z /\
   GetCountForFeatures [] ["syllabic"] ["m"] example_parses = 1%Z /\
   GetCountForFeatures ("round" :: ["nasal"; "voice"]) ["syllabic"] ["m"] example_parses = 0%Z).
Proof.
  assert (H1 : example_parses !! "m" = Some ["nasal"; "voice"]) by reflexivity.
  assert (H2 : ["nasal"; "voice"] ## ["syllabic"]) by set_solver.
  assert (H3 : "round" ∉ ["nasal"; "voice"]) by (apply (bool_decide_unpack _); vm_compute; exact I).
  split; [exact H1|]. split; [exact H2|]. split; [exact H3|].
  exact (GetCountForFeatures_exact_parse _ _ _ _ _ H1 H2 H3).
Defined.

Lemma GetCountForFeatures_absent_witness :
  example_parses !! "k" = None /\
  GetCountForFeatures [] ["voice"] ["k"] example_parses = (if decide (@nil string = []) then 1%Z else 0%Z).
Proof.
  assert (H : example_parses !! "k" = None) by reflexivity.
  split; [exact H | exact (GetCountForFeatures_absent _ _ _ _ H)].
Defined.

Lemma GetCountForFeatures_antitone_witness :
  (Z.of_nat (length ["m"; "p"; "b"]) <= GoInt.max_int)%Z /\
  (forall f, f ∈ ["voice"] -> f ∈ ["voice"; "nasal"]) /\ (forall f, f ∈ [] -> f ∈ ["round"]) /\
  (GetCountForFeatures ["voice"; "nasal"] ["round"] ["m"; "p"; "b"] example_parses
     <= GetCountForFeatures ["voice"] [] ["m"; "p"; "b"] example_parses)%Z.
Proof.
  assert (Hp : forall f, f ∈ ["voice"] -> f ∈ ["voice"; "nasal"]) by (intros f Hf; set_solver).
  assert (Hn : forall f, f ∈ @nil string -> f ∈ ["round"]) by (intros f Hf; set_solver).
  split; [exact example_length_ok|]. split; [exact Hp|]. split; [exact Hn|].
  exact (GetCountForFeatures_antitone _ _ _ _ _ _ example_length_ok Hp Hn).
Defined.

Lemma GetCountForFeatures_perm_witness :
  (Z.of_nat (length ["m"; "p"; "b"]) <= GoInt.max_int)%Z /\
  ["m"; "p"; "b"] ≡ₚ ["b"; "m"; "p"] /\
  GetCountForFeatures ["voice"] [] ["m"; "p"; "b"] example_parses =
    GetCountForFeatures ["voice"] [] ["b"; "m"; "p"] example_parses.
Proof.
  assert (Hp : ["m"; "p"; "b"] ≡ₚ ["b"; "m"; "p"]) by (apply (bool_decide_unpack _); vm_compute; exact I).
  split; [exact example_length_ok|]. split; [exact Hp|].
  exact (GetCountForFeatures_perm _ _ _ _ _ example_length_ok Hp).
Defined.
Lemma malformed_tag_counts_nothing_witness :
  (forall seg, "" ∉ lookup_parse example_parses seg) /\
  (ParseFeatures ["+"] = ([""], []) /\
   GetCountForFeatures (ParseFeatures ["+"]).1 (ParseFeatures ["+"]).2 ["m"; "b"; "p"] example_parses = 0%Z).
Proof.
  assert (H : forall seg, "" ∉ lookup_parse example_parses seg).
  { assert (Hm : map_Forall (fun _ v => "" ∉ v) example_parses)
      by (apply (bool_decide_unpack _); vm_compute; exact I).
    intros seg. unfold lookup_parse. destruct (example_parses !! seg) eqn:E; simpl;
      [exact (Hm _ _ E) | apply not_elem_of_nil]. }
  split; [exact H | exact (malformed_tag_counts_nothing _ _ H)].
Defined.
End FeatureCounts.
