(* ===== verification/Comparator.v ===== *)
(** * The comparator: [featurecounts.CheckDiff]

    [CheckDiff(op, diff)] switches on the operator string, in the order
    "=", "<", "<=", ">", ">=", and compares [diff] with 0; any other
    string reaches [log.Fatal(fmt.Sprintf("Comparison operator not
    recognised: %s", op))].  The model returns [Ok b] for the boolean
    and [Fatal msg] with the formatted message.

    The abstract view is a relational operator [cmp_op] parsed from the
    string ([parse_op]) and denoted as a proposition on [Z]
    ([op_holds]); [CheckDiff_parse_op] is the refinement.  Further theorems:
    the fatal path does not depend on the difference, the operators'
    monotonicity and trichotomy, and that comparing [a - b] with 0 is
    comparing [a] with [b]. *)

From S2P Require Import Prelude.

Module Comparator.
Local Open Scope Z_scope.

(** [fmt.Sprintf("Comparison operator not recognised: %s", op)]. *)
Definition not_recognised (op : string) : string :=
  "Comparison operator not recognised: " +:+ op.

(** [func CheckDiff(op string, diff int) bool]. *)
Definition CheckDiff (op : string) (diff : Z) : result string bool :=
  if decide (op = "=") then Ok (diff =? 0)
  else if decide (op = "<") then Ok (diff <? 0)
  else if decide (op = "<=") then Ok (diff <=? 0)
  else if decide (op = ">") then Ok (0 <? diff)
  else if decide (op = ">=") then Ok (0 <=? diff)
  else Fatal (not_recognised op).

(** ** The abstract operators *)

Inductive cmp_op := OpEq | OpLt | OpLe | OpGt | OpGe.

#[export] Instance cmp_op_eq_dec : EqDecision cmp_op.
Proof. solve_decision. Defined.

Definition parse_op (op : string) : option cmp_op :=
  if decide (op = "=") then Some OpEq
  else if decide (op = "<") then Some OpLt
  else if decide (op = "<=") then Some OpLe
  else if decide (op = ">") then Some OpGt
  else if decide (op = ">=") then Some OpGe
  else None.

(** The operator with its operands swapped: "<" and ">", "<=" and
    ">=" exchange, "=" and every unrecognised string stay. *)
Definition flip_op (op : string) : string :=
  if decide (op = "<") then ">" else if decide (op = ">") then "<"
  else if decide (op = "<=") then ">=" else if decide (op = ">=") then "<="
  else op.

(** The relation [a op b] between two integers. *)
Definition op_rel (o : cmp_op) (a b : Z) : Prop :=
  match o with
  | OpEq => a = b
  | OpLt => a < b
  | OpLe => a <= b
  | OpGt => a > b
  | OpGe => a >= b
  end.

#[export] Instance op_rel_dec o a b : Decision (op_rel o a b).
Proof. destruct o; simpl; apply _. Defined.

(** [diff op 0]. *)
Definition op_holds (o : cmp_op) (diff : Z) : Prop := op_rel o diff 0.

Lemma bool_of_holds o diff (b : bool) :
  (b = true <-> op_holds o diff) -> b = bool_decide (op_holds o diff).
Proof. intros H. apply Bool.eq_iff_eq_true. by rewrite H, bool_decide_eq_true. Qed.

(** ** Theorems *)

(** [CheckDiff] through the abstract operator. *)
Lemma CheckDiff_parse_op op diff :
  CheckDiff op diff =
  match parse_op op with
  | Some o => Ok (bool_decide (op_holds o diff))
  | None => Fatal (not_recognised op)
  end.
Proof.
  unfold CheckDiff, parse_op.
  repeat case_decide; subst; try done; f_equal; apply bool_of_holds; unfold op_holds; simpl;
    rewrite ?Z.eqb_eq, ?Z.ltb_lt, ?Z.leb_le; lia.
Qed.
(** The recognised operator strings. *)
Definition recognised_ops : list string := ["="; "<"; "<="; ">"; ">="].

Lemma parse_op_Some op : is_Some (parse_op op) <-> op ∈ recognised_ops.
Proof.
  unfold parse_op, recognised_ops. rewrite !elem_of_cons, elem_of_nil.
  repeat case_decide; subst; split; try (intros; by eauto); naive_solver.
Qed.

Lemma CheckDiff_unrecognised op diff :
  op ∉ recognised_ops -> CheckDiff op diff = Fatal (not_recognised op).
Proof.
  intros Hop. rewrite CheckDiff_parse_op. destruct (parse_op op) eqn:E; [|done].
  exfalso. apply Hop, parse_op_Some. by rewrite E.
Qed.

(** (C8) The fatal path depends on the operator only: [CheckDiff]
    fails, with the same message, for every difference exactly when
    the operator is not one of the five recognised strings. *)
Theorem CheckDiff_fatal op diff :
  CheckDiff op diff = Fatal (not_recognised op) <-> op ∉ recognised_ops.
Proof.
  rewrite CheckDiff_parse_op, <- parse_op_Some.
  destruct (parse_op op); split; intros H.
  - discriminate.
  - exfalso. apply H. by eexists.
  - by intros [? ?].
  - reflexivity.
Qed.

(** (C4) Refinement: [CheckDiff] returns a boolean exactly for the
    operators [parse_op] recognises, and that boolean says whether
    [diff op 0] holds. *)
Theorem CheckDiff_refines op diff b :
  CheckDiff op diff = Ok b <->
  exists o, parse_op op = Some o /\ b = bool_decide (op_holds o diff).
Proof.
  rewrite CheckDiff_parse_op. destruct (parse_op op) as [o|]; split.
  - intros [= <-]. by exists o.
  - by intros (o' & [= <-] & ->).
  - discriminate.
  - by intros (? & ? & _).
Qed.

Lemma CheckDiff_not_fatal op diff :
  op ∈ recognised_ops -> exists b, CheckDiff op diff = Ok b.
Proof.
  rewrite CheckDiff_parse_op, <- parse_op_Some. intros [o ->]. by eexists.
Qed.

(** Monotonicity: a difference below zero passes "<=", and one
    above zero passes ">=". *)
Theorem CheckDiff_lt_le diff :
  (CheckDiff "<" diff = Ok true -> CheckDiff "<=" diff = Ok true) /\
  (CheckDiff ">" diff = Ok true -> CheckDiff ">=" diff = Ok true).
Proof.
  rewrite !CheckDiff_parse_op. simpl. unfold op_holds. simpl.
  split; intros [= H%bool_decide_eq_true]; f_equal; apply bool_decide_eq_true; lia.
Qed.

(** Trichotomy: exactly one of "<", "=" and ">" accepts a
    difference. *)
Theorem CheckDiff_trichotomy diff :
  exists b1 b2 b3,
    CheckDiff "<" diff = Ok b1 /\ CheckDiff "=" diff = Ok b2 /\ CheckDiff ">" diff = Ok b3 /\
    ((b1 && negb b2 && negb b3) || (negb b1 && b2 && negb b3) || (negb b1 && negb b2 && b3))%bool = true.
Proof.
  rewrite !CheckDiff_parse_op. simpl. do 3 eexists. do 3 (split; [reflexivity|]).
  unfold op_holds; simpl.
  destruct (Z.lt_trichotomy diff 0) as [H|[H|H]];
    repeat first [rewrite bool_decide_true by lia | rewrite bool_decide_false by lia]; done.
Qed.

(** Comparing a difference with 0 is comparing its two terms. *)
Lemma op_holds_sub o a b : op_holds o (a - b) <-> op_rel o a b.
Proof. destruct o; unfold op_holds; simpl; lia. Qed.

(** [CheckDiff] accepts a difference exactly when [diff op 0] holds. *)
Lemma CheckDiff_true op o diff :
  parse_op op = Some o -> CheckDiff op diff = Ok true <-> op_holds o diff.
Proof.
  intros Hop. rewrite CheckDiff_parse_op, Hop. split.
  - intros [= H]. by apply bool_decide_eq_true in H.
  - intros H. f_equal. by apply bool_decide_eq_true.
Qed.

(** [CheckDiff] on an exact difference [a - b] decides [a op b]. *)
Lemma CheckDiff_sub op o a b :
  parse_op op = Some o -> CheckDiff op (a - b) = Ok true <-> op_rel o a b.
Proof.
  intros Hop. by rewrite (CheckDiff_true _ _ _ Hop), op_holds_sub.
Qed.

(** Negating the difference and flipping the operator gives the same
    answer, or the same fatal message. *)
Lemma CheckDiff_flip op diff : CheckDiff (flip_op op) (- diff) = CheckDiff op diff.
Proof.
  unfold flip_op, CheckDiff. repeat case_decide; subst;
    repeat first [ rewrite decide_True by reflexivity | rewrite decide_False by discriminate ];
    try done; f_equal; apply Bool.eq_iff_eq_true; rewrite ?Z.ltb_lt, ?Z.leb_le, ?Z.eqb_eq; lia.
Qed.

(** The comparator facts listed by the spec, and the fatal
    message for "!=". *)
Example CheckDiff_at_zero :
  CheckDiff "=" 0 = Ok true /\ CheckDiff ">=" 0 = Ok true /\ CheckDiff "<" 0 = Ok false /\
  CheckDiff "!=" 0 = Fatal "Comparison operator not recognised: !=".
Proof. vm_compute. repeat split. Qed.
(** ** Witnesses *)

Lemma CheckDiff_lt_le_witness :
  CheckDiff "<" (-1) = Ok true /\ CheckDiff "<=" (-1) = Ok true /\
  CheckDiff ">" 2 = Ok true /\ CheckDiff ">=" 2 = Ok true.
Proof.
  assert (H1 : CheckDiff "<" (-1) = Ok true) by reflexivity.
  assert (H2 : CheckDiff ">" 2 = Ok true) by reflexivity.
  split_and!; [exact H1 | exact (proj1 (CheckDiff_lt_le (-1)) H1) |
               exact H2 | exact (proj2 (CheckDiff_lt_le 2) H2)].
Defined.
End Comparator.
