(* ===== verification/PhonemeCount.v ===== *)
(** * Phoneme presence: [phonemequery.getCountForPhoneme]

    [getCountForPhoneme(phoneme, inventory)] ranges over the inventory
    and, at the first segment equal to the phoneme, sets [result = 1]
    and breaks; otherwise [result] stays 0.  The loop with its [break]
    is the [Fixpoint] below: the first match returns 1 without looking
    at the rest.

    Theorems: the count is the presence indicator of the phoneme (1 if
    it occurs, else 0), whatever the number of occurrences; it is a
    counter in the sense of [InventoryCounter]. *)

From S2P Require Import Prelude.

Module PhonemeCount.
Local Open Scope Z_scope.

(** [func getCountForPhoneme(phoneme string, inventory []string) (result int)]. *)
Fixpoint getCountForPhoneme (phoneme : string) (inventory : list string) : Z :=
  match inventory with
  | [] => 0
  | segment :: rest => if decide (segment = phoneme) then 1 else getCountForPhoneme phoneme rest
  end.

(** The count is the presence indicator of the phoneme. *)
Lemma getCountForPhoneme_indicator phoneme inventory :
  getCountForPhoneme phoneme inventory = if decide (phoneme ∈ inventory) then 1 else 0.
Proof.
  induction inventory as [|segment rest IH]; cbn [getCountForPhoneme].
  - rewrite decide_False; [done|]. apply not_elem_of_nil.
  - destruct (decide (segment = phoneme)) as [Hs|Hs]; subst.
    + rewrite decide_True; [done|]. apply list_elem_of_here.
    + rewrite IH. apply decide_ext. rewrite elem_of_cons. naive_solver.
Qed.

(** (C7) The phoneme count is 1 exactly when the phoneme occurs in the
    inventory and 0 exactly when it does not, however often it occurs:
    the loop stops at the first occurrence. *)
Theorem getCountForPhoneme_presence phoneme inventory :
  (getCountForPhoneme phoneme inventory = 1 <-> phoneme ∈ inventory) /\
  (getCountForPhoneme phoneme inventory = 0 <-> phoneme ∉ inventory).
Proof. rewrite getCountForPhoneme_indicator. case_decide; naive_solver. Qed.

#[export] Instance getCountForPhoneme_counter phoneme :
  InventoryCounter (getCountForPhoneme phoneme).
Proof.
  intros inventory _. rewrite getCountForPhoneme_indicator.
  case_decide as H; [|lia].
  destruct inventory; [by apply not_elem_of_nil in H | simpl; lia].
Qed.
End PhonemeCount.
