(* ===== verification/QueryEval.v ===== *)
(** * The query evaluator: the [main] functions of the three drivers

    Each driver ends with the same loop:
    [for languageID, inventory := range inventories { diff = ...;
     if fc.CheckDiff(op, diff) { intID, err := strconv.Atoi(languageID);
     if err != nil { log.Fatal(err) }; result = append(result, intID) } }].
    The order of a Go [range] over a map is unspecified; the model takes
    it as an explicit list [order] of the map's entries, any permutation
    of [map_to_list inventories] ([range_order]).  [select_loop] is the
    loop, in a Section whose variables are the operator and the function
    computing [diff] from an inventory; the three drivers instantiate it:
    [comparisonquery] ([count1 - count2]), [countquery]
    ([count_diff], [count - target]) and [phonemequery]
    ([count - target] with the phoneme count).  [log.Fatal] is [Fatal] with the two possible causes
    ([fatal]).

    Theorems: the outcome does not depend on the range order (up to the
    order of the result, [≈ᵣ]); what the result contains; when the run is
    fatal; and, per driver, the refinement against the spec's selection
    of languages; swapping the queries of a comparison with the operator
    flipped ([comparisonquery_converse]). *)

From S2P Require Import Prelude GoStrconv FeatureQuery FeatureCounts Comparator PhonemeCount.
Import GoStrconv FeatureQuery FeatureCounts Comparator PhonemeCount.

Module QueryEval.
Local Open Scope Z_scope.
Local Open Scope result_scope.

(** The two [log.Fatal] calls of the loop. *)
Inductive fatal :=
| CheckDiffFatal (msg : string)
| AtoiFatal (languageID : string) (err : NumErrorKind).

(** The Go [range] over [inventories] visits its entries in [order]. *)
Definition range_order (inventories : gmap string (list string))
    (order : list (string * list string)) : Prop :=
  order ≡ₚ map_to_list inventories.

Section Selection.
Context (op : string) (diff_of : list string -> Z).

(** The loop, with [acc] for the [result] slice. *)
Fixpoint select_loop (order : list (string * list string)) (acc : list Z)
    : result fatal (list Z) :=
  match order with
  | [] => Ok acc
  | (languageID, inventory) :: rest =>
      selected <-? map_err CheckDiffFatal (CheckDiff op (diff_of inventory)) ;;
      if selected then
        intID <-? map_err (AtoiFatal languageID) (Atoi languageID) ;;
        select_loop rest (acc ++ [intID])
      else select_loop rest acc
  end.

(** One entry's contribution: [None] to skip it, [Some id] to append. *)
Definition entry_step (e : string * list string) : result fatal (option Z) :=
  selected <-? map_err CheckDiffFatal (CheckDiff op (diff_of e.2)) ;;
  if selected then Some <$> map_err (AtoiFatal e.1) (Atoi e.1) else Ok None.

Definition cons_opt (o : option Z) (l : list Z) : list Z :=
  match o with Some z => z :: l | None => l end.

Lemma select_loop_acc order acc :
  select_loop order acc = (app acc) <$> select_loop order [].
Proof.
  revert acc. induction order as [|[lid inv] rest IH]; intros acc; simpl; [by rewrite app_nil_r|].
  destruct (CheckDiff _ _) as [[]|]; simpl; [|done..].
  destruct (Atoi lid); simpl; [|done].
  rewrite IH, (IH [_]). destruct (select_loop rest []); simpl; by rewrite <- ?app_assoc.
Qed.

(** The loop unrolled once: the head entry's step, then the rest. *)
Lemma select_loop_cons e order :
  select_loop (e :: order) [] =
  (o <-? entry_step e ;; cons_opt o <$> select_loop order []).
Proof.
  destruct e as [lid inv]. unfold entry_step. simpl.
  destruct (CheckDiff _ _) as [[]|]; simpl.
  - destruct (Atoi lid); simpl; [|done]. rewrite select_loop_acc.
    by destruct (select_loop order []).
  - by destruct (select_loop order []).
  - done.
Qed.

#[export] Instance cons_opt_fmap_proper o :
  Proper (result_perm ==> result_perm) (fmap (M := result fatal) (cons_opt o)).
Proof. destruct o; simpl; [apply _|]. intros [] [] H; simpl in *; done. Qed.

Lemma result_perm_bind_step e r1 r2 :
  r1 ≈ᵣ r2 ->
  (o <-? entry_step e ;; cons_opt o <$> r1) ≈ᵣ (o <-? entry_step e ;; cons_opt o <$> r2).
Proof.
  intros H. destruct (entry_step e); simpl; [|done]. by rewrite H.
Qed.

(** Order independence of the loop: two range orders that are permutations
    of each other give the same outcome up to the order of the
    result (both fail, or both succeed with permuted lists). *)
Theorem select_loop_perm order order' :
  order ≡ₚ order' -> select_loop order [] ≈ᵣ select_loop order' [].
Proof.
  induction 1 as [|e l l' _ IH|e1 e2 l|l1 l2 l3 _ IH1 _ IH2].
  - done.
  - rewrite !select_loop_cons. by apply result_perm_bind_step.
  - rewrite !select_loop_cons.
    destruct (entry_step e1) as [[z1|]|], (entry_step e2) as [[z2|]|]; simpl; try done;
      destruct (select_loop l []); simpl; try done; by constructor.
  - by etrans.
Qed.
Lemma entry_step_Some e z :
  entry_step e = Ok (Some z) <->
  CheckDiff op (diff_of e.2) = Ok true /\ Atoi e.1 = Ok z.
Proof.
  unfold entry_step. destruct (CheckDiff _ _) as [[]|]; simpl;
    [destruct (Atoi e.1)|..]; simpl; naive_solver.
Qed.

(** What the result holds: when the loop succeeds, an integer is
    in the result exactly when some visited entry passed [CheckDiff]
    and its identifier parses to that integer. *)
Theorem select_loop_elem order r z :
  select_loop order [] = Ok r ->
  z ∈ r <-> exists e, e ∈ order /\ CheckDiff op (diff_of e.2) = Ok true /\ Atoi e.1 = Ok z.
Proof.
  revert r. induction order as [|e order IH]; intros r.
  - intros [= <-]. split; [by intros ?%elem_of_nil | by intros (? & ?%elem_of_nil & _)].
  - rewrite select_loop_cons.
    destruct (entry_step e) as [o|] eqn:He; [|discriminate]. simpl.
    destruct (select_loop order []) as [r'|]; [|discriminate]. intros [= <-].
    specialize (IH r' eq_refl).
    destruct o as [z'|]; simpl; setoid_rewrite elem_of_cons; rewrite IH.
    + apply entry_step_Some in He as [Hc Ha]. split.
      * intros [->|(e0 & ? & ? & ?)]; [exists e; eauto | exists e0; eauto].
      * intros (e0 & [->|?] & ? & ?); [left; congruence | right; eauto].
    + split; [naive_solver|]. intros [e' [[->|He'] [Hc Ha]]]; [|naive_solver].
      assert (entry_step e = Ok (Some z)) by (by apply entry_step_Some). congruence.
Qed.

Lemma entry_step_ok e :
  is_ok (entry_step e) = true <->
  (exists b, CheckDiff op (diff_of e.2) = Ok b) /\
  (CheckDiff op (diff_of e.2) = Ok true -> exists z, Atoi e.1 = Ok z).
Proof.
  unfold entry_step. destruct (CheckDiff _ _) as [[]|]; simpl;
    [destruct (Atoi e.1)|..]; simpl; naive_solver.
Qed.

(** When the loop fails: it succeeds exactly when every visited
    entry has a recognised comparison and every selected entry a
    numeric identifier. *)
Theorem select_loop_ok order :
  is_ok (select_loop order []) = true <->
  Forall (fun e => (exists b, CheckDiff op (diff_of e.2) = Ok b) /\
                   (CheckDiff op (diff_of e.2) = Ok true -> exists z, Atoi e.1 = Ok z)) order.
Proof.
  induction order as [|e order IH]; [split; [constructor | done]|].
  rewrite select_loop_cons, Forall_cons, <- IH, <- entry_step_ok.
  destruct (entry_step e), (select_loop order []); simpl; naive_solver.
Qed.

(** With an unrecognised operator the loop fails at the first entry,
    with the same message whatever the order; an empty map never
    reaches [CheckDiff]. *)
Lemma select_loop_bad_op order :
  op ∉ recognised_ops ->
  select_loop order [] =
  match order with
  | [] => Ok []
  | _ => Fatal (CheckDiffFatal (not_recognised op))
  end.
Proof.
  intros Hop. destruct order as [|[lid inv] order]; [done|]. simpl.
  by rewrite CheckDiff_unrecognised.
Qed.
End Selection.
(** ** The loop over a map visited in a range order *)

Lemma range_order_elem inventories order e :
  range_order inventories order -> e ∈ order <-> inventories !! e.1 = Some e.2.
Proof. intros Ho. unfold range_order in Ho. destruct e. by rewrite Ho, elem_of_map_to_list. Qed.

Lemma select_loop_elem_map inventories order op diff_of r z :
  range_order inventories order ->
  select_loop op diff_of order [] = Ok r ->
  z ∈ r <-> exists languageID inventory,
    inventories !! languageID = Some inventory /\
    CheckDiff op (diff_of inventory) = Ok true /\ Atoi languageID = Ok z.
Proof.
  intros Ho Hr. rewrite (select_loop_elem _ _ _ _ _ Hr). split.
  - intros ([lid inv] & He & ? & ?). apply (range_order_elem _ _ _ Ho) in He. eauto.
  - intros (lid & inv & He & ? & ?). exists (lid, inv).
    by rewrite (range_order_elem _ _ _ Ho).
Qed.

(** (C28) When a run fails: the loop over any range order of the map
    succeeds exactly when every language has a recognised comparison
    and every selected language a numeric identifier. *)
Theorem select_loop_ok_map inventories order op diff_of :
  range_order inventories order ->
  is_ok (select_loop op diff_of order []) = true <->
  map_Forall (fun languageID inventory =>
    (exists b, CheckDiff op (diff_of inventory) = Ok b) /\
    (CheckDiff op (diff_of inventory) = Ok true -> exists z, Atoi languageID = Ok z))
    inventories.
Proof.
  intros Ho. rewrite select_loop_ok, Forall_forall, map_Forall_lookup. split.
  - intros H lid inv Hl. apply (H (lid, inv)). by apply (range_order_elem _ _ _ Ho).
  - intros H [lid inv] He. apply (range_order_elem _ _ _ Ho) in He. by apply H.
Qed.

(** A Go [int] difference of two counts of inventories a slice can hold
    never wraps. *)
Lemma sub_counts_exact (count1 count2 : list string -> Z)
    `{!InventoryCounter count1} `{!InventoryCounter count2} inventory :
  (Z.of_nat (length inventory) <= GoInt.max_int) ->
  GoInt.sub (count1 inventory) (count2 inventory) = count1 inventory - count2 inventory.
Proof.
  intros H. pose proof (count_bounds (count := count1) inventory H).
  pose proof (count_bounds (count := count2) inventory H).
  apply GoInt.sub_small. unfold GoInt.min_int, GoInt.max_int in *. lia.
Qed.

(** Two loops whose [CheckDiff] calls agree on every entry run alike. *)
Lemma select_loop_ext op op' diff_of diff_of' order acc :
  (forall languageID inventory, (languageID, inventory) ∈ order ->
     CheckDiff op (diff_of inventory) = CheckDiff op' (diff_of' inventory)) ->
  select_loop op diff_of order acc = select_loop op' diff_of' order acc.
Proof.
  revert acc. induction order as [|[lid inv] rest IH]; intros acc Hc; [done|]. simpl.
  rewrite (Hc lid inv) by by left.
  assert (forall acc', select_loop op diff_of rest acc' = select_loop op' diff_of' rest acc') as IH'
    by (intros acc'; apply IH; intros l i Hi; apply (Hc l); by right).
  destruct (CheckDiff op' _) as [[]|]; simpl; [destruct (Atoi lid)|..]; simpl; by rewrite ?IH'.
Qed.

Lemma range_order_nil inventories order :
  range_order inventories order -> order = [] <-> inventories = ∅.
Proof.
  intros Ho. unfold range_order in Ho. rewrite <- map_to_list_empty_iff. split.
  - intros ->. by apply Permutation_nil in Ho.
  - intros He. rewrite He in Ho. symmetry in Ho. by apply Permutation_nil in Ho.
Qed.

Lemma select_loop_bad_op_map inventories order op diff_of :
  range_order inventories order -> op ∉ recognised_ops ->
  select_loop op diff_of order [] =
  if decide (inventories = ∅) then Ok [] else Fatal (CheckDiffFatal (not_recognised op)).
Proof.
  intros Ho Hop. rewrite select_loop_bad_op by done.
  pose proof (range_order_nil _ _ Ho) as Hn.
  destruct order; case_decide; naive_solver.
Qed.

(** Every integer a run prints is a Go [int]: [Atoi] never returns a
    value outside the 64-bit range. *)
Lemma select_loop_int_range op diff_of order r :
  select_loop op diff_of order [] = Ok r ->
  Forall (fun z => GoInt.min_int <= z <= GoInt.max_int) r.
Proof.
  intros Hr. apply Forall_forall. intros z Hz.
  apply (select_loop_elem _ _ _ _ _ Hr) in Hz as (e & _ & _ & Ha).
  by apply Atoi_range in Ha.
Qed.

(** Whether an entry is selected and its identifier parses to [z]. *)
Definition selects_as (op : string) (diff_of : list string -> Z) (z : Z) (e : string * list string) : bool :=
  match CheckDiff op (diff_of e.2), Atoi e.1 with
  | Ok true, Ok z' => bool_decide (z' = z)
  | _, _ => false
  end.

(** How often an integer is printed: once per selected entry whose
    identifier parses to it. *)
Lemma select_loop_count_occ op diff_of order r z :
  select_loop op diff_of order [] = Ok r ->
  count_occ Z.eq_dec r z = length (List.filter (selects_as op diff_of z) order).
Proof.
  revert r. induction order as [|[lid inv] order IH]; intros r; [by intros [= <-]|].
  rewrite select_loop_cons. unfold entry_step. cbn [List.filter]. unfold selects_as at 1. cbn [fst snd].
  destruct (select_loop op diff_of order []) as [r'|] eqn:Hr;
    destruct (CheckDiff op (diff_of inv)) as [[]|]; cbn beta iota;
    try (destruct (Atoi lid) as [z'|]); cbn; try discriminate; intros [= <-];
    specialize (IH r' eq_refl); rewrite <- ?IH; try done.
  cbn [count_occ]. destruct (Z.eq_dec z' z); case_bool_decide; cbn [length]; rewrite ?IH; congruence.
Qed.

Lemma two_in_filter {A} (P : A -> bool) l x y :
  x <> y -> x ∈ l -> y ∈ l -> P x = true -> P y = true -> (2 <= length (List.filter P l))%nat.
Proof.
  intros Hne Hx Hy Px Py.
  assert (In x (List.filter P l)) as Hx' by (apply filter_In; split; [by apply list_elem_of_In | done]).
  assert (In y (List.filter P l)) as Hy' by (apply filter_In; split; [by apply list_elem_of_In | done]).
  destruct (List.filter P l) as [|a [|b t]]; simpl in *; [done | naive_solver | lia].
Qed.

(** An unselected entry can be dropped from the loop. *)
Lemma select_loop_unselected op diff_of lid inv order :
  CheckDiff op (diff_of inv) = Ok false ->
  select_loop op diff_of ((lid, inv) :: order) [] = select_loop op diff_of order [].
Proof. intros Hc. simpl. by rewrite Hc. Qed.

(** ** [comparisonquery/main.go] *)

(** Lines 41-55 of [main], on the two [(posFeatures, negFeatures)]
    pairs [readOneSetOfFeatures] returns: [diff = count1 - count2] per
    language. *)
Definition comparisonquery (parses : gmap string (list string)) (op : string)
    (features1 features2 : list string * list string) (order : list (string * list string))
    : result fatal (list Z) :=
  let '(posFeatures1, negFeatures1) := features1 in
  let '(posFeatures2, negFeatures2) := features2 in
  select_loop op
    (fun inventory =>
       GoInt.sub (GetCountForFeatures posFeatures1 negFeatures1 inventory parses)
                 (GetCountForFeatures posFeatures2 negFeatures2 inventory parses))
    order [].

(** The spec's selection for a comparison query: the number of
    segments matching query 1 stands in relation [o] to the number
    matching query 2. *)
Definition comparison_selects (parses : gmap string (list string)) (o : cmp_op)
    (features1 features2 : list string * list string) (inventory : list string) : Prop :=
  op_rel o
    (Z.of_nat (spec_count features1.1 features1.2 inventory parses))
    (Z.of_nat (spec_count features2.1 features2.2 inventory parses)).

(** Membership in the comparison query's result (the proof of [comparisonquery_refines], shared with the whole-program theorems). *)
Lemma comparisonquery_members inventories parses op o features1 features2 order r z :
  range_order inventories order -> parse_op op = Some o ->
  map_Forall (fun _ inventory => Z.of_nat (length inventory) <= GoInt.max_int) inventories ->
  comparisonquery parses op features1 features2 order = Ok r ->
  z ∈ r <-> exists languageID inventory,
    inventories !! languageID = Some inventory /\ Atoi languageID = Ok z /\
    comparison_selects parses o features1 features2 inventory.
Proof.
  intros Ho Hop Hlen. unfold comparisonquery, comparison_selects.
  destruct features1 as [p1 n1], features2 as [p2 n2]. simpl.
  intros Hr. rewrite (select_loop_elem_map _ _ _ _ _ _ Ho Hr).
  apply exist_proper; intros lid. apply exist_proper; intros inv.
  split; intros (Hl & H1 & H2); (split; [done|]);
    pose proof (Hlen _ _ Hl) as Hinv; simpl in Hinv;
    rewrite (sub_counts_exact (fun i => GetCountForFeatures p1 n1 i parses)
               (fun i => GetCountForFeatures p2 n2 i parses) inv Hinv),
      (CheckDiff_sub _ _ _ _ Hop), !GetCountForFeatures_spec_count in * by done; done.
Qed.

(** (C6) Refinement of the comparison query: when it succeeds with a
    recognised operator, an integer is printed exactly when some
    language of the map has that numeric identifier and its two
    feature counts stand in the operator's relation. *)
Theorem comparisonquery_refines inventories parses op o features1 features2 order r z :
  range_order inventories order -> parse_op op = Some o ->
  map_Forall (fun _ inventory => Z.of_nat (length inventory) <= GoInt.max_int) inventories ->
  comparisonquery parses op features1 features2 order = Ok r ->
  z ∈ r <-> exists languageID inventory,
    inventories !! languageID = Some inventory /\ Atoi languageID = Ok z /\
    comparison_selects parses o features1 features2 inventory.
Proof. apply comparisonquery_members. Qed.
(** (C13) Equivalence under swapping the two queries: for inventories
    a Go slice can hold, comparing query 2 with query 1 under the
    flipped operator ("<" for ">", "<=" for ">=", "=" and unrecognised
    strings unchanged) runs exactly as comparing query 1 with query 2,
    result, order and fatal error alike: [count2 - count1] never
    wraps. *)
Theorem comparisonquery_converse parses op features1 features2 order :
  Forall (fun e => Z.of_nat (length e.2) <= GoInt.max_int) order ->
  comparisonquery parses (flip_op op) features2 features1 order =
  comparisonquery parses op features1 features2 order.
Proof.
  intros Hlen. unfold comparisonquery. destruct features1 as [p1 n1], features2 as [p2 n2].
  apply select_loop_ext. intros lid inv Hin.
  pose proof (proj1 (Forall_forall _ _) Hlen _ Hin) as Hinv. simpl in Hinv.
  rewrite (sub_counts_exact (fun i => GetCountForFeatures p2 n2 i parses)
             (fun i => GetCountForFeatures p1 n1 i parses) inv Hinv),
    (sub_counts_exact (fun i => GetCountForFeatures p1 n1 i parses)
             (fun i => GetCountForFeatures p2 n2 i parses) inv Hinv).
  rewrite <- (CheckDiff_flip op). f_equal. lia.
Qed.

(** A loop whose [CheckDiff] rejects every entry prints nothing and
    never converts an identifier. *)
Lemma select_loop_none op diff_of order acc :
  (forall inventory, CheckDiff op (diff_of inventory) = Ok false) ->
  select_loop op diff_of order acc = Ok acc.
Proof.
  intros Hc. revert acc. induction order as [|[lid inv] rest IH]; intros acc; [done|].
  simpl. rewrite Hc. apply IH.
Qed.

(** A query compared with itself under a strict operator selects
    no language: every [diff] is [count - count = 0], so the program
    prints [[]] whatever the inventories, parses and identifiers (a
    non-numeric identifier is never converted). *)
Theorem comparisonquery_self_strict parses features order :
  comparisonquery parses "<" features features order = Ok [] /\
  comparisonquery parses ">" features features order = Ok [].
Proof.
  unfold comparisonquery. destruct features as [p n].
  split; apply select_loop_none; intros inv; rewrite GoInt.sub_small, Z.sub_diag by
    (unfold GoInt.min_int, GoInt.max_int; lia); reflexivity.
Qed.

(** ** [countquery/main.go] *)

(** [count := fc.GetCountForFeatures(...); diff = count - target]. *)
Definition count_diff (posFeatures negFeatures : list string) (parses : gmap string (list string))
    (target : Z) (inventory : list string) : Z :=
  GoInt.sub (GetCountForFeatures posFeatures negFeatures inventory parses) target.

(** Lines 28-52 of [main], after [op] and [target] are read:
    [diff = count - target] per language. *)
Definition countquery (parses : gmap string (list string)) (op : string) (target : Z)
    (rawFeatures : list string) (order : list (string * list string)) : result fatal (list Z) :=
  let '(posFeatures, negFeatures) := ParseFeatures rawFeatures in
  select_loop op (count_diff posFeatures negFeatures parses target) order [].

(** [count - target] does not wrap when the target is not too far
    below the count's range. *)
Lemma sub_target_exact (count : list string -> Z) `{!InventoryCounter count} inventory target :
  Z.of_nat (length inventory) <= GoInt.max_int ->
  Z.of_nat (length inventory) - GoInt.max_int <= target <= GoInt.max_int ->
  GoInt.sub (count inventory) target = count inventory - target.
Proof.
  intros H Ht. pose proof (count_bounds (count := count) inventory H).
  apply GoInt.sub_small. unfold GoInt.min_int, GoInt.max_int in *. lia.
Qed.

(** Membership in the count query's result. *)
Lemma countquery_members inventories parses op o target raw order r z :
  range_order inventories order -> parse_op op = Some o ->
  map_Forall (fun _ inventory =>
    Z.of_nat (length inventory) <= GoInt.max_int /\
    Z.of_nat (length inventory) - GoInt.max_int <= target <= GoInt.max_int) inventories ->
  countquery parses op target raw order = Ok r ->
  z ∈ r <-> exists languageID inventory,
    inventories !! languageID = Some inventory /\ Atoi languageID = Ok z /\
    op_rel o (Z.of_nat (spec_count (ParseFeatures raw).1 (ParseFeatures raw).2 inventory parses)) target.
Proof.
  intros Ho Hop Hlen. unfold countquery.
  destruct (ParseFeatures raw) as [p n]. simpl.
  intros Hr. rewrite (select_loop_elem_map _ _ _ _ _ _ Ho Hr).
  apply exist_proper; intros lid. apply exist_proper; intros inv.
  split; intros (Hl & H1 & H2); (split; [done|]);
    destruct (Hlen _ _ Hl) as [Hinv Ht];
    unfold count_diff in *;
    rewrite (sub_target_exact (fun i => GetCountForFeatures p n i parses) inv target Hinv Ht),
      (CheckDiff_sub _ _ _ _ Hop), !GetCountForFeatures_spec_count in * by done; done.
Qed.

(** (C19) Refinement of the count query: for a target of Go's [int]
    range that is not within an inventory length of its bottom, an
    integer is printed exactly when some language has that numeric
    identifier and its feature count stands in the operator's relation
    to the target. *)
Theorem countquery_refines inventories parses op o target raw order r z :
  range_order inventories order -> parse_op op = Some o ->
  map_Forall (fun _ inventory =>
    Z.of_nat (length inventory) <= GoInt.max_int /\
    Z.of_nat (length inventory) - GoInt.max_int <= target <= GoInt.max_int) inventories ->
  countquery parses op target raw order = Ok r ->
  z ∈ r <-> exists languageID inventory,
    inventories !! languageID = Some inventory /\ Atoi languageID = Ok z /\
    op_rel o (Z.of_nat (spec_count (ParseFeatures raw).1 (ParseFeatures raw).2 inventory parses)) target.
Proof. apply countquery_members. Qed.

(** (C22) At the bottom of the [int] range the difference wraps: with
    target [-2^63], "<" accepts every inventory a slice can hold and
    ">" accepts none, although no count is below the target. *)
Theorem countquery_min_int_wraps pos neg parses inventory :
  Z.of_nat (length inventory) <= GoInt.max_int ->
  CheckDiff "<" (count_diff pos neg parses GoInt.min_int inventory) = Ok true /\
  CheckDiff ">" (count_diff pos neg parses GoInt.min_int inventory) = Ok false /\
  ~ (Z.of_nat (spec_count pos neg inventory parses) < GoInt.min_int).
Proof.
  intros H. unfold count_diff. rewrite GetCountForFeatures_spec_count by done.
  pose proof (spec_count_le pos neg inventory parses).
  unfold GoInt.sub. rewrite GoInt.wrap_above
    by (unfold GoInt.min_int, GoInt.max_int, GoInt.modulus in *; lia).
  rewrite !CheckDiff_parse_op. simpl. unfold op_holds. simpl.
  unfold GoInt.min_int, GoInt.max_int, GoInt.modulus in *.
  split_and!; [f_equal; apply bool_decide_eq_true | f_equal; apply bool_decide_eq_false | ]; lia.
Qed.

(** (C23) The count query's selection for every [int] target: a
    language is printed exactly when [diff op 0] holds for the Go
    difference [wrap (count - target)], the abstract count minus the
    target reduced into the 64-bit range. *)
Theorem countquery_selects_wrapped inventories parses op o target raw order r z :
  range_order inventories order -> parse_op op = Some o ->
  map_Forall (fun _ inventory => Z.of_nat (length inventory) <= GoInt.max_int) inventories ->
  countquery parses op target raw order = Ok r ->
  z ∈ r <-> exists languageID inventory,
    inventories !! languageID = Some inventory /\ Atoi languageID = Ok z /\
    op_holds o (GoInt.wrap (Z.of_nat (spec_count (ParseFeatures raw).1 (ParseFeatures raw).2
                                        inventory parses) - target)).
Proof.
  intros Ho Hop Hlen. unfold countquery.
  destruct (ParseFeatures raw) as [p n]. simpl.
  intros Hr. rewrite (select_loop_elem_map _ _ _ _ _ _ Ho Hr).
  apply exist_proper; intros lid. apply exist_proper; intros inv.
  split; intros (Hl & H1 & H2); (split; [done|]); pose proof (Hlen _ _ Hl) as Hinv;
    unfold count_diff, GoInt.sub in *;
    rewrite (CheckDiff_true _ _ _ Hop), GetCountForFeatures_spec_count in * by done; done.
Qed.

(** ** [phonemequery/main.go] *)

(** Lines 38-51 of [main], after [op], [target] and [phoneme] are read:
    [diff = count - target] with the phoneme's presence count. *)
Definition phonemequery (op : string) (target : Z) (phoneme : string)
    (order : list (string * list string)) : result fatal (list Z) :=
  select_loop op (fun inventory => GoInt.sub (getCountForPhoneme phoneme inventory) target) order [].

(** Membership in the phoneme query's result. *)
Lemma phonemequery_members inventories op o target phoneme order r z :
  range_order inventories order -> parse_op op = Some o ->
  map_Forall (fun _ inventory =>
    Z.of_nat (length inventory) <= GoInt.max_int /\
    Z.of_nat (length inventory) - GoInt.max_int <= target <= GoInt.max_int) inventories ->
  phonemequery op target phoneme order = Ok r ->
  z ∈ r <-> exists languageID inventory,
    inventories !! languageID = Some inventory /\ Atoi languageID = Ok z /\
    op_rel o (if decide (phoneme ∈ inventory) then 1 else 0) target.
Proof.
  intros Ho Hop Hlen Hr. unfold phonemequery in Hr.
  rewrite (select_loop_elem_map _ _ _ _ _ _ Ho Hr).
  apply exist_proper; intros lid. apply exist_proper; intros inv.
  split; intros (Hl & H1 & H2); (split; [done|]);
    destruct (Hlen _ _ Hl) as [Hinv Ht];
    rewrite (sub_target_exact (getCountForPhoneme phoneme) inv target Hinv Ht),
      (CheckDiff_sub _ _ _ _ Hop), getCountForPhoneme_indicator in * by done; done.
Qed.

(** (C20) Refinement of the phoneme query: an integer is printed
    exactly when some language with that numeric identifier has a
    presence indicator (1 if the phoneme occurs, else 0) in the
    operator's relation to the target. *)
Theorem phonemequery_refines inventories op o target phoneme order r z :
  range_order inventories order -> parse_op op = Some o ->
  map_Forall (fun _ inventory =>
    Z.of_nat (length inventory) <= GoInt.max_int /\
    Z.of_nat (length inventory) - GoInt.max_int <= target <= GoInt.max_int) inventories ->
  phonemequery op target phoneme order = Ok r ->
  z ∈ r <-> exists languageID inventory,
    inventories !! languageID = Some inventory /\ Atoi languageID = Ok z /\
    op_rel o (if decide (phoneme ∈ inventory) then 1 else 0) target.
Proof. apply phonemequery_members. Qed.
(** A feature that no parse lists is never matched. *)
Lemma GetCountForFeatures_unmatched x inventory parses :
  map_Forall (fun _ feats => x ∉ feats) parses -> GetCountForFeatures [x] [] inventory parses = 0.
Proof.
  intros Hx. unfold GetCountForFeatures. apply count_loop_none, Forall_forall. intros seg _.
  apply not_true_iff_false. rewrite counted_matches. unfold matches, lookup_parse.
  intros [Hp _]. apply Forall_cons in Hp as [Hin _].
  destruct (parses !! seg) as [feats|] eqn:Hs; simpl in Hin; [by apply (Hx seg feats Hs) | set_solver].
Qed.

(** (C14) The comparison query against a query that matches nothing
    (a single positive feature no parse lists) is the count query with
    target 0: [count1 - 0] and [count - 0] are the same [int], so the
    two programs print the same identifiers in the same order or fail
    alike. *)
Theorem comparisonquery_unmatched_query parses op raw x order :
  map_Forall (fun _ feats => x ∉ feats) parses ->
  comparisonquery parses op (ParseFeatures raw) ([x], []) order = countquery parses op 0 raw order.
Proof.
  intros Hx. unfold comparisonquery, countquery. destruct (ParseFeatures raw) as [p n].
  apply select_loop_ext. intros lid inv _. unfold count_diff.
  by rewrite (GetCountForFeatures_unmatched x inv parses Hx).
Qed.

(** (C38) The count query is monotone in its target: for targets where
    [count - target] cannot wrap, a language printed for ">" or ">="
    with a larger target is printed with a smaller one, and one printed
    for "<" or "<=" with a smaller target is printed with a larger one. *)
Theorem countquery_target_monotone inventories parses op o raw order t1 t2 r1 r2 z :
  range_order inventories order -> parse_op op = Some o ->
  map_Forall (fun _ inventory =>
    Z.of_nat (length inventory) <= GoInt.max_int /\
    Z.of_nat (length inventory) - GoInt.max_int <= t1 /\ t2 <= GoInt.max_int) inventories ->
  t1 <= t2 ->
  countquery parses op t1 raw order = Ok r1 -> countquery parses op t2 raw order = Ok r2 ->
  ((o = OpGt \/ o = OpGe) -> z ∈ r2 -> z ∈ r1) /\ ((o = OpLt \/ o = OpLe) -> z ∈ r1 -> z ∈ r2).
Proof.
  intros Ho Hop Hlen Ht H1 H2.
  assert (forall t, t1 <= t <= t2 -> map_Forall (fun _ inventory =>
    Z.of_nat (length inventory) <= GoInt.max_int /\
    Z.of_nat (length inventory) - GoInt.max_int <= t <= GoInt.max_int) inventories) as Hb.
  { intros t Htt lid inv Hl. destruct (Hlen lid inv Hl) as (? & ? & ?). lia. }
  rewrite (countquery_members _ _ _ _ _ _ _ _ z Ho Hop (Hb t1 ltac:(lia)) H1),
    (countquery_members _ _ _ _ _ _ _ _ z Ho Hop (Hb t2 ltac:(lia)) H2).
  split; intros Hoo (lid & inv & Hl & Ha & Hr); exists lid, inv; (split_and!; [done | done |]);
    destruct Hoo as [-> | ->]; simpl in *; lia.
Qed.

(** ** Properties of the three drivers together *)

(** (C3) Order independence: for each driver, any two range orders of
    the inventory map give the same outcome, up to the order of the
    printed identifiers (both fatal, or both successful with permuted
    lists). *)
Theorem queries_order_independent inventories parses op features1 features2 raw target phoneme order order' :
  range_order inventories order -> range_order inventories order' ->
  comparisonquery parses op features1 features2 order ≈ᵣ comparisonquery parses op features1 features2 order' /\
  countquery parses op target raw order ≈ᵣ countquery parses op target raw order' /\
  phonemequery op target phoneme order ≈ᵣ phonemequery op target phoneme order'.
Proof.
  intros H H'. assert (order ≡ₚ order') as Hp by (unfold range_order in *; by rewrite H, H').
  unfold comparisonquery, countquery, phonemequery.
  destruct features1, features2, (ParseFeatures raw).
  split_and!; by apply select_loop_perm.
Qed.

(** (C21) An unrecognised operator fails every driver with the
    operator message, whatever the range order, unless the inventory
    map is empty: then [CheckDiff] is never called and the run prints
    an empty list. *)
Theorem queries_bad_operator inventories parses op features1 features2 raw target phoneme order :
  range_order inventories order -> op ∉ recognised_ops ->
  let outcome := if decide (inventories = ∅) then Ok []
                 else Fatal (CheckDiffFatal (not_recognised op)) in
  comparisonquery parses op features1 features2 order = outcome /\
  countquery parses op target raw order = outcome /\
  phonemequery op target phoneme order = outcome.
Proof.
  intros Ho Hop outcome. unfold comparisonquery, countquery, phonemequery.
  destruct features1, features2, (ParseFeatures raw).
  split_and!; by apply select_loop_bad_op_map.
Qed.
(** ** Scenarios of the spec and departures from it *)

(** The phoneme scenario of the spec, with numeric identifiers (the
    code parses them with [Atoi]): "p" absent, target 0, "=" selects the
    second language only. *)
Example phonemequery_scenario :
  phonemequery "=" 0 "p"
    (map_to_list (list_to_map [("1", ["p"; "t"; "k"]); ("2", ["t"; "k"])]
                    : gmap string (list string))) = Ok [2].
Proof. vm_compute. reflexivity. Qed.

(** The comparison scenario of the spec: ["+voice"] and ["+nasal"]
    both count one segment of [m, b], so "=" selects the language. *)
Example comparisonquery_scenario :
  comparisonquery (list_to_map [("m", ["nasal"]); ("b", ["voice"])]) "=" (ParseFeatures ["+voice"]) (ParseFeatures ["+nasal"])
    (map_to_list (list_to_map [("1", ["m"; "b"])] : gmap string (list string))) = Ok [1].
Proof. vm_compute. reflexivity. Qed.

(** [CheckDiff] on [count1 - count2] decides the spec's comparison. *)
Lemma comparison_check parses op o p1 n1 p2 n2 inventory :
  Z.of_nat (length inventory) <= GoInt.max_int -> parse_op op = Some o ->
  CheckDiff op (GoInt.sub (GetCountForFeatures p1 n1 inventory parses)
                          (GetCountForFeatures p2 n2 inventory parses)) = Ok true <->
  comparison_selects parses o (p1, n1) (p2, n2) inventory.
Proof.
  intros Hinv Hop. unfold comparison_selects.
  rewrite (sub_counts_exact (fun i => GetCountForFeatures p1 n1 i parses)
             (fun i => GetCountForFeatures p2 n2 i parses) inventory Hinv).
  cbn beta. rewrite (CheckDiff_sub _ _ _ _ Hop), !GetCountForFeatures_spec_count by done. done.
Qed.

(** (C26) The printed identifiers are not a set: when two languages
    with different identifiers that parse to the same integer (such as
    "1" and "01") are both selected, a successful comparison query
    prints that integer at least twice, whatever the range order. *)
Theorem comparisonquery_duplicate_ids inventories parses op o features1 features2 order r lid1 lid2 inv1 inv2 z :
  range_order inventories order -> parse_op op = Some o ->
  map_Forall (fun _ inventory => Z.of_nat (length inventory) <= GoInt.max_int) inventories ->
  lid1 <> lid2 -> inventories !! lid1 = Some inv1 -> inventories !! lid2 = Some inv2 ->
  Atoi lid1 = Ok z -> Atoi lid2 = Ok z ->
  comparison_selects parses o features1 features2 inv1 -> comparison_selects parses o features1 features2 inv2 ->
  comparisonquery parses op features1 features2 order = Ok r ->
  (2 <= count_occ Z.eq_dec r z)%nat.
Proof.
  intros Ho Hop Hlen Hne H1 H2 Ha1 Ha2 Hs1 Hs2. destruct features1 as [p1 n1], features2 as [p2 n2].
  unfold comparisonquery. intros Hr. rewrite (select_loop_count_occ _ _ _ _ _ Hr).
  apply (two_in_filter _ _ (lid1, inv1) (lid2, inv2)); [congruence | by apply (range_order_elem _ _ _ Ho)
    | by apply (range_order_elem _ _ _ Ho) | |];
    unfold selects_as; cbn [fst snd];
    [rewrite (proj2 (comparison_check _ _ _ _ _ _ _ _ (Hlen _ _ H1) Hop) Hs1), Ha1
    |rewrite (proj2 (comparison_check _ _ _ _ _ _ _ _ (Hlen _ _ H2) Hop) Hs2), Ha2];
    by apply bool_decide_eq_true.
Qed.

(** (C27) A non-numeric identifier is fatal exactly when its language
    is selected: a selected language whose identifier [Atoi] rejects
    makes the count query fail in every range order, and an unselected
    one changes nothing: the outcome is the one on the map without that
    language (up to the order of the output). *)
Theorem countquery_nonnumeric_id inventories parses op target raw order order' lid inv err :
  range_order inventories order -> inventories !! lid = Some inv -> Atoi lid = Fatal err ->
  (CheckDiff op (count_diff (ParseFeatures raw).1 (ParseFeatures raw).2 parses target inv) = Ok true ->
     is_ok (countquery parses op target raw order) = false) /\
  (CheckDiff op (count_diff (ParseFeatures raw).1 (ParseFeatures raw).2 parses target inv) = Ok false ->
     range_order (delete lid inventories) order' ->
     countquery parses op target raw order ≈ᵣ countquery parses op target raw order').
Proof.
  intros Ho Hl Ha. unfold countquery. destruct (ParseFeatures raw) as [p n]. cbn [fst snd]. split.
  - intros Hc. destruct (is_ok _) eqn:E; [|done]. apply select_loop_ok in E. rewrite Forall_forall in E.
    destruct (E (lid, inv)) as [_ Hsel]; [by apply (range_order_elem _ _ _ Ho)|].
    cbn [fst snd] in Hsel. destruct (Hsel Hc) as [z Hz]. congruence.
  - intros Hc Ho'. unfold range_order in Ho, Ho'.
    assert (order ≡ₚ (lid, inv) :: order') as Hp.
    { rewrite Ho, Ho'. symmetry. by apply map_to_list_delete. }
    rewrite (select_loop_perm _ _ _ _ Hp). by rewrite select_loop_unselected.
Qed.

(** ** Witnesses: the theorems at a concrete map *)

Definition example_inventories : gmap string (list string) :=
  list_to_map [("1", ["m"; "b"]); ("2", ["p"])].
Definition example_parses : gmap string (list string) :=
  list_to_map [("m", ["nasal"]); ("b", ["voice"]); ("p", [])].

Lemma example_order : range_order example_inventories (map_to_list example_inventories).
Proof. unfold range_order. reflexivity. Defined.

Lemma example_order_rev : range_order example_inventories (rev (map_to_list example_inventories)).
Proof. unfold range_order. symmetry. apply Permutation_rev. Defined.

Lemma example_lengths :
  map_Forall (fun _ inventory => Z.of_nat (length inventory) <= GoInt.max_int) example_inventories.
Proof. apply (bool_decide_unpack _). vm_compute. exact I. Defined.

Lemma example_target_bounds :
  map_Forall (fun _ inventory =>
    Z.of_nat (length inventory) <= GoInt.max_int /\
    Z.of_nat (length inventory) - GoInt.max_int <= 1 <= GoInt.max_int) example_inventories.
Proof. apply (bool_decide_unpack _). vm_compute. exact I. Defined.

Lemma queries_order_independent_witness :
  range_order example_inventories (map_to_list example_inventories) /\
  range_order example_inventories (rev (map_to_list example_inventories)) /\
  (comparisonquery example_parses "=" (ParseFeatures ["+voice"]) (ParseFeatures ["+nasal"]) (map_to_list example_inventories)
     ≈ᵣ comparisonquery example_parses "=" (ParseFeatures ["+voice"]) (ParseFeatures ["+nasal"]) (rev (map_to_list example_inventories)) /\
   countquery example_parses "=" 1 ["+voice"] (map_to_list example_inventories)
     ≈ᵣ countquery example_parses "=" 1 ["+voice"] (rev (map_to_list example_inventories)) /\
   phonemequery "=" 1 "p" (map_to_list example_inventories)
     ≈ᵣ phonemequery "=" 1 "p" (rev (map_to_list example_inventories))).
Proof.
  split; [exact example_order|]. split; [exact example_order_rev|].
  exact (queries_order_independent _ _ _ _ _ _ _ _ _ _ example_order example_order_rev).
Defined.

Lemma comparisonquery_refines_witness :
  parse_op "=" = Some OpEq /\
  comparisonquery example_parses "=" (ParseFeatures ["+voice"]) (ParseFeatures ["+nasal"]) (map_to_list example_inventories) = Ok [1; 2] /\
  (2 ∈ [1; 2] <-> exists languageID inventory,
     example_inventories !! languageID = Some inventory /\ Atoi languageID = Ok 2 /\
     comparison_selects example_parses OpEq (ParseFeatures ["+voice"]) (ParseFeatures ["+nasal"]) inventory).
Proof.
  assert (Hop : parse_op "=" = Some OpEq) by reflexivity.
  assert (Hr : comparisonquery example_parses "=" (ParseFeatures ["+voice"]) (ParseFeatures ["+nasal"])
                 (map_to_list example_inventories) = Ok [1; 2]) by (vm_compute; reflexivity).
  split; [exact Hop|]. split; [exact Hr|].
  exact (comparisonquery_refines _ _ _ _ _ _ _ _ 2 example_order Hop example_lengths Hr).
Defined.

Lemma countquery_refines_witness :
  parse_op ">=" = Some OpGe /\
  countquery example_parses ">=" 1 ["+voice"] (map_to_list example_inventories) = Ok [1] /\
  (1 ∈ [1] <-> exists languageID inventory,
     example_inventories !! languageID = Some inventory /\ Atoi languageID = Ok 1 /\
     op_rel OpGe (Z.of_nat (spec_count (ParseFeatures ["+voice"]).1 (ParseFeatures ["+voice"]).2
                              inventory example_parses)) 1).
Proof.
  assert (Hop : parse_op ">=" = Some OpGe) by reflexivity.
  assert (Hr : countquery example_parses ">=" 1 ["+voice"] (map_to_list example_inventories) = Ok [1])
    by (vm_compute; reflexivity).
  split; [exact Hop|]. split; [exact Hr|].
  exact (countquery_refines _ _ _ _ _ _ _ _ 1 example_order Hop example_target_bounds Hr).
Defined.

Lemma phonemequery_refines_witness :
  parse_op "=" = Some OpEq /\
  phonemequery "=" 1 "p" (map_to_list example_inventories) = Ok [2] /\
  (2 ∈ [2] <-> exists languageID inventory,
     example_inventories !! languageID = Some inventory /\ Atoi languageID = Ok 2 /\
     op_rel OpEq (if decide ("p" ∈ inventory) then 1 else 0) 1).
Proof.
  assert (Hop : parse_op "=" = Some OpEq) by reflexivity.
  assert (Hr : phonemequery "=" 1 "p" (map_to_list example_inventories) = Ok [2])
    by (vm_compute; reflexivity).
  split; [exact Hop|]. split; [exact Hr|].
  exact (phonemequery_refines _ _ _ _ _ _ _ 2 example_order Hop example_target_bounds Hr).
Defined.

Lemma queries_bad_operator_witness :
  ("!=" ∉ recognised_ops) /\
  (comparisonquery example_parses "!=" (ParseFeatures ["+voice"]) (ParseFeatures ["+nasal"]) (map_to_list example_inventories) =
     Fatal (CheckDiffFatal (not_recognised "!=")) /\
   countquery example_parses "!=" 1 ["+voice"] (map_to_list example_inventories) =
     Fatal (CheckDiffFatal (not_recognised "!=")) /\
   phonemequery "!=" 1 "p" (map_to_list example_inventories) =
     Fatal (CheckDiffFatal (not_recognised "!="))).
Proof.
  assert (Hop : "!=" ∉ recognised_ops) by (apply (bool_decide_unpack _); vm_compute; exact I).
  split; [exact Hop|].
  pose proof (queries_bad_operator _ example_parses "!=" (ParseFeatures ["+voice"]) (ParseFeatures ["+nasal"]) ["+voice"] 1 "p"
                _ example_order Hop) as H.
  rewrite decide_False in H; [exact H|]. vm_compute. discriminate.
Defined.

Lemma countquery_min_int_wraps_witness :
  (Z.of_nat (length ["m"; "b"]) <= GoInt.max_int) /\
  (CheckDiff "<" (count_diff ["voice"] [] example_parses GoInt.min_int ["m"; "b"]) = Ok true /\
   CheckDiff ">" (count_diff ["voice"] [] example_parses GoInt.min_int ["m"; "b"]) = Ok false /\
   ~ (Z.of_nat (spec_count ["voice"] [] ["m"; "b"] example_parses) < GoInt.min_int)).
Proof.
  assert (H : Z.of_nat (length ["m"; "b"]) <= GoInt.max_int) by (apply Z.leb_le; reflexivity).
  split; [exact H | exact (countquery_min_int_wraps _ _ _ _ H)].
Defined.


Definition duplicate_ids_inventories : gmap string (list string) := list_to_map [("1", []); ("01", [])].

Lemma comparisonquery_duplicate_ids_witness :
  comparisonquery ∅ "=" ([], []) ([], []) (map_to_list duplicate_ids_inventories) = Ok [1; 1] /\
  (2 <= count_occ Z.eq_dec [1; 1]%Z 1%Z)%nat.
Proof.
  assert (H : comparisonquery ∅ "=" ([], []) ([], []) (map_to_list duplicate_ids_inventories) = Ok [1; 1])
    by (vm_compute; reflexivity).
  split; [exact H|].
  apply (comparisonquery_duplicate_ids duplicate_ids_inventories ∅ "=" OpEq ([], []) ([], [])
           (map_to_list duplicate_ids_inventories) [1; 1] "1" "01" [] [] 1);
    try reflexivity; try discriminate; try exact H.
  - unfold range_order. reflexivity.
  - apply (bool_decide_unpack _). vm_compute. reflexivity.
Defined.

Definition nonnumeric_inventories : gmap string (list string) := list_to_map [("7", ["p"]); ("L2", [])].

Lemma countquery_nonnumeric_id_witness :
  is_ok (countquery ∅ "=" 0 [] (map_to_list nonnumeric_inventories)) = false /\
  countquery ∅ ">" 0 [] (map_to_list nonnumeric_inventories) ≈ᵣ
  countquery ∅ ">" 0 [] (map_to_list (delete "L2" nonnumeric_inventories)).
Proof.
  split.
  - apply (proj1 (countquery_nonnumeric_id nonnumeric_inventories ∅ "=" 0 [] _
             (map_to_list (delete "L2" nonnumeric_inventories)) "L2" [] ErrSyntax
             ltac:(unfold range_order; reflexivity) ltac:(reflexivity) ltac:(reflexivity)));
      vm_compute; reflexivity.
  - apply (proj2 (countquery_nonnumeric_id nonnumeric_inventories ∅ ">" 0 [] _
             (map_to_list (delete "L2" nonnumeric_inventories)) "L2" [] ErrSyntax
             ltac:(unfold range_order; reflexivity) ltac:(reflexivity) ltac:(reflexivity)));
      [vm_compute; reflexivity | unfold range_order; reflexivity].
Defined.

Lemma select_loop_ok_map_witness :
  range_order example_inventories (map_to_list example_inventories) /\
  (is_ok (select_loop "=" (fun _ => 0) (map_to_list example_inventories) []) = true <->
   map_Forall (fun languageID inventory =>
     (exists b, CheckDiff "=" ((fun _ => 0) inventory) = Ok b) /\
     (CheckDiff "=" ((fun _ => 0) inventory) = Ok true -> exists z, Atoi languageID = Ok z))
     example_inventories).
Proof.
  split; [exact example_order | exact (select_loop_ok_map _ _ "=" (fun _ => 0) example_order)].
Defined.

Lemma comparisonquery_converse_witness :
  comparisonquery example_parses ">=" (ParseFeatures ["+nasal"]) (ParseFeatures ["-voice"])
    (map_to_list example_inventories) =
  comparisonquery example_parses "<=" (ParseFeatures ["-voice"]) (ParseFeatures ["+nasal"])
    (map_to_list example_inventories) /\
  comparisonquery example_parses "<=" (ParseFeatures ["-voice"]) (ParseFeatures ["+nasal"])
    (map_to_list example_inventories) = Ok [1].
Proof.
  split; [|vm_compute; reflexivity].
  apply (comparisonquery_converse example_parses "<=").
  apply (bool_decide_unpack _). vm_compute. reflexivity.
Defined.

Lemma countquery_selects_wrapped_witness :
  parse_op "<" = Some OpLt /\
  countquery example_parses "<" GoInt.min_int ["+voice"] (map_to_list example_inventories) = Ok [1; 2] /\
  (1 ∈ [1; 2] <-> exists languageID inventory,
     example_inventories !! languageID = Some inventory /\ Atoi languageID = Ok 1 /\
     op_holds OpLt (GoInt.wrap (Z.of_nat (spec_count (ParseFeatures ["+voice"]).1
                                   (ParseFeatures ["+voice"]).2 inventory example_parses)
                                - GoInt.min_int))).
Proof.
  assert (Hop : parse_op "<" = Some OpLt) by reflexivity.
  assert (Hr : countquery example_parses "<" GoInt.min_int ["+voice"]
                 (map_to_list example_inventories) = Ok [1; 2]) by (vm_compute; reflexivity).
  split; [exact Hop|]. split; [exact Hr|].
  exact (countquery_selects_wrapped _ _ _ _ _ _ _ _ 1 example_order Hop example_lengths Hr).
Defined.

Lemma comparisonquery_unmatched_query_witness :
  comparisonquery example_parses ">" (ParseFeatures ["+voice"]) (["labial"], []) (map_to_list example_inventories) =
  countquery example_parses ">" 0 ["+voice"] (map_to_list example_inventories) /\
  countquery example_parses ">" 0 ["+voice"] (map_to_list example_inventories) = Ok [1].
Proof.
  split; [|vm_compute; reflexivity].
  apply comparisonquery_unmatched_query. apply (bool_decide_unpack _). vm_compute. reflexivity.
Defined.

Lemma countquery_target_monotone_witness :
  countquery example_parses ">=" 0 ["+voice"] (map_to_list example_inventories) = Ok [1; 2] /\
  countquery example_parses ">=" 1 ["+voice"] (map_to_list example_inventories) = Ok [1] /\
  ((OpGe = OpGt \/ OpGe = OpGe) -> 1 ∈ [1] -> 1 ∈ [1; 2]).
Proof.
  assert (H1 : countquery example_parses ">=" 0 ["+voice"] (map_to_list example_inventories) = Ok [1; 2])
    by (vm_compute; reflexivity).
  assert (H2 : countquery example_parses ">=" 1 ["+voice"] (map_to_list example_inventories) = Ok [1])
    by (vm_compute; reflexivity).
  split_and!; [exact H1 | exact H2 |].
  apply (countquery_target_monotone example_inventories example_parses ">=" OpGe ["+voice"]
           (map_to_list example_inventories) 0 1 [1; 2] [1] 1 example_order eq_refl); [|lia|exact H1|exact H2].
  apply (bool_decide_unpack _). vm_compute. reflexivity.
Defined.
End QueryEval.
