(* ===== verification/Programs.v ===== *)
(** * The three programs: [main] of [countquery], [comparisonquery] and [phonemequery]

    Each [main] loads the caches with [featurecounts.UnmarshalJSONFile],
    reads its query from standard input, runs the selection loop of
    [QueryEval] over the inventory map, and prints the selected
    identifiers with [json.Marshal] and [fmt.Println].  A run is a
    function of its [world] (the cache files and standard input) to
    what it prints on standard output, or to the [log.Fatal] that ends
    it ([exit_error]).  Go's map iteration order, random for each
    [range], is a parameter [iter] of the run; the theorems that need
    it assume it lists the map's entries ([iteration]).

    The unreachable error branch of [json.Marshal] on an [[]int] is not
    modelled ([Marshal_ints] is total), nor is a failing
    [ioutil.ReadAll] on a file that opened: a file that exists is read
    whole.

    Theorems: each [main] on well-formed input, and end to end against
    the spec's selection; its independence of the map iteration order;
    the round trip of what any run prints; and the runs on input the code does not check (a missing
    final newline, a tag line that is not JSON, a non-numeric target, a
    corrupt cache). *)

From S2P Require Import Prelude GoStrings GoStrconv GoJson JsonUtf8 GoFmt FeatureQuery FeatureCounts Comparator PhonemeCount QueryEval.

Module Programs.
Import GoStrings GoStrconv GoJson JsonUtf8 GoFmt FeatureQuery FeatureCounts Comparator PhonemeCount QueryEval.
Local Open Scope string_scope.
Local Open Scope Z_scope.
Local Open Scope result_scope.

(** ** A run *)

Record world := mk_world { files : gmap string string; stdin : string }.

Inductive exit_error :=
  | OpenFailed (path : string)      (** [log.Fatal] of the error of [os.Open] *)
  | ReadFailed                      (** [log.Fatal(io.EOF)] of [ReadBytes] *)
  | LoopFailed (f : fatal).         (** [log.Fatal] in the loop over the map *)

(** The run's [range] over a map lists each of its entries once. *)
Definition iteration (iter : gmap string (list string) -> list (string * list string)) : Prop :=
  forall m, range_order m (iter m).

(** [func UnmarshalJSONFile(path string, target *map[string][]string)],
    on the fresh map the drivers pass: a missing file is fatal, the
    decoding error is ignored. *)
Definition UnmarshalJSONFile (fs : gmap string string) (path : string)
  : result exit_error (gmap string (list string)) :=
  match fs !! path with
  | None => Fatal (OpenFailed path)
  | Some dataBytes => Ok (Unmarshal_map dataBytes)
  end.

(** [fmt.Println(string(output))]. *)
Definition Println (output : string) : string := output +:+ String newline EmptyString.

(** ** [countquery/main.go] *)

Definition countquery_main iter (w : world) : result exit_error string :=
  inventories <-? UnmarshalJSONFile (files w) "inventories.json" ;;
  parses <-? UnmarshalJSONFile (files w) "parses_cache.json" ;;
  let '(op, input1) := Scanf_s EmptyString (stdin w) in
  let '(target, input2) := Scanf_d 0 input1 in
  match ReadBytes input2 with
  | None => Fatal ReadFailed
  | Some (inputBytes, _) =>
      result <-? map_err LoopFailed
                   (countquery parses op target (Unmarshal_strings inputBytes) (iter inventories)) ;;
      Ok (Println (Marshal_ints result))
  end.

(** ** [comparisonquery/main.go] *)

(** [func readOneSetOfFeatures(reader *bufio.Reader) ([]string, []string)],
    with the reader's remaining input. *)
Definition readOneSetOfFeatures (reader : string)
  : result exit_error ((list string * list string) * string) :=
  match ReadBytes reader with
  | None => Fatal ReadFailed
  | Some (inputBytes, rest) => Ok (ParseFeatures (Unmarshal_strings inputBytes), rest)
  end.

Definition comparisonquery_main iter (w : world) : result exit_error string :=
  inventories <-? UnmarshalJSONFile (files w) "inventories.json" ;;
  parses <-? UnmarshalJSONFile (files w) "parses_cache.json" ;;
  let '(op, reader) := Scanf_s EmptyString (stdin w) in
  r1 <-? readOneSetOfFeatures reader ;;
  let '(features1, reader1) := r1 in
  r2 <-? readOneSetOfFeatures reader1 ;;
  let '(features2, _) := r2 in
  result <-? map_err LoopFailed (comparisonquery parses op features1 features2 (iter inventories)) ;;
  Ok (Println (Marshal_ints result)).

(** ** [phonemequery/main.go] *)

Definition phonemequery_main iter (w : world) : result exit_error string :=
  inventories <-? UnmarshalJSONFile (files w) "inventories.json" ;;
  let '(op, input1) := Scanf_s EmptyString (stdin w) in
  let '(target, input2) := Scanf_d 0 input1 in
  let '(phoneme, _) := Scanf_s EmptyString input2 in
  result <-? map_err LoopFailed (phonemequery op target phoneme (iter inventories)) ;;
  Ok (Println (Marshal_ints result)).

(** ** Reading the input *)

(** A line of standard input: its bytes, then a newline. *)
Definition line (l : string) (rest : string) : string := l +:+ String newline rest.

Lemma Println_Marshal_map_err (r : result fatal (list Z)) :
  (result <-? map_err LoopFailed r ;; Ok (Println (Marshal_ints result))) =
  match r with Ok zs => Ok (Println (Marshal_ints zs)) | Fatal f => Fatal (LoopFailed f) end.
Proof. by destruct r. Qed.

Section WellFormedInput.
Context (iter : gmap string (list string) -> list (string * list string)).
Context (fs : gmap string string) (invBytes parsesBytes : string).
Hypothesis Hinv : fs !! "inventories.json" = Some invBytes.
Hypothesis Hparses : fs !! "parses_cache.json" = Some parsesBytes.
Context (op : string).
Hypothesis Hop : op <> EmptyString /\ no_space op = true.

(** [countquery] after reading an operator line: the target is what
    [Scanf("%d\n")] makes of the next line, and what [ReadBytes] finds
    after it decides the run. *)
Lemma countquery_main_op rest0 :
  countquery_main iter (mk_world fs (line op rest0)) =
  let '(target, input2) := Scanf_d 0 rest0 in
  match ReadBytes input2 with
  | None => Fatal ReadFailed
  | Some (inputBytes, _) =>
      match countquery (Unmarshal_map parsesBytes) op target (Unmarshal_strings inputBytes)
              (iter (Unmarshal_map invBytes)) with
      | Ok r => Ok (Println (Marshal_ints r))
      | Fatal f => Fatal (LoopFailed f)
      end
  end.
Proof.
  destruct Hop as [Hne Hsp]. unfold countquery_main, UnmarshalJSONFile, line.
  cbn [files stdin]. rewrite Hinv, Hparses. cbn beta iota.
  rewrite Scanf_s_line by done. cbn beta iota.
  destruct (Scanf_d 0 rest0) as [target input2].
  destruct (ReadBytes input2) as [[inputBytes r]|]; [|done].
  apply Println_Marshal_map_err.
Qed.

Lemma countquery_main_input target rest :
  GoInt.min_int <= target <= GoInt.max_int ->
  countquery_main iter (mk_world fs (line op (line (FormatInt target) rest))) =
  match ReadBytes rest with
  | None => Fatal ReadFailed
  | Some (inputBytes, _) =>
      match countquery (Unmarshal_map parsesBytes) op target (Unmarshal_strings inputBytes)
              (iter (Unmarshal_map invBytes)) with
      | Ok r => Ok (Println (Marshal_ints r))
      | Fatal f => Fatal (LoopFailed f)
      end
  end.
Proof. intros Ht. rewrite countquery_main_op. unfold line. by rewrite Scanf_d_line. Qed.

(** [comparisonquery] after reading an operator line. *)
Lemma comparisonquery_main_input rest :
  comparisonquery_main iter (mk_world fs (line op rest)) =
  match ReadBytes rest with
  | None => Fatal ReadFailed
  | Some (bytes1, rest1) =>
      match ReadBytes rest1 with
      | None => Fatal ReadFailed
      | Some (bytes2, _) =>
          match comparisonquery (Unmarshal_map parsesBytes) op
                  (ParseFeatures (Unmarshal_strings bytes1)) (ParseFeatures (Unmarshal_strings bytes2))
                  (iter (Unmarshal_map invBytes)) with
          | Ok r => Ok (Println (Marshal_ints r))
          | Fatal f => Fatal (LoopFailed f)
          end
      end
  end.
Proof.
  destruct Hop as [Hne Hsp]. unfold comparisonquery_main, UnmarshalJSONFile, line.
  cbn [files stdin]. rewrite Hinv, Hparses. cbn beta iota.
  rewrite Scanf_s_line by done. cbn beta iota. unfold readOneSetOfFeatures.
  destruct (ReadBytes rest) as [[bytes1 rest1]|]; [|done]. cbn beta iota.
  destruct (ReadBytes rest1) as [[bytes2 rest2]|]; [|done]. cbn beta iota.
  apply Println_Marshal_map_err.
Qed.
(** [phonemequery] after reading an operator line and an [int] target
    line. *)
Lemma phonemequery_main_input target rest :
  GoInt.min_int <= target <= GoInt.max_int ->
  phonemequery_main iter (mk_world fs (line op (line (FormatInt target) rest))) =
  let '(phoneme, _) := Scanf_s EmptyString rest in
  match phonemequery op target phoneme (iter (Unmarshal_map invBytes)) with
  | Ok r => Ok (Println (Marshal_ints r))
  | Fatal f => Fatal (LoopFailed f)
  end.
Proof.
  intros Ht. destruct Hop as [Hne Hsp]. unfold phonemequery_main, UnmarshalJSONFile, line.
  cbn [files stdin]. rewrite Hinv. cbn beta iota.
  rewrite Scanf_s_line by done. cbn beta iota. rewrite Scanf_d_line by done. cbn beta iota.
  destruct (Scanf_s EmptyString rest) as [phoneme r]. apply Println_Marshal_map_err.
Qed.
End WellFormedInput.

(** ** Theorems *)

(** (C9) The count query program on well-formed input (an operator
    line, a decimal [int] target line, a line of JSON tags, each ended
    by a newline, the two cache files present): it prints the JSON
    array of the identifiers the selection loop returns on the decoded
    caches and tags, then a newline, or dies with the loop's error. *)
Theorem countquery_main_reads iter fs invBytes parsesBytes op target l rest :
  fs !! "inventories.json" = Some invBytes -> fs !! "parses_cache.json" = Some parsesBytes ->
  op <> EmptyString -> no_space op = true -> GoInt.min_int <= target <= GoInt.max_int ->
  no_newline l = true ->
  countquery_main iter (mk_world fs (line op (line (FormatInt target) (line l rest)))) =
  match countquery (Unmarshal_map parsesBytes) op target (Unmarshal_strings (line l EmptyString))
          (iter (Unmarshal_map invBytes)) with
  | Ok r => Ok (Println (Marshal_ints r))
  | Fatal f => Fatal (LoopFailed f)
  end.
Proof.
  intros Hi Hp Hne Hsp Ht Hl. rewrite (countquery_main_input iter fs invBytes parsesBytes Hi Hp op) by done.
  unfold line. by rewrite ReadBytes_line.
Qed.

(** (C10) The comparison query program on well-formed input (an
    operator line and two lines of JSON tags): it prints the identifiers
    the selection loop returns on the two decoded queries. *)
Theorem comparisonquery_main_reads iter fs invBytes parsesBytes op l1 l2 rest :
  fs !! "inventories.json" = Some invBytes -> fs !! "parses_cache.json" = Some parsesBytes ->
  op <> EmptyString -> no_space op = true -> no_newline l1 = true -> no_newline l2 = true ->
  comparisonquery_main iter (mk_world fs (line op (line l1 (line l2 rest)))) =
  match comparisonquery (Unmarshal_map parsesBytes) op
          (ParseFeatures (Unmarshal_strings (line l1 EmptyString)))
          (ParseFeatures (Unmarshal_strings (line l2 EmptyString)))
          (iter (Unmarshal_map invBytes)) with
  | Ok r => Ok (Println (Marshal_ints r))
  | Fatal f => Fatal (LoopFailed f)
  end.
Proof.
  intros Hi Hp Hne Hsp Hl1 Hl2. rewrite (comparisonquery_main_input iter fs invBytes parsesBytes Hi Hp op) by done.
  unfold line. by rewrite !ReadBytes_line.
Qed.

(** (C11) The phoneme query program on well-formed input (an operator
    line, a decimal [int] target line, a phoneme line): it prints the
    identifiers the selection loop returns for that phoneme; the parse
    cache is not read. *)
Theorem phonemequery_main_reads iter fs invBytes op target phoneme rest :
  fs !! "inventories.json" = Some invBytes ->
  op <> EmptyString -> no_space op = true -> GoInt.min_int <= target <= GoInt.max_int ->
  phoneme <> EmptyString -> no_space phoneme = true ->
  phonemequery_main iter (mk_world fs (line op (line (FormatInt target) (line phoneme rest)))) =
  match phonemequery op target phoneme (iter (Unmarshal_map invBytes)) with
  | Ok r => Ok (Println (Marshal_ints r))
  | Fatal f => Fatal (LoopFailed f)
  end.
Proof.
  intros Hi Hne Hsp Ht Hph Hsph.
  rewrite (phonemequery_main_input iter fs invBytes Hi op) by done.
  unfold line. by rewrite Scanf_s_line.
Qed.

(** (C16) A query line that ends the input without its newline is
    fatal: [ReadBytes('\n')] returns [io.EOF] and the program dies with
    [log.Fatal], for the count query's tag line and for the comparison
    query's second tag line. *)
Theorem query_line_without_newline iter fs invBytes parsesBytes op target l1 l :
  fs !! "inventories.json" = Some invBytes -> fs !! "parses_cache.json" = Some parsesBytes ->
  op <> EmptyString -> no_space op = true -> GoInt.min_int <= target <= GoInt.max_int ->
  no_newline l1 = true -> no_newline l = true ->
  countquery_main iter (mk_world fs (line op (line (FormatInt target) l))) = Fatal ReadFailed /\
  comparisonquery_main iter (mk_world fs (line op (line l1 l))) = Fatal ReadFailed.
Proof.
  intros Hi Hp Hne Hsp Ht Hl1 Hl. apply ReadBytes_EOF in Hl. split.
  - rewrite (countquery_main_input iter fs invBytes parsesBytes Hi Hp op) by done. by rewrite Hl.
  - rewrite (comparisonquery_main_input iter fs invBytes parsesBytes Hi Hp op) by done.
    unfold line at 1. by rewrite ReadBytes_line, Hl.
Qed.

(** (C17) A query line that is not JSON is not an error: [json.Unmarshal]
    fails before it touches [rawFeatures], the error is ignored, and the
    count query runs with the empty query, as if the line were [[]]. *)
Theorem countquery_malformed_line iter fs invBytes parsesBytes op target l e rest :
  fs !! "inventories.json" = Some invBytes -> fs !! "parses_cache.json" = Some parsesBytes ->
  op <> EmptyString -> no_space op = true -> GoInt.min_int <= target <= GoInt.max_int ->
  no_newline l = true -> decode_json (line l EmptyString) = Fatal e ->
  countquery_main iter (mk_world fs (line op (line (FormatInt target) (line l rest)))) =
  countquery_main iter (mk_world fs (line op (line (FormatInt target) (line "[]" rest)))).
Proof.
  intros Hi Hp Hne Hsp Ht Hl He.
  rewrite !(countquery_main_input iter fs invBytes parsesBytes Hi Hp op) by done.
  unfold line. rewrite !ReadBytes_line by done.
  assert (Unmarshal_strings (l +:+ String newline EmptyString) = []) as ->.
  { unfold Unmarshal_strings. unfold line in He. by rewrite He. }
  reflexivity.
Qed.

(** (C18) A target line that does not start with a number is not an
    error either: [Scanf("%d\n")] fails with "expected integer" and
    leaves [target] at 0, its first byte is lost with the scanner, and
    [ReadBytes] reads the rest of the target line as the JSON tag line;
    the real tag line is never read. *)
Theorem countquery_target_not_a_number iter fs invBytes parsesBytes op c t l rest :
  fs !! "inventories.json" = Some invBytes -> fs !! "parses_cache.json" = Some parsesBytes ->
  op <> EmptyString -> no_space op = true ->
  byte c < 128 -> is_space c = false -> is_sign c = false -> is_digit c = false ->
  no_newline t = true ->
  countquery_main iter (mk_world fs (line op (line (String c t) (line l rest)))) =
  match countquery (Unmarshal_map parsesBytes) op 0 (Unmarshal_strings (line t EmptyString))
          (iter (Unmarshal_map invBytes)) with
  | Ok r => Ok (Println (Marshal_ints r))
  | Fatal f => Fatal (LoopFailed f)
  end.
Proof.
  intros Hi Hp Hne Hsp Ha Hs Hg Hd Ht.
  rewrite (countquery_main_op iter fs invBytes parsesBytes Hi Hp op) by done.
  replace (line (String c t) (line l rest)) with (String c (line t (line l rest))) by reflexivity.
  rewrite Scanf_d_nonnumeric by done. cbn beta iota.
  unfold line at 1. by rewrite ReadBytes_line.
Qed.

(** An iteration over the empty map visits nothing. *)
Lemma iteration_empty iter : iteration iter -> iter ∅ = [].
Proof.
  intros Hit. specialize (Hit ∅). unfold range_order in Hit.
  rewrite map_to_list_empty in Hit. by apply Permutation_nil_r.
Qed.

Lemma Unmarshal_map_syntax_error data e : decode_json data = Fatal e -> Unmarshal_map data = ∅.
Proof. unfold Unmarshal_map. by intros ->. Qed.

(** (C39) A corrupt inventory cache is not an error: [UnmarshalJSONFile]
    ignores the decoding error and leaves the map empty, so on
    well-formed input the count and phoneme query programs print the
    empty list, as if no language matched. *)
Theorem corrupt_inventory_cache iter fs invBytes parsesBytes op target l phoneme rest e :
  iteration iter ->
  fs !! "inventories.json" = Some invBytes -> fs !! "parses_cache.json" = Some parsesBytes ->
  decode_json invBytes = Fatal e ->
  op <> EmptyString -> no_space op = true -> GoInt.min_int <= target <= GoInt.max_int ->
  no_newline l = true ->
  countquery_main iter (mk_world fs (line op (line (FormatInt target) (line l rest)))) =
    Ok (Println "[]") /\
  phonemequery_main iter (mk_world fs (line op (line (FormatInt target) (line phoneme rest)))) =
    Ok (Println "[]").
Proof.
  intros Hit Hi Hp He Hne Hsp Ht Hl.
  rewrite (countquery_main_input iter fs invBytes parsesBytes Hi Hp op),
    (phonemequery_main_input iter fs invBytes Hi op) by done.
  rewrite (Unmarshal_map_syntax_error _ _ He), iteration_empty by done.
  unfold line. rewrite ReadBytes_line by done.
  split; [unfold countquery; by destruct (ParseFeatures _) | by destruct (Scanf_s _ _)].
Qed.

(** ** What the programs print and what they load *)

(** What a run prints when it does not die: [Println] of
    [json.Marshal] of identifiers [Atoi] returned. *)
Definition printed_ints (out : string) : Prop :=
  exists zs, Forall (fun z => GoInt.min_int <= z <= GoInt.max_int) zs /\ out = Println (Marshal_ints zs).

Lemma printed_ints_loop op diff_of order zs :
  map_err LoopFailed (select_loop op diff_of order []) = Ok zs -> printed_ints (Println (Marshal_ints zs)).
Proof.
  destruct (select_loop _ _ _ _) as [zs'|] eqn:Hs; intros [= ->].
  exists zs. split; [by eapply select_loop_int_range | done].
Qed.

(** Every exit with output of the three [main]s prints identifiers of
    the selection loop. *)
Lemma mains_printed_ints iter w out :
  (countquery_main iter w = Ok out \/ comparisonquery_main iter w = Ok out \/
   phonemequery_main iter w = Ok out) -> printed_ints out.
Proof.
  unfold countquery_main, comparisonquery_main, phonemequery_main, readOneSetOfFeatures,
    countquery, comparisonquery, phonemequery.
  intros [H|[H|H]]; repeat (case_match; simplify_eq; try discriminate); by eapply printed_ints_loop.
Qed.

(** (C12) Round trip of the output, for every input: whenever one of
    the three programs prints instead of dying, it prints one line, the
    [json.Marshal] of a list of Go [int]s, which a JSON reader decodes
    to the array of exactly those integers' decimal literals, in order,
    and each literal reads back with [strconv.Atoi] as its integer. *)
Theorem programs_print_json_ints iter w out :
  (countquery_main iter w = Ok out \/ comparisonquery_main iter w = Ok out \/
   phonemequery_main iter w = Ok out) ->
  exists zs, out = Println (Marshal_ints zs) /\
    decode_json (Marshal_ints zs) = Ok (JArray (map (fun z => JNumber (FormatInt z)) zs)) /\
    Forall (fun z => Atoi (FormatInt z) = Ok z) zs.
Proof.
  intros H. destruct (mains_printed_ints iter w out H) as (zs & Hr & ->).
  exists zs. split_and!; [done | by apply Marshal_ints_roundtrip |].
  eapply Forall_impl; [exact Hr|]. intros z Hz. by apply Atoi_FormatInt.
Qed.

Lemma Forall_List_filter {A} (P : A -> Prop) (f : A -> bool) l : Forall P l -> Forall P (List.filter f l).
Proof. induction 1 as [|x l Hx _ IH]; simpl; [constructor|]. destruct (f x); auto. Qed.

Lemma signs_ascii c : cutset_contains signs c = true -> byte c < 128.
Proof. unfold signs. cbn. repeat case_decide; intros; subst; done. Qed.

(** [InitialiseFeatures] keeps the tags valid: it only trims ASCII signs. *)
Lemma ParseFeatures_valid raw :
  valid_segments raw -> valid_segments (ParseFeatures raw).1 /\ valid_segments (ParseFeatures raw).2.
Proof.
  intros Hraw. unfold ParseFeatures. rewrite InitialiseFeatures_filter. cbn [fst snd app].
  split; apply Forall_map; apply (Forall_List_filter (fun f => valid_utf8 (Trim f signs) = true));
    eapply Forall_impl; [exact Hraw| |exact Hraw|]; intros x Hx; by apply Trim_valid; [apply signs_ascii|].
Qed.

(** Every string the programs load is valid UTF-8, whatever
    bytes the files and standard input hold: the language identifiers,
    segments and features of the map [UnmarshalJSONFile] fills, which
    are the decoder's strings (each invalid byte replaced by U+FFFD),
    and the positive and negative feature names [readOneSetOfFeatures]
    returns, which are decoded tags with ASCII signs trimmed. *)
Lemma loaded_strings_valid_utf8 fs path m reader features rest :
  UnmarshalJSONFile fs path = Ok m -> readOneSetOfFeatures reader = Ok (features, rest) ->
  map_Forall (fun key segs => valid_utf8 key = true /\ valid_segments segs) m /\
  valid_segments features.1 /\ valid_segments features.2.
Proof.
  unfold UnmarshalJSONFile, readOneSetOfFeatures.
  destruct (fs !! path) as [data|]; [|discriminate]. intros [= <-].
  destruct (ReadBytes reader) as [[inputBytes r]|]; [|discriminate]. intros [= <- _].
  split; [apply Unmarshal_valid_utf8 | apply ParseFeatures_valid, Unmarshal_valid_utf8].
Qed.

(** (C15) End to end, the count query program refines the spec's
    selection: on well-formed input (an operator line with a recognised
    operator, a decimal [int] target line, a JSON tag line, both caches
    present) and any map iteration order, when the program prints, it
    prints the JSON array of a list holding an integer exactly when
    some language of the decoded inventory cache has that numeric
    identifier and its number of segments matching the decoded tags
    stands in the operator's relation to the target. *)
Theorem countquery_main_spec iter fs invBytes parsesBytes op o target l rest out z :
  iteration iter ->
  fs !! "inventories.json" = Some invBytes -> fs !! "parses_cache.json" = Some parsesBytes ->
  op <> EmptyString -> no_space op = true -> parse_op op = Some o ->
  GoInt.min_int <= target <= GoInt.max_int -> no_newline l = true ->
  map_Forall (fun _ inventory =>
    Z.of_nat (length inventory) <= GoInt.max_int /\
    Z.of_nat (length inventory) - GoInt.max_int <= target <= GoInt.max_int) (Unmarshal_map invBytes) ->
  countquery_main iter (mk_world fs (line op (line (FormatInt target) (line l rest)))) = Ok out ->
  exists r, out = Println (Marshal_ints r) /\
    (z ∈ r <-> exists languageID inventory,
       Unmarshal_map invBytes !! languageID = Some inventory /\ Atoi languageID = Ok z /\
       op_rel o (Z.of_nat (spec_count (ParseFeatures (Unmarshal_strings (line l EmptyString))).1
                                      (ParseFeatures (Unmarshal_strings (line l EmptyString))).2
                                      inventory (Unmarshal_map parsesBytes))) target).
Proof.
  intros Hit Hi Hp Hne Hsp Hop Ht Hl Hlen.
  rewrite (countquery_main_input iter fs invBytes parsesBytes Hi Hp op) by done.
  unfold line at 1. rewrite ReadBytes_line by done.
  destruct (countquery _ _ _ _ _) as [r|] eqn:Hr; [|discriminate]. intros [= <-].
  exists r. split; [done|]. by apply (countquery_members _ _ _ _ _ _ _ _ _ (Hit _) Hop Hlen).
Qed.

(** (C29) End to end, the comparison query program refines the spec's
    selection: on well-formed input (an operator line with a recognised
    operator and two JSON tag lines, both caches present) and any map
    iteration order, when the program prints, it prints the JSON array
    of a list holding an integer exactly when some language of the
    decoded inventory cache has that numeric identifier and its counts
    for the first and the second line's query stand in the operator's
    relation. *)
Theorem comparisonquery_main_spec iter fs invBytes parsesBytes op o l1 l2 rest out z :
  iteration iter ->
  fs !! "inventories.json" = Some invBytes -> fs !! "parses_cache.json" = Some parsesBytes ->
  op <> EmptyString -> no_space op = true -> parse_op op = Some o ->
  no_newline l1 = true -> no_newline l2 = true ->
  map_Forall (fun _ inventory => Z.of_nat (length inventory) <= GoInt.max_int) (Unmarshal_map invBytes) ->
  comparisonquery_main iter (mk_world fs (line op (line l1 (line l2 rest)))) = Ok out ->
  exists r, out = Println (Marshal_ints r) /\
    (z ∈ r <-> exists languageID inventory,
       Unmarshal_map invBytes !! languageID = Some inventory /\ Atoi languageID = Ok z /\
       comparison_selects (Unmarshal_map parsesBytes) o
         (ParseFeatures (Unmarshal_strings (line l1 EmptyString)))
         (ParseFeatures (Unmarshal_strings (line l2 EmptyString))) inventory).
Proof.
  intros Hit Hi Hp Hne Hsp Hop Hl1 Hl2 Hlen.
  rewrite (comparisonquery_main_input iter fs invBytes parsesBytes Hi Hp op) by done.
  unfold line at 1 2. rewrite !ReadBytes_line by done.
  destruct (comparisonquery _ _ _ _ _) as [r|] eqn:Hr; [|discriminate]. intros [= <-].
  exists r. split; [done|]. by apply (comparisonquery_members _ _ _ _ _ _ _ _ _ (Hit _) Hop Hlen).
Qed.

(** (C37) End to end, the phoneme query program refines the spec's
    selection: on well-formed input (an operator line with a recognised
    operator, a decimal [int] target line and a phoneme line) and any
    map iteration order, when the program prints, it prints the JSON
    array of a list holding an integer exactly when some language of
    the decoded inventory cache has that numeric identifier and its
    presence indicator for the phoneme (1 or 0) stands in the
    operator's relation to the target. *)
Theorem phonemequery_main_spec iter fs invBytes op o target phoneme rest out z :
  iteration iter -> fs !! "inventories.json" = Some invBytes ->
  op <> EmptyString -> no_space op = true -> parse_op op = Some o ->
  GoInt.min_int <= target <= GoInt.max_int ->
  phoneme <> EmptyString -> no_space phoneme = true ->
  map_Forall (fun _ inventory =>
    Z.of_nat (length inventory) <= GoInt.max_int /\
    Z.of_nat (length inventory) - GoInt.max_int <= target <= GoInt.max_int) (Unmarshal_map invBytes) ->
  phonemequery_main iter (mk_world fs (line op (line (FormatInt target) (line phoneme rest)))) = Ok out ->
  exists r, out = Println (Marshal_ints r) /\
    (z ∈ r <-> exists languageID inventory,
       Unmarshal_map invBytes !! languageID = Some inventory /\ Atoi languageID = Ok z /\
       op_rel o (if decide (phoneme ∈ inventory) then 1 else 0) target).
Proof.
  intros Hit Hi Hne Hsp Hop Ht Hph Hsph Hlen.
  rewrite (phonemequery_main_input iter fs invBytes Hi op) by done.
  unfold line at 1. rewrite Scanf_s_line by done. cbn beta iota.
  destruct (phonemequery _ _ _ _) as [r|] eqn:Hr; [|discriminate]. intros [= <-].
  exists r. split; [done|]. by apply (phonemequery_members _ _ _ _ _ _ _ _ (Hit _) Hop Hlen).
Qed.

(** Two runs agree up to Go's map order: both print the JSON arrays of
    two permutations of one list, both die in the selection loop
    (whose first fatal entry depends on the order), or both die of the
    same other error. *)
Definition same_up_to_order (r1 r2 : result exit_error string) : Prop :=
  match r1, r2 with
  | Ok o1, Ok o2 => exists zs1 zs2, zs1 ≡ₚ zs2 /\ o1 = Println (Marshal_ints zs1) /\ o2 = Println (Marshal_ints zs2)
  | Fatal (LoopFailed _), Fatal (LoopFailed _) => True
  | Fatal e1, Fatal e2 => e1 = e2
  | _, _ => False
  end.

Lemma same_up_to_order_fatal e : same_up_to_order (Fatal e) (Fatal e).
Proof. by destruct e. Qed.

Lemma same_up_to_order_print (r1 r2 : result fatal (list Z)) :
  r1 ≈ᵣ r2 ->
  same_up_to_order (result <-? map_err LoopFailed r1 ;; Ok (Println (Marshal_ints result)))
                   (result <-? map_err LoopFailed r2 ;; Ok (Println (Marshal_ints result))).
Proof. destruct r1 as [zs1|], r2 as [zs2|]; simpl; try done. intros Hp. by exists zs1, zs2. Qed.

Lemma iteration_perm iter1 iter2 m : iteration iter1 -> iteration iter2 -> iter1 m ≡ₚ iter2 m.
Proof. intros H1 H2. unfold iteration, range_order in *. by rewrite (H1 m), (H2 m). Qed.

(** Destructs the reads two runs share, closing the runs that die
    before the loop. *)
Ltac shared_prefix :=
  repeat match goal with
  | |- context [ match ?c with Ok _ => _ | Fatal _ => _ end ] =>
      lazymatch c with
      | map_err _ _ => fail
      | _ => destruct c eqn:?; cbn beta iota; [|apply same_up_to_order_fatal]
      end
  | |- context [ let '(_, _) := ?c in _ ] => destruct c eqn:?; cbn beta iota
  | |- context [ match ReadBytes ?c with None => _ | Some _ => _ end ] =>
      destruct (ReadBytes c) as [[? ?]|] eqn:?; cbn beta iota; [|apply same_up_to_order_fatal]
  end.

(** (C40) Order independence of the whole programs: for any two
    iteration orders of Go's maps, each program on the same files and
    input either prints the JSON arrays of two permutations of one list
    of identifiers, or dies both times, in the selection loop or of the
    same reading error. *)
Theorem programs_order_independent iter1 iter2 w :
  iteration iter1 -> iteration iter2 ->
  same_up_to_order (countquery_main iter1 w) (countquery_main iter2 w) /\
  same_up_to_order (comparisonquery_main iter1 w) (comparisonquery_main iter2 w) /\
  same_up_to_order (phonemequery_main iter1 w) (phonemequery_main iter2 w).
Proof.
  intros H1 H2. unfold countquery_main, comparisonquery_main, phonemequery_main, readOneSetOfFeatures.
  split_and!; shared_prefix; apply same_up_to_order_print;
    unfold countquery, comparisonquery, phonemequery; repeat case_match;
    apply select_loop_perm, iteration_perm; done.
Qed.

(** ** Witnesses *)

(** A JSON string literal without escapes. *)
Definition jstr (s : string) : string := String quote_char (s +:+ String quote_char EmptyString).

(** Two languages, [1 : m b] and [2 : p], and the features of the three
    segments, as the cache files hold them. *)
Definition example_inventories_json : string :=
  "{" +:+ jstr "1" +:+ ": [" +:+ jstr "m" +:+ ", " +:+ jstr "b" +:+ "], " +:+
  jstr "2" +:+ ": [" +:+ jstr "p" +:+ "]}".

Definition example_parses_json : string :=
  "{" +:+ jstr "m" +:+ ": [" +:+ jstr "nasal" +:+ ", " +:+ jstr "voice" +:+ "], " +:+
  jstr "b" +:+ ": [" +:+ jstr "voice" +:+ "], " +:+ jstr "p" +:+ ": []}".

Definition example_files : gmap string string :=
  <["inventories.json" := example_inventories_json]> (<["parses_cache.json" := example_parses_json]> ∅).

Definition voice_query : string := "[" +:+ jstr "+voice" +:+ "]".
Definition nasal_query : string := "[" +:+ jstr "+nasal" +:+ "]".

Lemma countquery_main_reads_witness :
  countquery_main map_to_list
    (mk_world example_files (line ">=" (line (FormatInt 1) (line voice_query EmptyString)))) =
  Ok (Println (Marshal_ints [1])).
Proof.
  rewrite (countquery_main_reads map_to_list example_files example_inventories_json example_parses_json);
    try reflexivity; try discriminate.
  unfold GoInt.min_int, GoInt.max_int. lia.
Defined.

Lemma comparisonquery_main_reads_witness :
  comparisonquery_main map_to_list
    (mk_world example_files (line "=" (line voice_query (line nasal_query EmptyString)))) =
  Ok (Println (Marshal_ints [2])).
Proof.
  rewrite (comparisonquery_main_reads map_to_list example_files example_inventories_json example_parses_json);
    try reflexivity; discriminate.
Defined.

Lemma phonemequery_main_reads_witness :
  phonemequery_main map_to_list
    (mk_world example_files (line "=" (line (FormatInt 0) (line "p" EmptyString)))) =
  Ok (Println (Marshal_ints [1])).
Proof.
  rewrite (phonemequery_main_reads map_to_list example_files example_inventories_json);
    try reflexivity; try discriminate.
  unfold GoInt.min_int, GoInt.max_int. lia.
Defined.

Lemma query_line_without_newline_witness :
  countquery_main map_to_list (mk_world example_files (line ">=" (line (FormatInt 1) voice_query))) =
    Fatal ReadFailed /\
  comparisonquery_main map_to_list (mk_world example_files (line ">=" (line nasal_query voice_query))) =
    Fatal ReadFailed.
Proof.
  apply (query_line_without_newline map_to_list example_files example_inventories_json example_parses_json);
    try reflexivity; try discriminate.
  unfold GoInt.min_int, GoInt.max_int. lia.
Defined.

Lemma countquery_malformed_line_witness :
  countquery_main map_to_list
    (mk_world example_files (line ">=" (line (FormatInt 2) (line "[+voice" EmptyString)))) =
  countquery_main map_to_list
    (mk_world example_files (line ">=" (line (FormatInt 2) (line "[]" EmptyString)))) /\
  countquery_main map_to_list
    (mk_world example_files (line ">=" (line (FormatInt 2) (line "[]" EmptyString)))) =
  Ok (Println (Marshal_ints [1])).
Proof.
  split; [|vm_compute; reflexivity].
  apply (countquery_malformed_line map_to_list example_files example_inventories_json example_parses_json
           ">=" 2 "[+voice" ErrSyntax); try reflexivity; try discriminate.
  unfold GoInt.min_int, GoInt.max_int. lia.
Defined.

Lemma countquery_target_not_a_number_witness :
  countquery_main map_to_list
    (mk_world example_files (line ">=" (line "x1" (line voice_query EmptyString)))) =
  Ok (Println (Marshal_ints [1; 2])).
Proof.
  rewrite (countquery_target_not_a_number map_to_list example_files example_inventories_json example_parses_json
             ">=" "x"%char "1"); try reflexivity; discriminate.
Defined.

Lemma corrupt_inventory_cache_witness :
  countquery_main map_to_list
    (mk_world (<["inventories.json" := "{1:"]> example_files)
       (line ">=" (line (FormatInt 0) (line voice_query EmptyString)))) = Ok (Println "[]") /\
  phonemequery_main map_to_list
    (mk_world (<["inventories.json" := "{1:"]> example_files)
       (line ">=" (line (FormatInt 0) (line "p" EmptyString)))) = Ok (Println "[]").
Proof.
  apply (corrupt_inventory_cache map_to_list _ "{1:" example_parses_json _ _ _ _ _ ErrSyntax);
    try reflexivity; try discriminate.
  - intros m. apply Permutation_refl.
  - unfold GoInt.min_int, GoInt.max_int. lia.
Defined.
Lemma programs_print_json_ints_witness :
  countquery_main map_to_list
    (mk_world example_files (line ">=" (line (FormatInt 1) (line voice_query EmptyString)))) =
  Ok (Println (Marshal_ints [1])) /\
  exists zs, Println (Marshal_ints [1]) = Println (Marshal_ints zs) /\
    decode_json (Marshal_ints zs) = Ok (JArray (map (fun z => JNumber (FormatInt z)) zs)) /\
    Forall (fun z => Atoi (FormatInt z) = Ok z) zs.
Proof.
  assert (H : countquery_main map_to_list
    (mk_world example_files (line ">=" (line (FormatInt 1) (line voice_query EmptyString)))) =
    Ok (Println (Marshal_ints [1]))) by (vm_compute; reflexivity).
  split; [exact H|]. apply (programs_print_json_ints map_to_list _ _ (or_introl H)).
Defined.

Lemma programs_order_independent_witness :
  same_up_to_order
    (countquery_main map_to_list
       (mk_world example_files (line "<" (line (FormatInt 3) (line voice_query EmptyString)))))
    (countquery_main (fun m => rev (map_to_list m))
       (mk_world example_files (line "<" (line (FormatInt 3) (line voice_query EmptyString))))) /\
  countquery_main (fun m => rev (map_to_list m))
    (mk_world example_files (line "<" (line (FormatInt 3) (line voice_query EmptyString)))) =
  Ok (Println (Marshal_ints [2; 1])).
Proof.
  split; [|vm_compute; reflexivity].
  apply (programs_order_independent map_to_list (fun m => rev (map_to_list m))).
  - intros m. apply Permutation_refl.
  - intros m. unfold range_order. symmetry. apply Permutation_rev.
Defined.
Lemma example_inventory_lengths :
  map_Forall (fun _ inventory =>
    Z.of_nat (length inventory) <= GoInt.max_int /\
    Z.of_nat (length inventory) - GoInt.max_int <= 1 <= GoInt.max_int) (Unmarshal_map example_inventories_json).
Proof. apply (bool_decide_unpack _). vm_compute. reflexivity. Qed.

Lemma countquery_main_spec_witness :
  countquery_main map_to_list
    (mk_world example_files (line ">=" (line (FormatInt 1) (line voice_query EmptyString)))) =
  Ok (Println (Marshal_ints [1])) /\
  exists r, Println (Marshal_ints [1]) = Println (Marshal_ints r) /\
    (1 ∈ r <-> exists languageID inventory,
       Unmarshal_map example_inventories_json !! languageID = Some inventory /\ Atoi languageID = Ok 1 /\
       op_rel OpGe (Z.of_nat (spec_count (ParseFeatures (Unmarshal_strings (line voice_query EmptyString))).1
                                         (ParseFeatures (Unmarshal_strings (line voice_query EmptyString))).2
                                         inventory (Unmarshal_map example_parses_json))) 1).
Proof.
  assert (H : countquery_main map_to_list
    (mk_world example_files (line ">=" (line (FormatInt 1) (line voice_query EmptyString)))) =
    Ok (Println (Marshal_ints [1]))) by (vm_compute; reflexivity).
  split; [exact H|].
  apply (countquery_main_spec map_to_list example_files example_inventories_json example_parses_json
           ">=" OpGe 1 voice_query EmptyString); try reflexivity; try discriminate; try exact H.
  - intros m. apply Permutation_refl.
  - unfold GoInt.min_int, GoInt.max_int. lia.
  - exact example_inventory_lengths.
Defined.

Lemma comparisonquery_main_spec_witness :
  comparisonquery_main map_to_list
    (mk_world example_files (line "=" (line voice_query (line nasal_query EmptyString)))) =
  Ok (Println (Marshal_ints [2])) /\
  exists r, Println (Marshal_ints [2]) = Println (Marshal_ints r) /\
    (2 ∈ r <-> exists languageID inventory,
       Unmarshal_map example_inventories_json !! languageID = Some inventory /\ Atoi languageID = Ok 2 /\
       comparison_selects (Unmarshal_map example_parses_json) OpEq
         (ParseFeatures (Unmarshal_strings (line voice_query EmptyString)))
         (ParseFeatures (Unmarshal_strings (line nasal_query EmptyString))) inventory).
Proof.
  assert (H : comparisonquery_main map_to_list
    (mk_world example_files (line "=" (line voice_query (line nasal_query EmptyString)))) =
    Ok (Println (Marshal_ints [2]))) by (vm_compute; reflexivity).
  split; [exact H|].
  apply (comparisonquery_main_spec map_to_list example_files example_inventories_json example_parses_json
           "=" OpEq voice_query nasal_query EmptyString); try reflexivity; try discriminate; try exact H.
  - intros m. apply Permutation_refl.
  - apply (bool_decide_unpack _). vm_compute. reflexivity.
Defined.

Lemma phonemequery_main_spec_witness :
  phonemequery_main map_to_list
    (mk_world example_files (line "=" (line (FormatInt 1) (line "p" EmptyString)))) =
  Ok (Println (Marshal_ints [2])) /\
  exists r, Println (Marshal_ints [2]) = Println (Marshal_ints r) /\
    (2 ∈ r <-> exists languageID inventory,
       Unmarshal_map example_inventories_json !! languageID = Some inventory /\ Atoi languageID = Ok 2 /\
       op_rel OpEq (if decide ("p" ∈ inventory) then 1 else 0) 1).
Proof.
  assert (H : phonemequery_main map_to_list
    (mk_world example_files (line "=" (line (FormatInt 1) (line "p" EmptyString)))) =
    Ok (Println (Marshal_ints [2]))) by (vm_compute; reflexivity).
  split; [exact H|].
  apply (phonemequery_main_spec map_to_list example_files example_inventories_json
           "=" OpEq 1 "p" EmptyString); try reflexivity; try discriminate; try exact H.
  - intros m. apply Permutation_refl.
  - unfold GoInt.min_int, GoInt.max_int. lia.
  - exact example_inventory_lengths.
Defined.
End Programs.
